(** * qml-edx: the notebooks' circuits, weight matrices and quadratic models

    The notebooks of the repository are linear scripts over a quantum SDK,
    an annealing sampler and numpy.  This development embeds what the
    notebook cells build (gate lists appended to a circuit, the pairwise
    distance matrix, the dictionaries handed to [BinaryQuadraticModel]) and
    the library semantics those objects are interpreted with (statevector
    simulation, [np.allclose], the energy of a quadratic model).  Real
    numbers stand for numpy's floats throughout. *)

From Stdlib Require Import Ascii String.
From Stdlib Require Import Reals Lra Lia List Arith Bool PeanoNat ZArith.
Import ListNotations.

Local Open Scope R_scope.

(** ** Complex amplitudes *)

Module Amplitude.

(** A complex number [re + i*im], as a [complex128] pair. *)
Definition C : Type := (R * R)%type.

Definition C0 : C := (0, 0).
Definition C1 : C := (1, 0).
Definition RtoC (r : R) : C := (r, 0).

Definition Cplus (a b : C) : C := (fst a + fst b, snd a + snd b).
Definition Cminus (a b : C) : C := (fst a - fst b, snd a - snd b).
Definition Copp (a : C) : C := (- fst a, - snd a).
Definition Cmult (a b : C) : C :=
  (fst a * fst b - snd a * snd b, fst a * snd b + snd a * fst b).
Definition Cscale (r : R) (a : C) : C := (r * fst a, r * snd a).

(** [e^{i t}] *)
Definition Cexp (t : R) : C := (cos t, sin t).

(** Squared modulus and modulus ([abs] of a complex number). *)
Definition Cnorm2 (a : C) : R := fst a * fst a + snd a * snd a.
Definition Cabs (a : C) : R := sqrt (Cnorm2 a).

End Amplitude.

(** ** The notebook runner: cells, exceptions, top-to-bottom execution *)

Module Runner.

(** The exceptions a cell can end with.  [LibraryError] stands for any
    failure raised inside a library routine, tagged by the library. *)
Inductive exn : Type :=
| AssertionError
| NameError
| ValueError
| LibraryError (code : nat).

Inductive outcome (A : Type) : Type :=
| Ok (a : A)
| Raise (e : exn).

Arguments Ok {A} a.
Arguments Raise {A} e.

(** Statement sequencing: an exception skips everything after it. *)
Definition bind {A B : Type} (m : outcome A) (k : A -> outcome B) : outcome B :=
  match m with
  | Ok a => k a
  | Raise e => Raise e
  end.

(** Cells run top to bottom on the kernel's namespace; the run stops at the
    first cell that raises. *)
Fixpoint run_cells {S : Type} (cells : list (S -> outcome S)) (ns : S)
  : outcome S :=
  match cells with
  | [] => Ok ns
  | cell :: rest => bind (cell ns) (run_cells rest)
  end.

End Runner.

Notation "v <- m ;; k" := (Runner.bind m (fun v => k))
  (at level 61, m at next level, right associativity).

(** ** Statevector simulation of the SDK's circuits *)

Module QuantumCircuit.
Import Amplitude.

(** The gate methods the notebooks call on a [QuantumCircuit]; the qubit
    [q[k]] is the index [k] into the quantum register. *)
Inductive gate : Type :=
| h (q : nat)
| x (q : nat)
| cx (ctl tgt : nat)
| cz (ctl tgt : nat)
| swap (q1 q2 : nat)
| cu1 (lam : R) (ctl tgt : nat)
| cu3 (theta phi lam : R) (ctl tgt : nat).

(** A circuit: the size of its quantum register and the instructions
    appended so far, oldest first. *)
Record circuit : Type := mkCircuit { n_qubits : nat; data : list gate }.

(** [QuantumCircuit(q, c)] over a fresh register [q] of [n] qubits. *)
Definition new_circuit (n : nat) : circuit := mkCircuit n [].

(** A gate method appends its instruction to the circuit it is called on. *)
Definition append (c : circuit) (g : gate) : circuit :=
  mkCircuit (n_qubits c) (data c ++ [g]).

Definition statevector : Type := list C.

(** All registers start in [|0>]: amplitude 1 at basis index 0. *)
Definition zero_state (n : nat) : statevector := C1 :: repeat C0 (2 ^ n - 1).

Definition amp (s : statevector) (i : nat) : C := nth i s C0.

(** The vector of [2^n] amplitudes that is zero outside the listed basis
    indices. *)
Definition ket (n : nat) (entries : list (nat * C)) : statevector :=
  map (fun i => match find (fun e => (fst e =? i)%nat) entries with
                | Some e => snd e
                | None => C0
                end)
      (seq 0 (2 ^ n)).

(** Qubit [k] is bit [k] of the basis index (the SDK is little-endian). *)
Definition bit (i k : nat) : bool := Nat.testbit i k.
Definition flip (i k : nat) : nat := Nat.lxor i (2 ^ k).

(** A 2x2 matrix [[m00, m01], [m10, m11]]. *)
Definition mat2 : Type := (C * C * C * C)%type.

(** Row [bit i k] of the matrix against the two amplitudes that differ in
    qubit [k] only. *)
Definition mix (m : mat2) (k : nat) (s : statevector) (i : nat) : C :=
  let '(m00, m01, m10, m11) := m in
  if bit i k
  then Cplus (Cmult m10 (amp s (flip i k))) (Cmult m11 (amp s i))
  else Cplus (Cmult m00 (amp s i)) (Cmult m01 (amp s (flip i k))).

Definition tabulate (f : nat -> C) (s : statevector) : statevector :=
  map f (seq 0 (length s)).

Definition apply_1q (m : mat2) (k : nat) (s : statevector) : statevector :=
  tabulate (mix m k s) s.

Definition apply_controlled (m : mat2) (ctl tgt : nat) (s : statevector)
  : statevector :=
  tabulate (fun i => if bit i ctl then mix m tgt s i else amp s i) s.

(** The basis index with the bits of two qubits exchanged. *)
Definition swap_bits (i a b : nat) : nat :=
  if Bool.eqb (bit i a) (bit i b) then i else flip (flip i a) b.

(** Gate matrices, as in the gate table of the circuits notebook. *)
Definition X_matrix : mat2 := (C0, C1, C1, C0).
Definition Z_matrix : mat2 := (C1, C0, C0, RtoC (-1)).
Definition H_matrix : mat2 :=
  (RtoC (/ sqrt 2), RtoC (/ sqrt 2), RtoC (/ sqrt 2), RtoC (- / sqrt 2)).

(** [u3(theta, phi, lambda)], the general single-qubit unitary of the
    compilation section of the circuits notebook.  The notebooks only call
    [cu3] with [phi = lambda = 0], where it is the controlled rotation
    [[cos(theta/2), -sin(theta/2)], [sin(theta/2), cos(theta/2)]]. *)
Definition u3_matrix (theta phi lam : R) : mat2 :=
  (RtoC (cos (theta / 2)),
   Copp (Cmult (Cexp lam) (RtoC (sin (theta / 2)))),
   Cmult (Cexp phi) (RtoC (sin (theta / 2))),
   Cmult (Cexp (lam + phi)) (RtoC (cos (theta / 2)))).

(** [u1(lambda) = diag(1, e^{i lambda})]. *)
Definition u1_matrix (lam : R) : mat2 := (C1, C0, C0, Cexp lam).

Definition apply_gate (g : gate) (s : statevector) : statevector :=
  match g with
  | h q => apply_1q H_matrix q s
  | x q => apply_1q X_matrix q s
  | cx c t => apply_controlled X_matrix c t s
  | cz c t => apply_controlled Z_matrix c t s
  | swap a b => tabulate (fun i => amp s (swap_bits i a b)) s
  | cu1 lam c t => apply_controlled (u1_matrix lam) c t s
  | cu3 theta phi lam c t => apply_controlled (u3_matrix theta phi lam) c t s
  end.

(** Instructions act in the order they were appended. *)
Definition run (gs : list gate) (s : statevector) : statevector :=
  fold_left (fun st g => apply_gate g st) gs s.

(** What the statevector simulator returns for a circuit. *)
Definition final_state (c : circuit) : statevector :=
  run (data c) (zero_state (n_qubits c)).

(** The qubits an instruction touches. *)
Definition qubits_of (g : gate) : list nat :=
  match g with
  | h q | x q => [q]
  | cx c t | cz c t | cu1 _ c t | cu3 _ _ _ c t => [c; t]
  | swap a b => [a; b]
  end.

(** Every instruction addresses a qubit of the circuit's register. *)
Definition well_formed (c : circuit) : bool :=
  forallb (fun g => forallb (fun q => (q <? n_qubits c)%nat) (qubits_of g))
          (data c).

(** Probability of reading basis state [i] when every qubit is measured. *)
Definition probability (s : statevector) (i : nat) : R := Cnorm2 (amp s i).

(** The key of basis state [i] in the counts dictionary: the classical bits
    [c[n-1] ... c[0]] after [measure(q, c)]. *)
Fixpoint bitstring (n i : nat) : String.string :=
  match n with
  | O => String.EmptyString
  | S n' =>
      String.String (if bit i n' then "1"%char else "0"%char) (bitstring n' i)
  end.

(** A sampled run can report basis state [i] only if the measurement has a
    non-zero probability of producing it. *)
Definition can_appear (s : statevector) (i : nat) : Prop :=
  (i < length s)%nat /\ probability s i <> 0.

End QuantumCircuit.

Module QC := QuantumCircuit.

(** ** numpy *)

Module np.
Import Amplitude Runner.

Definition matrix : Type := list (list R).

(** [np.zeros((n, m))] *)
Definition zeros (n m : nat) : matrix := repeat (repeat 0 m) n.

Definition shape (w : matrix) (n m : nat) : Prop :=
  length w = n /\ Forall (fun row => length row = m) w.

(** [w[i, j]] for indices inside the array. *)
Definition get (w : matrix) (i j : nat) : R := nth j (nth i w []) 0.

(** Replace element [k] of a list; indices past the end change nothing
    (numpy raises [IndexError] there, the notebooks only index in range). *)
Fixpoint update {A : Type} (l : list A) (k : nat) (v : A) : list A :=
  match l, k with
  | [], _ => []
  | _ :: t, O => v :: t
  | a :: t, S k' => a :: update t k' v
  end.

(** [w[i, j] = v] *)
Definition set (w : matrix) (i j : nat) (v : R) : matrix :=
  update w i (update (nth i w []) j v).

(** Elementwise [a - b] on two rows of equal length. *)
Definition sub (a b : list R) : list R :=
  map (fun p => fst p - snd p) (combine a b).

Definition sum (l : list R) : R := fold_right Rplus 0 l.

(** [np.linalg.norm] of a vector: the Euclidean norm. *)
Definition norm (v : list R) : R := sqrt (sum (map (fun c => c * c) v)).

(** [np.linspace(start, stop, num)] for [num > 1]. *)
Definition linspace (start stop : R) (num : nat) : list R :=
  map (fun i => start + INR i * ((stop - start) / INR (num - 1))) (seq 0 num).

(** [np.allclose(a, b)] with its default tolerances:
    [|a - b| <= atol + rtol * |b|] elementwise. *)
Definition rtol : R := 1 / 100000.
Definition atol : R := 1 / 100000000.

Definition isclose (a b : C) : bool :=
  if Rle_dec (Cabs (Cminus a b)) (atol + rtol * Cabs b) then true else false.

(** Operands of different lengths cannot be compared ([ValueError]; numpy
    would also stretch a one-element operand, which no notebook passes). *)
Definition allclose (a b : list C) : outcome bool :=
  if (length a =? length b)%nat
  then Ok (forallb (fun p => isclose (fst p) (snd p)) (combine a b))
  else Raise ValueError.

End np.

(** ** The annealing library's quadratic models *)

Module dimod.
Import Runner.

Inductive Vartype : Type := SPIN | BINARY.

(** A Python dictionary: keys in insertion order, each key once. *)
Definition dict (K V : Type) : Type := list (K * V).

Section Dict.
Context {K V : Type} (eqb : K -> K -> bool).

Fixpoint lookup (d : dict K V) (k : K) : option V :=
  match d with
  | [] => None
  | (k', v) :: rest => if eqb k' k then Some v else lookup rest k
  end.

(** [d[k] = v]: overwrite in place, or insert at the end. *)
Fixpoint setitem (d : dict K V) (k : K) (v : V) : dict K V :=
  match d with
  | [] => [(k, v)]
  | (k', v') :: rest =>
      if eqb k' k then (k', v) :: rest else (k', v') :: setitem rest k v
  end.

End Dict.

Definition edge_eqb (a b : nat * nat) : bool :=
  ((fst a =? fst b) && (snd a =? snd b))%nat.

Record BinaryQuadraticModel : Type := mkBQM {
  linear : dict nat R;
  quadratic : dict (nat * nat) R;
  offset : R;
  vartype : Vartype
}.

(** [add_variable]: a new variable gets the bias, a known one accumulates. *)
Definition add_variable (lin : dict nat R) (v : nat) (bias : R) : dict nat R :=
  match lookup Nat.eqb lin v with
  | Some b => setitem Nat.eqb lin v (b + bias)
  | None => setitem Nat.eqb lin v bias
  end.

(** [add_interaction]: both ends become variables (bias 0 if new); the bias
    accumulates on an interaction already stored in either orientation; a
    self-loop is rejected. *)
Definition add_interaction (m : dict nat R * dict (nat * nat) R)
  (e : (nat * nat) * R) : outcome (dict nat R * dict (nat * nat) R) :=
  let '(lin, quad) := m in
  let '((u, v), bias) := e in
  if (u =? v)%nat then Raise ValueError
  else
    let lin := match lookup Nat.eqb lin u with
               | Some _ => lin
               | None => setitem Nat.eqb lin u 0
               end in
    let lin := match lookup Nat.eqb lin v with
               | Some _ => lin
               | None => setitem Nat.eqb lin v 0
               end in
    match lookup edge_eqb quad (u, v), lookup edge_eqb quad (v, u) with
    | Some b, _ => Ok (lin, setitem edge_eqb quad (u, v) (b + bias))
    | None, Some b => Ok (lin, setitem edge_eqb quad (v, u) (b + bias))
    | None, None => Ok (lin, setitem edge_eqb quad (u, v) bias)
    end.

Fixpoint add_interactions_from (m : dict nat R * dict (nat * nat) R)
  (es : dict (nat * nat) R) : outcome (dict nat R * dict (nat * nat) R) :=
  match es with
  | [] => Ok m
  | e :: rest => m' <- add_interaction m e ;; add_interactions_from m' rest
  end.

(** The constructor [BinaryQuadraticModel(linear, quadratic, offset,
    vartype)]. *)
Definition new_model (h : dict nat R) (J : dict (nat * nat) R) (off : R)
  (vt : Vartype) : outcome BinaryQuadraticModel :=
  let lin := fold_left (fun l e => add_variable l (fst e) (snd e)) h [] in
  m <- add_interactions_from (lin, []) J ;;
  Ok (mkBQM (fst m) (snd m) off vt).

(** A sample assigns an integer value to each variable label
    ([{0: 1, 1: 1, 2: -1, 3: -1}]). *)
Definition sample : Type := list Z.

Definition value (s : sample) (v : nat) : R := IZR (nth v s 0%Z).

(** [model.energy(sample)] *)
Definition energy (m : BinaryQuadraticModel) (s : sample) : R :=
  np.sum (map (fun e => snd e * value s (fst e)) (linear m))
  + np.sum (map (fun e => snd e * value s (fst (fst e)) * value s (snd (fst e)))
                (quadratic m))
  + offset m.

(** The values a variable may take under each vartype. *)
Definition admissible (vt : Vartype) (z : Z) : Prop :=
  match vt with
  | SPIN => z = 1%Z \/ z = (-1)%Z
  | BINARY => z = 0%Z \/ z = 1%Z
  end.

Definition assignment (vt : Vartype) (n : nat) (s : sample) : Prop :=
  length s = n /\ Forall (admissible vt) s.

End dimod.

(** ** Python built-ins used by the cells *)

Module builtins.

(** [range(a, b)] *)
Definition range (a b : nat) : list nat := seq a (b - a).

(** [itertools.product(xs, ys)], in its lexicographic order. *)
Definition product (xs ys : list nat) : list (nat * nat) := list_prod xs ys.

End builtins.

(** ** Notebook: mapping clustering to max-cut (QAOA and annealing) *)

Module Clustering.
Import Runner builtins dimod.

Definition n_instances : nat := 4.

(** The dataset: two classes of [n_instances // 2] points in 3 dimensions,
    from the uniform draws [u1] and [u2] of [np.random.rand]. *)
Definition class_1 (u1 : np.matrix) : np.matrix :=
  map (map (fun v => v / 5)) u1.

Definition class_2 (u2 : np.matrix) : np.matrix :=
  map (fun row => map (fun p => fst p + snd p / 5)
                      (combine [0.6; 0.1; 0.05] row)) u2.

Definition data (u1 u2 : np.matrix) : np.matrix := class_1 u1 ++ class_2 u2.

(** [np.linalg.norm(data[i] - data[j])] *)
Definition distance (data : np.matrix) (i j : nat) : R :=
  np.norm (np.sub (nth i data []) (nth j data [])).

(** The loop of the second cell: [w] starts as zeros and every index pair
    of [itertools.product(range(n), range(n))] is assigned its distance. *)
Definition pairwise_distances (n : nat) (data : np.matrix) : np.matrix :=
  fold_left
    (fun w ij => np.set w (fst ij) (snd ij) (distance data (fst ij) (snd ij)))
    (product (range 0 n) (range 0 n))
    (np.zeros n n).

Definition w (data : np.matrix) : np.matrix :=
  pairwise_distances n_instances data.

(** The annealing cell: the on-site fields [h] and the couplings [J]. *)
Definition couplings (n : nat) (w : np.matrix)
  : dict (nat * nat) R * dict nat R :=
  fold_left
    (fun Jh i =>
       let h := setitem Nat.eqb (snd Jh) i 0 in
       let J := fold_left (fun J j => setitem edge_eqb J (i, j) (np.get w i j))
                          (range (i + 1) n) (fst Jh) in
       (J, h))
    (range 0 n) ([], []).

Definition J (w : np.matrix) : dict (nat * nat) R :=
  fst (couplings n_instances w).

Definition h (w : np.matrix) : dict nat R :=
  snd (couplings n_instances w).

(** [model = dimod.BinaryQuadraticModel(h, J, 0.0, dimod.SPIN)] *)
Definition model (w : np.matrix) : outcome BinaryQuadraticModel :=
  new_model (h w) (J w) 0 SPIN.

(** The model the constructor returns on these dictionaries: field 0 on
    the four variables, coupling [w[i, j]] on the six pairs [i < j]. *)
Definition ising (w : np.matrix) : BinaryQuadraticModel :=
  mkBQM [(0%nat, 0); (1%nat, 0); (2%nat, 0); (3%nat, 0)]
        [((0%nat, 1%nat), np.get w 0 1); ((0%nat, 2%nat), np.get w 0 2);
         ((0%nat, 3%nat), np.get w 0 3); ((1%nat, 2%nat), np.get w 1 2);
         ((1%nat, 3%nat), np.get w 1 3); ((2%nat, 3%nat), np.get w 2 3)]
        0 SPIN.

(** The index pairs [i < j] of the graph's edges. *)
Definition edges (n : nat) : list (nat * nat) :=
  flat_map (fun i => map (pair i) (range (i + 1) n)) (range 0 n).

(** Sum over [i < j] of [w[i,j] * sigma_i * sigma_j]. *)
Definition coupling_energy (w : np.matrix) (sigma : sample) : R :=
  np.sum (map (fun e => np.get w (fst e) (snd e)
                        * value sigma (fst e) * value sigma (snd e))
              (edges n_instances)).

Definition total_weight (w : np.matrix) : R :=
  np.sum (map (fun e => np.get w (fst e) (snd e)) (edges n_instances)).

(** Weight of the cut: the edges whose ends carry different spins. *)
Definition cut_weight (w : np.matrix) (sigma : sample) : R :=
  np.sum (map (fun e => if (nth (fst e) sigma 0 =? nth (snd e) sigma 0)%Z
                        then 0 else np.get w (fst e) (snd e))
              (edges n_instances)).

Definition minimum_energy (m : BinaryQuadraticModel) (sigma : sample) : Prop :=
  assignment SPIN n_instances sigma /\
  forall tau, assignment SPIN n_instances tau ->
              energy m sigma <= energy m tau.

Definition maximum_cut (w : np.matrix) (sigma : sample) : Prop :=
  assignment SPIN n_instances sigma /\
  forall tau, assignment SPIN n_instances tau ->
              cut_weight w tau <= cut_weight w sigma.

(** The QAOA cell; the SDK's routines are whatever the library provides. *)
Section QAOACell.

Variables Backend Instance Algorithm Result Eigvec Bits : Type.
Variable get_aer_backend : string -> outcome Backend.
Variable QuantumInstance : Backend -> nat -> outcome Instance.
Variable qaoa_run : Algorithm -> Instance -> outcome Result.
Variable result_eigvec0 : Result -> outcome Eigvec.
Variable result_energy : Result -> outcome R.
Variable sample_most_likely : Eigvec -> outcome Bits.
Variable get_graph_solution : Bits -> outcome Bits.
Variable max_cut_value : Bits -> np.matrix -> outcome R.

(** What the cell prints, line by line. *)
Record printed : Type := mkPrinted {
  energy_line : R;
  maxcut_objective_line : R;
  solution_line : Bits;
  solution_objective_line : R
}.

Definition qaoa_cell (qaoa : Algorithm) (offset : R) (w : np.matrix)
  : outcome printed :=
  backend <- get_aer_backend "statevector_simulator" ;;
  quantum_instance <- QuantumInstance backend 1 ;;
  result <- qaoa_run qaoa quantum_instance ;;
  v <- result_eigvec0 result ;;
  x <- sample_most_likely v ;;
  graph_solution <- get_graph_solution x ;;
  e1 <- result_energy result ;;
  e2 <- result_energy result ;;
  sol <- get_graph_solution x ;;
  obj <- max_cut_value x w ;;
  Ok (mkPrinted e1 (e2 + offset) sol obj).

End QAOACell.

End Clustering.

(** ** Notebook: a Markov random field as a quadratic model *)

Module MarkovNetwork.
Import Runner builtins dimod.

Definition n_variables : nat := 4.

(** [h = {v: 1 for v in range(n_variables)}] *)
Definition h : dict nat R :=
  fold_left (fun d v => setitem Nat.eqb d v 1) (range 0 n_variables) [].

(** [J = {(0, 1): -1, (1, 2): -1}] *)
Definition J : dict (nat * nat) R :=
  [((0%nat, 1%nat), -1); ((1%nat, 2%nat), -1)].

(** [model = dimod.BinaryQuadraticModel(h, J, 0.0, dimod.BINARY)] *)
Definition model : outcome BinaryQuadraticModel := new_model h J 0 BINARY.

(** The model the constructor returns on these dictionaries. *)
Definition network : BinaryQuadraticModel :=
  mkBQM [(0%nat, 1); (1%nat, 1); (2%nat, 1); (3%nat, 1)]
        [((0%nat, 1%nat), -1); ((1%nat, 2%nat), -1)]
        0 BINARY.

Definition assert (b : bool) : outcome unit :=
  if b then Ok tt else Raise AssertionError.

Definition Vartype_eqb (a b : Vartype) : bool :=
  match a, b with
  | SPIN, SPIN | BINARY, BINARY => true
  | _, _ => false
  end.

Definition R_eqb (a b : R) : bool := if Req_dec_T a b then true else false.

Fixpoint list_eqb {A : Type} (eqb : A -> A -> bool) (l1 l2 : list A) : bool :=
  match l1, l2 with
  | [], [] => true
  | a :: t1, b :: t2 => eqb a b && list_eqb eqb t1 t2
  | _, _ => false
  end.

(** The grading cell of Exercise 1. *)
Definition exercise1_check (model : BinaryQuadraticModel) : outcome unit :=
  _ <- assert (Vartype_eqb (vartype model) BINARY) ;;
  _ <- assert (length (linear model) =? 4)%nat ;;
  _ <- assert (list_eqb Nat.eqb (map fst (linear model)) [0; 1; 2; 3]%nat) ;;
  _ <- assert (list_eqb R_eqb (map snd (linear model)) [1; 1; 1; 1]) ;;
  _ <- assert (list_eqb edge_eqb (map fst (quadratic model))
                        [(0, 1); (1, 2)]%nat) ;;
  assert (list_eqb R_eqb (map snd (quadratic model)) [-1; -1]).

(** Two variables are coupled when the model stores an interaction
    between them, in either orientation. *)
Definition coupled (m : BinaryQuadraticModel) (u v : nat) : Prop :=
  In (u, v) (map fst (quadratic m)) \/ In (v, u) (map fst (quadratic m)).

(** The weight [exp(-E/T)] a configuration has in the Boltzmann
    distribution the model is sampled from (Exercise 4). *)
Definition weight (m : BinaryQuadraticModel) (T : R) (x0 x1 x2 x3 : Z) : R :=
  exp (- energy m [x0; x1; x2; x3] / T).

(** Sum over the two values of a binary variable. *)
Definition over (f : Z -> R) : R := f 0%Z + f 1%Z.

(** The partition function and the joint distribution of [X1 .. X4]. *)
Definition partition (m : BinaryQuadraticModel) (T : R) : R :=
  over (fun a => over (fun b => over (fun c => over (fun d =>
    weight m T a b c d)))).

Definition P (m : BinaryQuadraticModel) (T : R) (x0 x1 x2 x3 : Z) : R :=
  weight m T x0 x1 x2 x3 / partition m T.

(** Its marginals, named after the variables that are kept. *)
Definition P_123 (m : BinaryQuadraticModel) (T : R) (x0 x1 x2 : Z) : R :=
  over (fun d => P m T x0 x1 x2 d).

Definition P_4 (m : BinaryQuadraticModel) (T : R) (x3 : Z) : R :=
  over (fun a => over (fun b => over (fun c => P m T a b c x3))).

Definition P_12 (m : BinaryQuadraticModel) (T : R) (x0 x1 : Z) : R :=
  over (fun c => P_123 m T x0 x1 c).

Definition P_23 (m : BinaryQuadraticModel) (T : R) (x1 x2 : Z) : R :=
  over (fun a => P_123 m T a x1 x2).

Definition P_2 (m : BinaryQuadraticModel) (T : R) (x1 : Z) : R :=
  over (fun a => P_12 m T a x1).

End MarkovNetwork.

(** ** Notebook: circuits (the Bell pair) *)

Module Circuits.

(** [q = QuantumRegister(2)]; [circuit.h(q[0])]; [circuit.cx(q[0], q[1])] *)
Definition circuit : QC.circuit :=
  QC.append (QC.append (QC.new_circuit 2) (QC.h 0)) (QC.cx 0 1).

(** The state [(|00> + |11>)/sqrt 2] the notebook names. *)
Definition bell : QC.statevector :=
  QC.ket 2 [(0%nat, Amplitude.RtoC (/ sqrt 2));
            (3%nat, Amplitude.RtoC (/ sqrt 2))].

End Circuits.

(** ** Notebook: quantum matrix inversion (the HHL exercises) *)

Module MatrixInversion.
Import Amplitude Runner.

(** Modelled from the spec: [get_amplitudes] comes from
    [assignment_helper.py], which is not among the sources.  The spec has
    the grading assertions compare the output vector of the circuit with a
    hardcoded one, the circuit being run on the provided simulator: it is
    the statevector the simulator returns for the circuit. *)
Definition get_amplitudes (c : QC.circuit) : QC.statevector := QC.final_state c.

(** The kernel's variables that the exercise cells read and write. *)
Record namespace : Type := mkNamespace {
  hhl : option QC.circuit;
  amplitudes : option QC.statevector
}.

Definition fresh : namespace := mkNamespace None None.

(** [q = QuantumRegister(4, 'q')] *)
Definition register_size : nat := 4.

(** The gate calls of each solution cell, in the order they are written. *)
Definition exercise1_gates : list QC.gate := [QC.h 1; QC.h 2; QC.x 3].

Definition exercise2_gates : list QC.gate := [QC.cz 2 3].

Definition exercise3_gates : list QC.gate :=
  [QC.swap 1 2; QC.h 2; QC.cu1 (- PI / 2) 1 2; QC.h 1].

Definition exercise4_gates : list QC.gate :=
  [QC.swap 1 2; QC.cu3 0.392699 0 0 1 0; QC.cu3 0.19634955 0 0 2 0].

Definition exercise5_gates : list QC.gate :=
  [QC.swap 1 2; QC.h 1; QC.cu1 (PI / 2) 1 2; QC.h 2;
   QC.swap 1 2; QC.cz 2 3; QC.h 1; QC.h 2].

(** Exercise 1 creates [hhl] on a register of four qubits and makes its
    gate calls. *)
Definition exercise1 (ns : namespace) : outcome namespace :=
  Ok (mkNamespace (Some (fold_left QC.append exercise1_gates
                                (QC.new_circuit register_size)))
                  (amplitudes ns)).

(** The later solution cells call gate methods on the existing [hhl]. *)
Definition extend (gs : list QC.gate) (ns : namespace) : outcome namespace :=
  match hhl ns with
  | None => Raise NameError
  | Some c => Ok (mkNamespace (Some (fold_left QC.append gs c)) (amplitudes ns))
  end.

Definition exercise2 : namespace -> outcome namespace := extend exercise2_gates.
Definition exercise3 : namespace -> outcome namespace := extend exercise3_gates.
Definition exercise4 : namespace -> outcome namespace := extend exercise4_gates.
Definition exercise5 : namespace -> outcome namespace := extend exercise5_gates.

(** A grading cell: [amplitudes = get_amplitudes(hhl)] followed by
    [assert np.allclose(amplitudes, expected)]. *)
Definition grade (expected : QC.statevector) (ns : namespace)
  : outcome namespace :=
  match hhl ns with
  | None => Raise NameError
  | Some c =>
      let a := get_amplitudes c in
      ok <- np.allclose a expected ;;
      if ok then Ok (mkNamespace (Some c) (Some a)) else Raise AssertionError
  end.

(** The hardcoded vectors of the five grading cells. *)
Definition exercise1_expected : QC.statevector :=
  map RtoC [0; 0; 0; 0; 0; 0; 0; 0; 0.5; 0; 0.5; 0; 0.5; 0; 0.5; 0].

Definition exercise2_expected : QC.statevector :=
  map RtoC [0; 0; 0; 0; 0; 0; 0; 0; 0.5; 0; 0.5; 0; -0.5; 0; -0.5; 0].

Definition exercise3_expected : QC.statevector :=
  map RtoC [0; 0; 0; 0; 0; 0; 0; 0; 0; 0; 1; 0; 0; 0; 0; 0].

Definition exercise4_expected : QC.statevector :=
  map RtoC [0; 0; 0; 0; 0; 0; 0; 0; 0; 0; 0; 0; 0.99518473; 0.09801714; 0; 0].

Definition exercise5_expected : QC.statevector :=
  map RtoC [0; 0; 0; 0; 0; 0; 0; 0; 0.99518473; 0.09801714; 0; 0; 0; 0; 0; 0].

(** The cell that displays [amplitudes]. *)
Definition show_amplitudes (ns : namespace) : outcome namespace :=
  match amplitudes ns with
  | None => Raise NameError
  | Some _ => Ok ns
  end.

(** The cells from Exercise 1 to the grading cell of Exercise 5, in the
    order they appear in the notebook. *)
Definition cells : list (namespace -> outcome namespace) :=
  [exercise1; grade exercise1_expected;
   exercise2; grade exercise2_expected;
   exercise3; grade exercise3_expected;
   exercise4; grade exercise4_expected;
   exercise5; show_amplitudes; grade exercise5_expected].

(** The gate calls that realise phase estimation and the controlled
    rotation (Exercises 1 to 4), and the whole circuit with the uncompute
    step of Exercise 5. *)
Definition rotation_gates : list QC.gate :=
  exercise1_gates ++ exercise2_gates ++ exercise3_gates ++ exercise4_gates.

Definition all_gates : list QC.gate := rotation_gates ++ exercise5_gates.

(** The rotation angle that reaches the ancilla, halved by [cu3]. *)
Definition half_angle : R := 0.19634955 / 2.

(** The states after the controlled rotation and after the uncompute. *)
Definition rotated_state : QC.statevector :=
  QC.ket 4 [(12%nat, RtoC (cos half_angle)); (13%nat, RtoC (sin half_angle))].

Definition uncomputed_state : QC.statevector :=
  QC.ket 4 [(8%nat, RtoC (cos half_angle)); (9%nat, RtoC (sin half_angle))].

End MatrixInversion.

(** ** Notebook: unitary evolution and the Boltzmann distribution *)

Module Evolution.
Import Amplitude.

(** [X = np.array([[0, 1], [1, 0]])] and [zero_ket = np.array([[1], [0]])] *)
Definition X : np.matrix := [[0; 1]; [1; 0]].
Definition zero_ket : np.matrix := [[1]; [0]].

(** The one-qubit circuit that applies [x] twice. *)
Definition circuit : QC.circuit :=
  QC.append (QC.append (QC.new_circuit 1) (QC.x 0)) (QC.x 0).

(** The Bell state handed to [mixed_state]. *)
Definition phi : np.matrix := [[1 / sqrt 2]; [0]; [0]; [1 / sqrt 2]].

Definition temperatures : list R := [0.5; 5; 2000].
Definition energies : list R := np.linspace 0 20 100.

(** The curve plotted for temperature [T]: [np.exp(-energies/T)],
    normalised by its sum. *)
Definition probabilities (T : R) : list R :=
  let p := map (fun E => exp (- E / T)) energies in
  let Z := np.sum p in
  map (fun v => v / Z) p.

End Evolution.

(** ** The sizes of the fixed example inputs *)

Module Examples.

(** Number of elements of each fixed input the cells hand to a library
    routine: data instances, Markov-network variables and couplings, the
    quantum registers, the state vectors and the two grids of the
    Boltzmann plot. *)
Definition input_sizes : list nat :=
  [Clustering.n_instances;
   MarkovNetwork.n_variables;
   length MarkovNetwork.J;
   MatrixInversion.register_size;
   QC.n_qubits Circuits.circuit;
   QC.n_qubits Evolution.circuit;
   length Evolution.X;
   length Evolution.zero_ket;
   length Evolution.phi;
   length Evolution.temperatures;
   length Evolution.energies].

End Examples.

(** ** The statements of the notebooks' code cells *)

Module Python.
Import Runner.

(** The statement forms of a code cell.  A simple statement is given by
    the calls it makes, by the callee's name in the source, in evaluation
    order; a comprehension is the loop it stands for.  [Try] is a
    [try: ... except: ...] statement. *)
#[local] Unset Elimination Schemes.

Inductive stmt : Type :=
| Import (module : string)
| Magic (line : string)
| Expr (calls : list string)
| Assert (calls : list string)
| For (calls : list string) (body : list stmt)
| If (calls : list string) (body orelse : list stmt)
| Def (name : string) (body : list stmt)
| Return (calls : list string)
| Try (body handler : list stmt).

#[local] Set Elimination Schemes.

Definition cell : Type := list stmt.

(** No [try] statement in the statement or below it. *)
Fixpoint handler_free (s : stmt) : bool :=
  match s with
  | For _ body => forallb handler_free body
  | If _ body orelse =>
      forallb handler_free body && forallb handler_free orelse
  | Def _ body => forallb handler_free body
  | Try _ _ => false
  | Import _ | Magic _ | Expr _ | Assert _ | Return _ => true
  end.

(** What a run yields: its outcome, and every exception that was raised
    on the way, by a library call or by a failed [assert], whether or not
    a handler caught it. *)
Record result (A : Type) : Type := mkResult {
  out : outcome A;
  raised : list exn
}.

Arguments mkResult {A} out raised.
Arguments out {A} r.
Arguments raised {A} r.

Definition ret {A : Type} (a : A) : result A := mkResult (Ok a) [].

Definition fail {A : Type} (e : exn) : result A := mkResult (Raise e) [e].

Definition and_then {A B : Type} (r : result A) (k : A -> result B)
  : result B :=
  match out r with
  | Ok a => mkResult (out (k a)) (raised r ++ raised (k a))
  | Raise e => mkResult (Raise e) (raised r)
  end.

Section Interpreter.

(** The interpreter's state and the libraries: what a call does to the
    state (it may raise), the truth value of the test just evaluated and
    the number of items of the iterable just evaluated. *)
Variable Env : Type.
Variable lib : string -> Env -> outcome Env.
Variable truth : Env -> bool.
Variable iterations : Env -> nat.

(** A function defined by [def]: running its body. *)
Definition closure : Type := Env -> result Env.

Record state : Type := mkState {
  env : Env;
  defs : list (string * closure);
  returned : bool
}.

Fixpoint lookup (fs : list (string * closure)) (name : string)
  : option closure :=
  match fs with
  | [] => None
  | (n, f) :: rest => if String.eqb n name then Some f else lookup rest name
  end.

(** A call: of a function of the notebook, or else of the libraries. *)
Definition call (fs : list (string * closure)) (name : string) (e : Env)
  : result Env :=
  match lookup fs name with
  | Some f => f e
  | None =>
      match lib name e with
      | Ok e' => ret e'
      | Raise x => fail x
      end
  end.

Fixpoint eval (fs : list (string * closure)) (calls : list string) (e : Env)
  : result Env :=
  match calls with
  | [] => ret e
  | c :: rest => and_then (call fs c e) (eval fs rest)
  end.

Definition eval_in (st : state) (calls : list string) : result state :=
  and_then (eval (defs st) calls (env st))
           (fun e => ret (mkState e (defs st) (returned st))).

(** A loop body run [n] times, unless it returns. *)
Fixpoint iterate (n : nat) (body : state -> result state) (st : state)
  : result state :=
  match n with
  | O => ret st
  | S n' =>
      if returned st then ret st else and_then (body st) (iterate n' body)
  end.

Fixpoint exec (s : stmt) (st : state) {struct s} : result state :=
  let block :=
    fix block (b : list stmt) (st : state) {struct b} : result state :=
      match b with
      | [] => ret st
      | s :: b' =>
          if returned st then ret st else and_then (exec s st) (block b')
      end in
  match s with
  | Import m => eval_in st [m]
  | Magic l => eval_in st [l]
  | Expr calls => eval_in st calls
  | Assert calls =>
      and_then (eval_in st calls)
               (fun st' => if truth (env st') then ret st'
                           else fail AssertionError)
  | For calls body =>
      and_then (eval_in st calls)
               (fun st' => iterate (iterations (env st')) (block body) st')
  | If calls body orelse =>
      and_then (eval_in st calls)
               (fun st' => if truth (env st') then block body st'
                           else block orelse st')
  | Def name body =>
      let f := fun e => and_then (block body (mkState e (defs st) false))
                                 (fun st' => ret (env st')) in
      ret (mkState (env st) ((name, f) :: defs st) (returned st))
  | Return calls =>
      and_then (eval_in st calls)
               (fun st' => ret (mkState (env st') (defs st') true))
  | Try body handler =>
      let r := block body st in
      match out r with
      | Ok _ => r
      | Raise _ =>
          let r' := block handler st in
          mkResult (out r') (raised r ++ raised r')
      end
  end.

(** The statements of a block, top to bottom. *)
Fixpoint exec_block (b : list stmt) (st : state) {struct b} : result state :=
  match b with
  | [] => ret st
  | s :: b' =>
      if returned st then ret st else and_then (exec s st) (exec_block b')
  end.

(** The runner: the cells top to bottom on the same state. *)
Fixpoint run (cells : list cell) (st : state) : result state :=
  match cells with
  | [] => ret st
  | c :: rest =>
      and_then (exec_block c (mkState (env st) (defs st) false)) (run rest)
  end.

Definition start (e : Env) : state := mkState e [] false.

End Interpreter.

Arguments env {Env} s.
Arguments defs {Env} s.
Arguments returned {Env} s.
Arguments mkState {Env} env defs returned.
Arguments start {Env} e.

(** Nothing was handled: a run that ends normally raised nothing, and a
    run that ends with an exception raised that exception and no other. *)
Definition unhandled {A : Type} (r : result A) : Prop :=
  match out r with
  | Ok _ => raised r = []
  | Raise e => raised r = [e]
  end.

(** Induction on statements, with the property for every statement of the
    blocks below. *)
Section Induction.
Variable P : stmt -> Prop.
Hypothesis P_Import : forall m, P (Import m).
Hypothesis P_Magic : forall l, P (Magic l).
Hypothesis P_Expr : forall calls, P (Expr calls).
Hypothesis P_Assert : forall calls, P (Assert calls).
Hypothesis P_For : forall calls body, Forall P body -> P (For calls body).
Hypothesis P_If : forall calls body orelse,
  Forall P body -> Forall P orelse -> P (If calls body orelse).
Hypothesis P_Def : forall name body, Forall P body -> P (Def name body).
Hypothesis P_Return : forall calls, P (Return calls).
Hypothesis P_Try : forall body handler,
  Forall P body -> Forall P handler -> P (Try body handler).

Fixpoint stmt_induction (s : stmt) : P s :=
  let all :=
    fix all (b : list stmt) : Forall P b :=
      match b with
      | [] => Forall_nil P
      | s' :: b' => Forall_cons s' (stmt_induction s') (all b')
      end in
  match s with
  | Import m => P_Import m
  | Magic l => P_Magic l
  | Expr calls => P_Expr calls
  | Assert calls => P_Assert calls
  | For calls body => P_For calls body (all body)
  | If calls body orelse => P_If calls body orelse (all body) (all orelse)
  | Def name body => P_Def name body (all body)
  | Return calls => P_Return calls
  | Try body handler => P_Try body handler (all body) (all handler)
  end.

End Induction.

Section Soundness.
Variable Env : Type.

(** The functions defined so far handle nothing. *)
Definition sound (fs : list (string * closure Env)) : Prop :=
  Forall (fun f => forall e, unhandled (snd f e)) fs.

(** What running a piece of code keeps: nothing handled, and the functions
    it leaves defined handle nothing. *)
Definition keeps (f : state Env -> result (state Env)) : Prop :=
  forall st, sound (defs st) ->
    unhandled (f st) /\
    forall st', out (f st) = Ok st' -> sound (defs st').

End Soundness.

Arguments sound {Env} fs.
Arguments keeps {Env} f.

End Python.

(** ** The code cells of the two notebook files *)

Module Notebooks.
Import Python.
Local Open Scope string_scope.

(** [10_Discrete_Optimization_and_Unsupervised_Learning-qiskit.ipynb]:
    the code cells in order, a statement per source line; a line without
    a call is [Expr []], and the comprehension of Exercise 4, whose
    element calls [np.exp], is the loop it stands for. *)
Definition discrete_optimization : list cell :=
  [ (* the dataset *)
    [ Import "numpy";
      Import "matplotlib.pyplot";
      Import "mpl_toolkits.mplot3d";
      Magic "matplotlib inline";
      Expr [];
      Expr ["np.random.rand"];
      Expr ["np.random.rand"];
      Expr ["np.concatenate"];
      Expr [];
      Expr ["plt.figure"];
      Expr ["fig.add_subplot"];
      Expr ["ax.scatter"] ];
    (* the distance matrix *)
    [ Import "itertools";
      Expr ["np.zeros"];
      For ["range"; "itertools.product"]
          [ Expr ["np.linalg.norm"] ] ];
    [ Import "qiskit.aqua";
      Import "qiskit.aqua.algorithms";
      Import "qiskit.aqua.components.optimizers";
      Import "qiskit.aqua.translators.ising" ];
    [ Expr ["max_cut.get_max_cut_qubitops"];
      Expr [];
      Expr ["COBYLA"];
      Expr ["QAOA"] ];
    (* the cell that calls qaoa.run *)
    [ Expr ["get_aer_backend"];
      Expr ["QuantumInstance"];
      Expr ["qaoa.run"];
      Expr ["max_cut.sample_most_likely"];
      Expr ["max_cut.get_graph_solution"];
      Expr ["print"];
      Expr ["print"];
      Expr ["max_cut.get_graph_solution"; "print"];
      Expr ["max_cut.max_cut_value"; "print"] ];
    (* the annealing cell *)
    [ Import "dimod";
      Expr [];
      For ["range"]
          [ Expr [];
            For ["range"] [ Expr [] ] ];
      Expr ["dimod.BinaryQuadraticModel"];
      Expr ["dimod.SimulatedAnnealingSampler"];
      Expr ["sampler.sample"];
      Expr ["print"];
      For ["response.data"] [ Expr ["print"] ] ];
    [ Magic "run -i assignment_helper.py";
      Magic "matplotlib inline" ];
    (* Exercise 1 and its grading cell *)
    [ Expr [];
      Expr ["range"];
      Expr [];
      Expr ["dimod.BinaryQuadraticModel"] ];
    [ Assert ["isinstance"];
      Assert [];
      Assert ["len"];
      Assert [];
      Assert ["model.linear.values"];
      Assert [];
      Assert ["model.quadratic.values"] ];
    (* Exercise 2 and its grading cell *)
    [ Import "networkx";
      Expr ["networkx.Graph"];
      Expr ["G.add_nodes_from"];
      Expr ["G.add_edges_from"] ];
    [ Assert ["list"];
      Assert ["list"] ];
    [ Expr ["networkx.draw"] ];
    (* Exercise 3 and its grading cell *)
    [ Expr ["dwave_networkx.chimera_graph"];
      Expr ["G.edges"; "connectivity_structure.edges";
            "minorminer.find_embedding"] ];
    [ Assert ["isinstance"];
      Assert ["len"] ];
    [ Expr ["dwave_networkx.draw_chimera_embedding"] ];
    (* Exercise 4 and its grading cell, which holds comments only *)
    [ Expr [];
      Expr ["dimod.SimulatedAnnealingSampler"];
      Expr ["sampler.sample"];
      Expr [];
      For ["response.aggregate"; "data"]
          [ If ["degen.keys"] [ Expr [] ] [ Expr [] ] ];
      For ["degen.keys"] [ Expr ["np.exp"] ]; Expr ["np.array"];
      Expr ["probabilities.sum"] ];
    [ ];
    (* the Bell pair *)
    [ Import "qiskit";
      Import "qiskit";
      Import "qiskit";
      Import "qiskit.tools.visualization";
      Expr ["QuantumRegister"];
      Expr ["ClassicalRegister"];
      Expr ["QuantumCircuit"];
      Expr ["circuit.h"];
      Expr ["circuit.cx"];
      Expr ["circuit_drawer"] ];
    [ Expr ["circuit.measure"];
      Expr ["circuit_drawer"] ];
    [ Expr ["Aer.get_backend"];
      Expr ["execute"];
      Expr ["job.result"; "get_counts"; "plot_histogram"] ];
    [ Import "qiskit.compiler";
      Expr ["assemble"];
      Expr ["compiled_circuit.as_dict"] ] ].

(** The grading cell of the matrix-inversion exercises. *)
Definition grading : cell :=
  [ Expr ["get_amplitudes"];
    Assert ["np.array"; "np.allclose"] ].

(** [14_Quantum_Matrix_Inversion.ipynb]: the code cells in order. *)
Definition matrix_inversion : list cell :=
  [ [ Magic "run -i assignment_helper.py";
      Magic "matplotlib inline" ];
    (* Exercises 1 to 5, each followed by its grading cell *)
    [ Expr ["QuantumRegister"];
      Expr ["ClassicalRegister"];
      Expr ["QuantumCircuit"];
      Expr ["hhl.h"];
      Expr ["hhl.h"];
      Expr ["hhl.x"] ];
    grading;
    [ Expr ["hhl.cz"] ];
    grading;
    [ Expr ["hhl.swap"];
      Expr ["hhl.h"];
      Expr ["hhl.cu1"];
      Expr ["hhl.h"] ];
    grading;
    [ Expr ["hhl.swap"];
      Expr ["hhl.cu3"];
      Expr ["hhl.cu3"] ];
    grading;
    [ Expr ["hhl.swap"];
      Expr ["hhl.h"];
      Expr ["hhl.cu1"];
      Expr ["hhl.h"];
      Expr ["hhl.swap"];
      Expr ["hhl.cz"];
      Expr ["hhl.h"];
      Expr ["hhl.h"] ];
    [ Expr [] ];
    grading;
    (* the measurement, and an empty cell *)
    [ Import "qiskit";
      Expr ["hhl.measure"];
      Expr ["BasicAer.get_backend"];
      Expr ["execute"; "result"];
      Expr ["result.get_counts"];
      Expr ["print"] ];
    [ ];
    (* unitary evolution *)
    [ Import "numpy";
      Expr ["np.array"];
      Expr ["print"];
      Expr ["X.T.conj"; "print"];
      Expr ["print"];
      Expr ["X.T.conj"; "print"] ];
    [ Expr ["np.array"];
      Expr ["print"];
      Expr ["np.linalg.norm"; "print"];
      Expr ["print"];
      Expr ["np.linalg.norm"; "print"] ];
    [ Import "numpy";
      Import "qiskit";
      Import "qiskit";
      Import "qiskit";
      Import "qiskit.tools.visualization";
      Expr ["np.set_printoptions"];
      Expr ["Aer.get_backend"];
      Expr ["QuantumRegister"];
      Expr ["ClassicalRegister"];
      Expr ["QuantumCircuit"];
      Expr ["circuit.x"];
      Expr ["circuit.x"];
      Expr ["execute"];
      Expr ["job.result"; "get_statevector"; "print"] ];
    (* open systems *)
    [ Def "mixed_state"
          [ Expr ["pure_state.T.conj"];
            Expr ["np.eye"];
            Return [] ];
      Expr ["np.array"; "np.sqrt"];
      Expr ["print"];
      Expr ["mixed_state"; "print"];
      Expr ["print"];
      Expr ["mixed_state"; "print"];
      Expr ["print"];
      Expr ["mixed_state"; "print"];
      Expr ["print"];
      Expr ["mixed_state"; "print"] ];
    (* the Boltzmann curves *)
    [ Import "matplotlib.pyplot";
      Expr [];
      Expr ["np.linspace"];
      Expr ["plt.subplots"];
      For ["enumerate"]
          [ Expr ["np.exp"];
            Expr ["probabilities.sum"];
            Expr [];
            Expr ["str"; "ax.plot"] ];
      Expr ["ax.set_xlim"];
      Expr ["probabilities.max"; "ax.set_ylim"];
      Expr ["ax.set_xticks"];
      Expr ["ax.set_yticks"];
      Expr ["ax.set_xlabel"];
      Expr ["ax.set_ylabel"];
      Expr ["ax.legend"] ] ].

End Notebooks.

(** ** What [np.random.rand] can return *)

Module random.

(** What [np.random.rand(rows, cols)] can return: an array of that shape
    with entries in the half-open interval [0, 1). *)
Definition rand (rows cols : nat) (u : np.matrix) : Prop :=
  np.shape u rows cols /\ Forall (Forall (fun v => 0 <= v < 1)) u.

End random.

(** ** The annealing cell for any number of instances *)

Module MaxCut.
Import Runner builtins dimod.

(** [model = dimod.BinaryQuadraticModel(h, J, 0.0, dimod.SPIN)] on the
    dictionaries the loops fill for [n] instances. *)
Definition model (n : nat) (w : np.matrix) : outcome BinaryQuadraticModel :=
  new_model (snd (Clustering.couplings n w)) (fst (Clustering.couplings n w))
            0 SPIN.

(** Sum over [i < j] of [w[i,j] * sigma_i * sigma_j], the total weight and
    the weight of the cut, over [n] instances. *)
Definition coupling_energy (n : nat) (w : np.matrix) (sigma : sample) : R :=
  np.sum (map (fun e => np.get w (fst e) (snd e)
                        * value sigma (fst e) * value sigma (snd e))
              (Clustering.edges n)).

Definition total_weight (n : nat) (w : np.matrix) : R :=
  np.sum (map (fun e => np.get w (fst e) (snd e)) (Clustering.edges n)).

Definition cut_weight (n : nat) (w : np.matrix) (sigma : sample) : R :=
  np.sum (map (fun e => if (nth (fst e) sigma 0 =? nth (snd e) sigma 0)%Z
                        then 0 else np.get w (fst e) (snd e))
              (Clustering.edges n)).

End MaxCut.

(** ** networkx graphs *)

Module networkx.
Import dimod.

(** An undirected graph: the adjacency dictionary, each node with its
    neighbours in insertion order.  The nodes are its keys. *)
Definition Graph : Type := dict nat (list nat).

(** [networkx.Graph()] *)
Definition empty : Graph := [].

Definition mem (n : nat) (l : list nat) : bool := existsb (Nat.eqb n) l.

(** [G[u]], empty for a node the graph does not have. *)
Definition neighbors (G : Graph) (u : nat) : list nat :=
  match lookup Nat.eqb G u with
  | Some l => l
  | None => []
  end.

(** [G.add_node(n)]: a known node is left as it is. *)
Definition add_node (G : Graph) (n : nat) : Graph :=
  match lookup Nat.eqb G n with
  | Some _ => G
  | None => setitem Nat.eqb G n []
  end.

Definition add_nodes_from (G : Graph) (ns : list nat) : Graph :=
  fold_left add_node ns G.

(** [G._adj[u][v] = {}] *)
Definition link (G : Graph) (u v : nat) : Graph :=
  if mem v (neighbors G u) then G
  else setitem Nat.eqb G u (neighbors G u ++ [v]).

(** [G.add_edge(u, v)]: both ends become nodes and neighbours of each
    other. *)
Definition add_edge (G : Graph) (e : nat * nat) : Graph :=
  link (link (add_node (add_node G (fst e)) (snd e)) (fst e) (snd e))
       (snd e) (fst e).

Definition add_edges_from (G : Graph) (es : list (nat * nat)) : Graph :=
  fold_left add_edge es G.

(** [list(G.nodes)] *)
Definition nodes (G : Graph) : list nat := map fst G.

(** [list(G.edges)]: every node in turn with its neighbours that were not
    visited before it. *)
Definition edges (G : Graph) : list (nat * nat) :=
  fst (fold_left
         (fun acc n =>
            (fst acc ++ map (pair n)
                            (filter (fun nbr => negb (mem nbr (snd acc)))
                                    (neighbors G n)),
             snd acc ++ [n]))
         (nodes G) ([], [])).

(** [G.has_edge(u, v)] *)
Definition has_edge (G : Graph) (u v : nat) : bool := mem v (neighbors G u).

End networkx.

(** ** Exercise 2 of the Markov-network notebook *)

Module MarkovGraph.
Import Runner dimod MarkovNetwork.

(** Exercise 2: the graph of a model, from its variables and its
    interactions. *)
Definition G (model : BinaryQuadraticModel) : networkx.Graph :=
  networkx.add_edges_from
    (networkx.add_nodes_from networkx.empty (map fst (linear model)))
    (map fst (quadratic model)).

(** The grading cell of Exercise 2. *)
Definition exercise2_check (G : networkx.Graph) : outcome unit :=
  _ <- assert (list_eqb Nat.eqb (networkx.nodes G) [0; 1; 2; 3]%nat) ;;
  assert (list_eqb edge_eqb (networkx.edges G) [(0, 1); (1, 2)]%nat).

End MarkovGraph.

(** ** Exercise 4 of the Markov-network notebook *)

Module PartitionEstimate.
Import dimod MarkovNetwork.

Definition temperature : R := 1.

(** One turn of the loop over [response.aggregate().data()] on the table
    [d] built so far: the count of the solution's energy goes up by one,
    starting from 1. *)
Definition count (d : dict R nat) (E : R) : dict R nat :=
  match lookup R_eqb d E with
  | Some k => setitem R_eqb d E (k + 1)%nat
  | None => setitem R_eqb d E 1%nat
  end.

Definition degen (energies : list R) : dict R nat :=
  fold_left count energies [].

(** [degen[E] * np.exp(-E/temperature) for E in degen.keys()]; every [E]
    the comprehension looks up is a key. *)
Definition probabilities (energies : list R) : list R :=
  let d := degen energies in
  map (fun E => match lookup R_eqb d E with
                | Some k => INR k * exp (- E / temperature)
                | None => 0
                end)
      (map fst d).

Definition Z (energies : list R) : R := np.sum (probabilities energies).

(** The estimate for a model and the distinct samples of a response. *)
Definition estimate (m : BinaryQuadraticModel) (samples : list sample) : R :=
  Z (map (energy m) samples).

(** The sixteen configurations of four binary variables. *)
Definition configurations : list sample :=
  flat_map (fun a => flat_map (fun b => flat_map (fun c =>
    map (fun d => [a; b; c; d]) [0; 1]%Z) [0; 1]%Z) [0; 1]%Z) [0; 1]%Z.

End PartitionEstimate.

(** ** The total probability of a register state *)

Module Register.

(** The sum of the squared moduli of the amplitudes: the probability that
    a measurement of every qubit shows some outcome. *)
Definition total (s : QC.statevector) : R :=
  np.sum (map Amplitude.Cnorm2 s).

End Register.

(** ** numpy arrays of complex numbers *)

Module cnp.
Import Amplitude.

Definition array : Type := list (list C).

Definition Cconj (a : C) : C := (fst a, - snd a).

Definition sum (l : list C) : C := fold_right Cplus C0 l.

(** [m.T] for a 2-D array with at least one column. *)
Definition T (m : array) : array :=
  match m with
  | [] => []
  | row :: _ => map (fun j => map (fun r => nth j r C0) m) (seq 0 (length row))
  end.

(** [m.conj()] *)
Definition conj (m : array) : array := map (map Cconj) m.

Definition dot (r c : list C) : C :=
  sum (map (fun p => Cmult (fst p) (snd p)) (combine r c)).

(** [a @ b] for conforming shapes. *)
Definition matmul (a b : array) : array :=
  map (fun row => map (dot row) (T b)) a.

(** [np.eye(n)] *)
Definition eye (n : nat) : array :=
  map (fun i => map (fun j => if (i =? j)%nat then C1 else C0) (seq 0 n))
      (seq 0 n).

(** A real scalar times an array, and an array divided by a real scalar. *)
Definition scale (r : R) (m : array) : array := map (map (Cscale r)) m.

(** Elementwise sum of two arrays of the same shape. *)
Definition add (a b : array) : array :=
  map (fun p => map (fun q => Cplus (fst q) (snd q)) (combine (fst p) (snd p)))
      (combine a b).

Definition get (m : array) (i j : nat) : C := nth j (nth i m []) C0.

(** [np.linalg.norm(m)]: the square root of the sum of the squared moduli
    of all entries. *)
Definition norm (m : array) : R := sqrt (np.sum (map Cnorm2 (concat m))).

(** A real array read as a complex one. *)
Definition of_real (m : np.matrix) : array := map (map RtoC) m.

(** A column vector: the array of shape [(n, 1)] with the given entries. *)
Definition column (v : list C) : array := map (fun a => [a]) v.

(** [np.trace(m)] *)
Definition trace (m : array) : C :=
  sum (map (fun i => get m i i) (seq 0 (length m))).

(** [m.shape] for a 2-D array: the rows, and the entries of a row. *)
Definition shape (m : array) : nat * nat :=
  (length m, match m with [] => 0%nat | row :: _ => length row end).

(** numpy's broadcasting along one axis: two sizes go together when they
    are equal or one of them is 1, and give the other. *)
Definition broadcast_axis (a b : nat) : option nat :=
  if (a =? b)%nat then Some a
  else if (a =? 1)%nat then Some b
  else if (b =? 1)%nat then Some a
  else None.

(** The array stretched along its axes of size 1. *)
Definition broadcast_to (rows cols : nat) (m : array) : array :=
  map (fun i =>
         map (fun j => get m (if (fst (shape m) =? 1)%nat then 0%nat else i)
                             (if (snd (shape m) =? 1)%nat then 0%nat else j))
             (seq 0 cols))
      (seq 0 rows).

(** [a + b]: the shapes are broadcast together, or [ValueError] is
    raised. *)
Definition plus (a b : array) : Runner.outcome array :=
  match broadcast_axis (fst (shape a)) (fst (shape b)),
        broadcast_axis (snd (shape a)) (snd (shape b)) with
  | Some rows, Some cols =>
      Runner.Ok (add (broadcast_to rows cols a) (broadcast_to rows cols b))
  | _, _ => Runner.Raise Runner.ValueError
  end.

End cnp.

(** ** Notebook: open systems (the mixed state) *)


(** ** Notebook: open systems (the mixed state) *)

Module OpenSystem.
Import Amplitude Runner.

(** [mixed_state(pure_state, visibility)], for a [pure_state] with at
    least one column: the last line is numpy's sum with broadcasting. *)
Definition mixed_state (pure_state : cnp.array) (visibility : R)
  : outcome cnp.array :=
  let density_matrix :=
    cnp.matmul pure_state (cnp.conj (cnp.T pure_state)) in
  let maximally_mixed_state := cnp.scale (/ 2 ^ 2) (cnp.eye 4) in
  cnp.plus (cnp.scale visibility density_matrix)
           (cnp.scale (1 - visibility) maximally_mixed_state).

(** The quadratic form [x.T.conj() @ m @ x] of a matrix on a column. *)
Definition expectation (m : cnp.array) (x : list C) : C :=
  cnp.get (cnp.matmul (cnp.matmul (cnp.conj (cnp.T (cnp.column x))) m)
                      (cnp.column x)) 0 0.

End OpenSystem.

(** * Facts about the arrays of the clustering notebook *)

Module ArrayFacts.

Section Update.
Context {A : Type}.

Lemma length_update (l : list A) k v : length (np.update l k v) = length l.
Proof.
  revert k. induction l as [|a l IH]; intros [|k]; simpl; auto.
Qed.

Lemma nth_update (l : list A) k v d i :
  nth i (np.update l k v) d
  = if ((i =? k) && (k <? length l))%nat then v else nth i l d.
Proof.
  revert k i. induction l as [|a l IH]; intros k i.
  - simpl. rewrite andb_false_r. now destruct k.
  - destruct k as [|k], i as [|i]; simpl; try reflexivity.
    rewrite IH. reflexivity.
Qed.

Lemma Forall_update (P : A -> Prop) (l : list A) k v :
  Forall P l -> ((k < length l)%nat -> P v) -> Forall P (np.update l k v).
Proof.
  intros HF. revert k. induction HF as [|a l Ha HF IH]; intros k Hv.
  - destruct k; constructor.
  - destruct k as [|k]; simpl.
    + constructor; [apply Hv; simpl; lia | assumption].
    + constructor; [assumption | apply IH; intros Hk; apply Hv; simpl; lia].
Qed.

End Update.

Lemma shape_row w n m i :
  np.shape w n m -> (i < n)%nat -> length (nth i w []) = m.
Proof.
  intros [Hn Hrows] Hi. rewrite Forall_forall in Hrows.
  apply Hrows, nth_In. lia.
Qed.

Lemma shape_zeros n m : np.shape (np.zeros n m) n m.
Proof.
  split; unfold np.zeros.
  - apply repeat_length.
  - apply Forall_forall. intros row Hrow.
    apply repeat_spec in Hrow. subst. apply repeat_length.
Qed.

Lemma shape_set w n m i j v : np.shape w n m -> np.shape (np.set w i j v) n m.
Proof.
  intros Hw. pose proof Hw as [Hn Hrows]. unfold np.set. split.
  - now rewrite length_update.
  - apply Forall_update; [assumption |].
    intros Hi. rewrite length_update.
    apply (shape_row w n m); [assumption | lia].
Qed.

Lemma get_set w n m i j v i' j' :
  np.shape w n m -> (i < n)%nat -> (j < m)%nat ->
  np.get (np.set w i j v) i' j'
  = if dimod.edge_eqb (i', j') (i, j) then v else np.get w i' j'.
Proof.
  intros Hw Hi Hj. unfold np.get, np.set, dimod.edge_eqb. simpl.
  rewrite nth_update. destruct Hw as [Hn Hrows].
  assert (Hlt : (i <? length w)%nat = true) by (apply Nat.ltb_lt; lia).
  rewrite Hlt, andb_true_r.
  destruct (Nat.eqb_spec i' i) as [-> | Hne]; simpl; [| reflexivity].
  rewrite nth_update.
  rewrite (shape_row w n m i) by (try split; assumption).
  assert (Hltj : (j <? m)%nat = true) by (apply Nat.ltb_lt; lia).
  now rewrite Hltj, andb_true_r.
Qed.

(** A loop of in-range assignments [w[i, j] = f i j] leaves [f i j] at
    every assigned index and the old content elsewhere. *)
Lemma get_fold_set (f : nat -> nat -> R) n m (l : list (nat * nat)) :
  forall w, np.shape w n m ->
  Forall (fun p => (fst p < n)%nat /\ (snd p < m)%nat) l ->
  forall i j,
    np.get (fold_left
              (fun w p => np.set w (fst p) (snd p) (f (fst p) (snd p))) l w)
           i j
    = if existsb (fun p => dimod.edge_eqb (i, j) p) l
      then f i j else np.get w i j.
Proof.
  induction l as [|p l IH]; intros w Hw Hl i j; [reflexivity |].
  inversion Hl as [| ? ? [Hp1 Hp2] Hl']; subst. cbn [fold_left existsb].
  rewrite IH by (auto using shape_set).
  rewrite (get_set w n m) by assumption.
  destruct (existsb _ l); [now rewrite orb_true_r |].
  rewrite orb_false_r. destruct p as [a b]; cbn [fst snd].
  destruct (dimod.edge_eqb (i, j) (a, b)) eqn:He; [| reflexivity].
  unfold dimod.edge_eqb in He. cbn [fst snd] in He.
  apply andb_true_iff in He as [Ha Hb].
  apply Nat.eqb_eq in Ha, Hb. now subst.
Qed.

Lemma sub_squares_sym a : forall b,
  map (fun c => c * c) (np.sub a b) = map (fun c => c * c) (np.sub b a).
Proof.
  induction a as [|u a IH]; intros [|v b]; try reflexivity.
  unfold np.sub in *. cbn [combine map fst snd]. f_equal; [ring | apply IH].
Qed.

Lemma sub_squares_self a : np.sum (map (fun c => c * c) (np.sub a a)) = 0.
Proof.
  induction a as [|u a IH]; [reflexivity |].
  unfold np.sub in *. cbn [combine map fst snd np.sum fold_right].
  unfold np.sum in IH. rewrite IH. ring.
Qed.

Import Clustering builtins.

Lemma distance_sym data i j : distance data i j = distance data j i.
Proof.
  unfold distance, np.norm. now rewrite sub_squares_sym.
Qed.

Lemma distance_self data i : distance data i i = 0.
Proof.
  unfold distance, np.norm. rewrite sub_squares_self. apply sqrt_0.
Qed.

Lemma pairwise_distances_get n data i j :
  (i < n)%nat -> (j < n)%nat ->
  np.get (pairwise_distances n data) i j = distance data i j.
Proof.
  intros Hi Hj. unfold pairwise_distances.
  rewrite (get_fold_set (distance data) n n).
  - assert (Hin : existsb (fun p => dimod.edge_eqb (i, j) p)
                          (product (range 0 n) (range 0 n)) = true).
    { apply existsb_exists. exists (i, j). split.
      - unfold product, range. apply in_prod; apply in_seq; lia.
      - unfold dimod.edge_eqb. cbn [fst snd]. now rewrite !Nat.eqb_refl. }
    now rewrite Hin.
  - apply shape_zeros.
  - apply Forall_forall. intros [a b] Hab. unfold product, range in Hab.
    apply in_prod_iff in Hab as [Ha Hb]. apply in_seq in Ha, Hb.
    cbn [fst snd]. lia.
Qed.

(** C5: after the loop of the second cell, [w[i, j]] is the Euclidean norm
    of [data[i] - data[j]] for every pair of indices below [n_instances],
    for any data array with [n_instances] rows; hence [w] is symmetric and
    its diagonal is zero. *)
Theorem C5_pairwise_distance_matrix :
  forall (data : np.matrix) (d : nat),
    np.shape data n_instances d ->
    np.shape (w data) n_instances n_instances /\
    forall i j, (i < n_instances)%nat -> (j < n_instances)%nat ->
      np.get (w data) i j = np.norm (np.sub (nth i data []) (nth j data [])) /\
      np.get (w data) i j = np.get (w data) j i /\
      np.get (w data) i i = 0.
Proof.
  intros data d _. split.
  - unfold w, pairwise_distances.
    generalize (product (range 0 n_instances) (range 0 n_instances)).
    intros l. generalize (shape_zeros n_instances n_instances).
    generalize (np.zeros n_instances n_instances).
    induction l as [|p l IH]; intros w0 Hw0; [exact Hw0 |].
    cbn [fold_left]. apply IH. now apply shape_set.
  - intros i j Hi Hj. unfold w.
    rewrite !pairwise_distances_get by assumption.
    split; [reflexivity |]. split; [apply distance_sym | apply distance_self].
Qed.

(** A dataset drawn as in the first cell, and an entry of its matrix. *)
Lemma C5_pairwise_distance_matrix_witness :
  let ds := data [[0; 0; 0]; [0.5; 0.5; 0.5]] [[0; 0; 0]; [0.5; 0.5; 0.5]] in
  np.shape ds n_instances 3 /\
  np.get (w ds) 0 1 = np.get (w ds) 1 0 /\ np.get (w ds) 2 2 = 0.
Proof.
  intros ds.
  assert (Hs : np.shape ds n_instances 3).
  { split; [reflexivity |]. repeat constructor. }
  split; [exact Hs |].
  destruct (C5_pairwise_distance_matrix ds 3 Hs) as [_ H].
  destruct (H 0%nat 1%nat) as (_ & Hsym & _); [unfold n_instances; lia .. |].
  destruct (H 2%nat 2%nat) as (_ & _ & Hdiag); [unfold n_instances; lia .. |].
  split; assumption.
Defined.

End ArrayFacts.

(** * Facts about the circuits *)

Module CircuitFacts.
Import Amplitude Runner.

Lemma inv_sqrt2_sqr : / sqrt 2 * / sqrt 2 = / 2.
Proof.
  rewrite <- Rinv_mult, sqrt_sqrt by lra. reflexivity.
Qed.

Lemma run_cons g gs s : QC.run (g :: gs) s = QC.run gs (QC.apply_gate g s).
Proof. reflexivity. Qed.

Lemma run_app gs1 gs2 s : QC.run (gs1 ++ gs2) s = QC.run gs2 (QC.run gs1 s).
Proof. apply fold_left_app. Qed.

Lemma apply_gate_length g s : length (QC.apply_gate g s) = length s.
Proof.
  destruct g; cbn [QC.apply_gate];
    unfold QC.apply_1q, QC.apply_controlled, QC.tabulate;
    now rewrite length_map, length_seq.
Qed.

Lemma run_length gs s : length (QC.run gs s) = length s.
Proof.
  revert s. induction gs as [|g gs IH]; intros s; [reflexivity |].
  rewrite run_cons, IH. apply apply_gate_length.
Qed.

Lemma append_all gs c :
  fold_left QC.append gs c = QC.mkCircuit (QC.n_qubits c) (QC.data c ++ gs).
Proof.
  revert c. induction gs as [|g gs IH]; intros [n d]; simpl.
  - now rewrite app_nil_r.
  - rewrite IH. simpl. now rewrite <- app_assoc.
Qed.

(** Evaluate the list structure of a state and leave the real arithmetic. *)
Ltac eval_state :=
  cbv -[Rplus Rmult Rminus Ropp Rinv Rdiv sqrt IZR cos sin PI].

Ltac split_state :=
  repeat match goal with
         | |- cons _ _ = cons _ _ => f_equal
         | |- pair _ _ = pair _ _ => f_equal
         end.

Ltac solve_amp :=
  try reflexivity;
  rewrite ?Rplus_0_l, ?cos_0, ?sin_0;
  try ring;
  let q := fresh "q" in
  let Hq := fresh "Hq" in
  let Hq2 := fresh "Hq" in
  generalize inv_sqrt2_sqr; generalize (/ sqrt 2); intros q Hq;
  assert (Hq2 : q ^ 2 = / 2) by (rewrite <- Hq; ring);
  ring_simplify; rewrite ?Hq2; try field; try lra.

Ltac gate_eq := eval_state; split_state; solve_amp.

(** Replace the effect of the next gate by the state [s']. *)
Ltac step s' :=
  rewrite run_cons;
  match goal with
  | |- context [QC.apply_gate ?g ?s] =>
      replace (QC.apply_gate g s) with s' by (symmetry; gate_eq)
  end.

Import MatrixInversion.

Lemma state_exercise1 :
  QC.run exercise1_gates (QC.zero_state 4) = exercise1_expected.
Proof.
  unfold exercise1_gates.
  set (r := RtoC (/ sqrt 2)). set (hf := RtoC (/ 2)).
  step (QC.ket 4 [(0, r); (2, r)]%nat).
  step (QC.ket 4 [(0, hf); (2, hf); (4, hf); (6, hf)]%nat).
  step (QC.ket 4 [(8, hf); (10, hf); (12, hf); (14, hf)]%nat).
  gate_eq.
Qed.

Lemma state_exercise2 :
  QC.run exercise2_gates exercise1_expected = exercise2_expected.
Proof.
  unfold exercise2_gates.
  step exercise2_expected. reflexivity.
Qed.

Lemma state_exercise3 :
  QC.run exercise3_gates exercise2_expected = exercise3_expected.
Proof.
  unfold exercise3_gates.
  set (r := / sqrt 2). set (hf := / 2).
  step (QC.ket 4 [(8, RtoC hf); (10, RtoC (- hf));
                  (12, RtoC hf); (14, RtoC (- hf))]%nat).
  step (QC.ket 4 [(8, RtoC r); (10, RtoC (- r))]%nat).
  step (QC.ket 4 [(8, RtoC r); (10, RtoC (- r))]%nat).
  step exercise3_expected.
  reflexivity.
Qed.

Lemma state_exercise4 :
  QC.run exercise4_gates exercise3_expected = rotated_state.
Proof.
  unfold exercise4_gates.
  step (QC.ket 4 [(12, C1)]%nat).
  step (QC.ket 4 [(12, C1)]%nat).
  step rotated_state.
  reflexivity.
Qed.

(** The uncompute gates on any state supported on basis indices 12 and
    13, followed gate by gate. *)
Lemma uncompute a b :
  QC.run exercise5_gates (QC.ket 4 [(12, a); (13, b)]%nat)
  = QC.ket 4 [(8, a); (9, b)]%nat.
Proof.
  destruct a as [a1 a2], b as [b1 b2]. unfold exercise5_gates.
  set (r := / sqrt 2).
  set (a := (a1, a2)). set (b := (b1, b2)).
  (* the amplitudes scaled by 1/sqrt 2 and by 1/2, with either sign *)
  set (ra := Cscale r a). set (rb := Cscale r b).
  set (ra' := Cscale (- r) a). set (rb' := Cscale (- r) b).
  set (ha := Cscale (/ 2) a). set (hb := Cscale (/ 2) b).
  set (ha' := Cscale (- / 2) a). set (hb' := Cscale (- / 2) b).
  (* swap(1, 2) *)
  step (QC.ket 4 [(10, a); (11, b)]%nat).
  (* h(1) *)
  step (QC.ket 4 [(8, ra); (9, rb); (10, ra'); (11, rb')]%nat).
  (* cu1(pi/2, 1, 2): qubit 2 is 0 wherever the state is not *)
  step (QC.ket 4 [(8, ra); (9, rb); (10, ra'); (11, rb')]%nat).
  (* h(2) *)
  step (QC.ket 4 [(8, ha); (9, hb); (10, ha'); (11, hb');
                  (12, ha); (13, hb); (14, ha'); (15, hb')]%nat).
  (* swap(1, 2) *)
  step (QC.ket 4 [(8, ha); (9, hb); (10, ha); (11, hb);
                  (12, ha'); (13, hb'); (14, ha'); (15, hb')]%nat).
  (* cz(2, 3) *)
  step (QC.ket 4 [(8, ha); (9, hb); (10, ha); (11, hb);
                  (12, ha); (13, hb); (14, ha); (15, hb)]%nat).
  (* h(1) *)
  step (QC.ket 4 [(8, ra); (9, rb); (12, ra); (13, rb)]%nat).
  (* h(2) *)
  step (QC.ket 4 [(8, a); (9, b)]%nat).
  reflexivity.
Qed.

Lemma cos_half_angle_bounds :
  0.99518085 <= cos half_angle <= 0.99518474.
Proof.
  unfold half_angle.
  destruct (pre_cos_bound (0.19634955 / 2) 0) as [Hlo Hhi]; try lra.
  unfold cos_approx, cos_term in Hlo, Hhi. simpl in Hlo, Hhi.
  split.
  - eapply Rle_trans; [| exact Hlo]. lra.
  - eapply Rle_trans; [exact Hhi |]. lra.
Qed.

Lemma sin_half_angle_bounds :
  0.09801706 <= sin half_angle <= 0.09801715.
Proof.
  unfold half_angle.
  destruct (pre_sin_bound (0.19634955 / 2) 0) as [Hlo Hhi]; try lra.
  unfold sin_approx, sin_term in Hlo, Hhi. simpl in Hlo, Hhi.
  split.
  - eapply Rle_trans; [| exact Hlo]. lra.
  - eapply Rle_trans; [exact Hhi |]. lra.
Qed.

Lemma Cabs_real r : Cabs (RtoC r) = Rabs r.
Proof.
  unfold Cabs, Cnorm2, RtoC; simpl.
  replace (r * r + 0 * 0) with (Rsqr r) by (unfold Rsqr; ring).
  apply sqrt_Rsqr_abs.
Qed.

Lemma isclose_real a b :
  Rabs (a - b) <= np.atol + np.rtol * Rabs b ->
  np.isclose (RtoC a) (RtoC b) = true.
Proof.
  intros Hab. unfold np.isclose.
  replace (Cminus (RtoC a) (RtoC b)) with (RtoC (a - b))
    by (unfold Cminus, RtoC; simpl; f_equal; ring).
  rewrite !Cabs_real.
  destruct (Rle_dec _ _) as [_ | Hn]; [reflexivity | contradiction].
Qed.

Lemma isclose_refl a : np.isclose a a = true.
Proof.
  unfold np.isclose.
  destruct (Rle_dec _ _) as [_ | Hn]; [reflexivity | exfalso; apply Hn].
  replace (Cminus a a) with C0
    by (destruct a; unfold Cminus, C0; simpl; f_equal; ring).
  unfold Cabs at 1, Cnorm2, C0; simpl.
  replace (0 * 0 + 0 * 0) with 0 by ring. rewrite sqrt_0.
  pose proof (sqrt_pos (Cnorm2 a)) as Hp. unfold Cabs, np.atol, np.rtol. nra.
Qed.

Lemma isclose_cos :
  np.isclose (RtoC (cos half_angle)) (RtoC 0.99518473) = true.
Proof.
  apply isclose_real. pose proof cos_half_angle_bounds as [Hlo Hhi].
  unfold np.atol, np.rtol.
  rewrite (Rabs_right 0.99518473) by lra.
  apply Rabs_le. lra.
Qed.

Lemma isclose_sin :
  np.isclose (RtoC (sin half_angle)) (RtoC 0.09801714) = true.
Proof.
  apply isclose_real. pose proof sin_half_angle_bounds as [Hlo Hhi].
  unfold np.atol, np.rtol.
  rewrite (Rabs_right 0.09801714) by lra.
  apply Rabs_le. lra.
Qed.

Lemma amp_ket n entries i :
  (i < 2 ^ n)%nat ->
  QC.amp (QC.ket n entries) i =
  match find (fun e => (fst e =? i)%nat) entries with
  | Some e => snd e
  | None => C0
  end.
Proof.
  intros Hi. unfold QC.amp, QC.ket.
  set (f := fun i0 : nat => _).
  rewrite (nth_indep _ C0 (f 0%nat)) by (now rewrite length_map, length_seq).
  rewrite map_nth, seq_nth by assumption. reflexivity.
Qed.

Lemma amp_ket_outside n entries i :
  (forall e, In e entries -> fst e <> i) -> QC.amp (QC.ket n entries) i = C0.
Proof.
  intros Hout. destruct (Nat.lt_ge_cases i (2 ^ n)) as [Hi | Hi].
  - rewrite amp_ket by assumption.
    destruct (find _ entries) as [e|] eqn:Hf; [| reflexivity].
    apply find_some in Hf as [Hin Heq]. apply Nat.eqb_eq in Heq.
    now apply Hout in Hin.
  - apply nth_overflow. unfold QC.ket. now rewrite length_map, length_seq.
Qed.

Lemma allclose_intro a b :
  Forall2 (fun u v => np.isclose u v = true) a b -> np.allclose a b = Ok true.
Proof.
  intros HF. unfold np.allclose.
  rewrite (Forall2_length HF), Nat.eqb_refl. f_equal.
  induction HF as [| u v a b Huv HF IH]; simpl; [reflexivity |].
  now rewrite Huv, IH.
Qed.

Lemma allclose_refl a : np.allclose a a = Ok true.
Proof.
  apply allclose_intro. induction a; constructor; auto using isclose_refl.
Qed.

Ltac close_entries :=
  repeat (constructor;
          [first [apply isclose_refl | apply isclose_cos
                 | apply isclose_sin] |]);
  constructor.

Lemma allclose_exercise4 :
  np.allclose rotated_state exercise4_expected = Ok true.
Proof.
  apply allclose_intro. unfold rotated_state, exercise4_expected.
  close_entries.
Qed.

Lemma allclose_exercise5 :
  np.allclose uncomputed_state exercise5_expected = Ok true.
Proof.
  apply allclose_intro. unfold uncomputed_state, exercise5_expected.
  close_entries.
Qed.

Lemma grade_passes c expected a :
  np.allclose (get_amplitudes c) expected = Ok true ->
  grade expected (mkNamespace (Some c) a)
  = Ok (mkNamespace (Some c) (Some (get_amplitudes c))).
Proof.
  intros Hclose. unfold grade. simpl. now rewrite Hclose.
Qed.

Lemma extend_hhl gs n d a :
  extend gs (mkNamespace (Some (QC.mkCircuit n d)) a)
  = Ok (mkNamespace (Some (QC.mkCircuit n (d ++ gs))) a).
Proof.
  unfold extend. simpl. now rewrite append_all.
Qed.

Lemma amplitudes_exercise1 :
  get_amplitudes (QC.mkCircuit register_size exercise1_gates)
  = exercise1_expected.
Proof. exact state_exercise1. Qed.

Lemma amplitudes_exercise2 :
  get_amplitudes
    (QC.mkCircuit register_size (exercise1_gates ++ exercise2_gates))
  = exercise2_expected.
Proof.
  unfold get_amplitudes, QC.final_state, register_size.
  cbn [QC.data QC.n_qubits].
  now rewrite run_app, state_exercise1, state_exercise2.
Qed.

Lemma amplitudes_exercise3 :
  get_amplitudes (QC.mkCircuit register_size
                    ((exercise1_gates ++ exercise2_gates) ++ exercise3_gates))
  = exercise3_expected.
Proof.
  unfold get_amplitudes, QC.final_state, register_size.
  cbn [QC.data QC.n_qubits].
  now rewrite !run_app, state_exercise1, state_exercise2, state_exercise3.
Qed.

Lemma amplitudes_exercise4 :
  get_amplitudes (QC.mkCircuit register_size
                    (((exercise1_gates ++ exercise2_gates) ++ exercise3_gates)
                       ++ exercise4_gates))
  = rotated_state.
Proof.
  unfold get_amplitudes, QC.final_state, register_size.
  cbn [QC.data QC.n_qubits].
  now rewrite !run_app, state_exercise1, state_exercise2, state_exercise3,
    state_exercise4.
Qed.

Lemma amplitudes_exercise5 :
  get_amplitudes (QC.mkCircuit register_size
                    ((((exercise1_gates ++ exercise2_gates) ++ exercise3_gates)
                        ++ exercise4_gates) ++ exercise5_gates))
  = uncomputed_state.
Proof.
  unfold get_amplitudes, QC.final_state, register_size.
  cbn [QC.data QC.n_qubits].
  rewrite !run_app, state_exercise1, state_exercise2, state_exercise3,
    state_exercise4.
  apply uncompute.
Qed.

Lemma app_assoc_all :
  all_gates
  = exercise1_gates ++ exercise2_gates ++ exercise3_gates
      ++ exercise4_gates ++ exercise5_gates.
Proof.
  unfold all_gates, rotation_gates. now rewrite <- !app_assoc.
Qed.

Lemma final_state_all_gates :
  QC.final_state (QC.mkCircuit 4 all_gates) = uncomputed_state.
Proof.
  unfold QC.final_state, all_gates, rotation_gates. cbn [QC.data QC.n_qubits].
  rewrite !run_app, state_exercise1, state_exercise2, state_exercise3,
    state_exercise4.
  apply uncompute.
Qed.

Lemma all_gates_assoc :
  (((exercise1_gates ++ exercise2_gates) ++ exercise3_gates)
     ++ exercise4_gates) ++ exercise5_gates = all_gates.
Proof. reflexivity. Qed.

Lemma notebook_run :
  run_cells cells fresh
  = Ok (mkNamespace (Some (QC.mkCircuit register_size all_gates))
                    (Some uncomputed_state)).
Proof.
  unfold cells, fresh.
  cbn [run_cells bind exercise1].
  rewrite append_all. cbn [QC.new_circuit QC.n_qubits QC.data app].
  change [QC.h 1; QC.h 2; QC.x 3] with exercise1_gates.
  rewrite grade_passes by (rewrite amplitudes_exercise1; apply allclose_refl).
  cbn [bind]. unfold exercise2. rewrite extend_hhl. cbn [bind].
  rewrite grade_passes by (rewrite amplitudes_exercise2; apply allclose_refl).
  cbn [bind]. unfold exercise3. rewrite extend_hhl. cbn [bind].
  rewrite grade_passes by (rewrite amplitudes_exercise3; apply allclose_refl).
  cbn [bind]. unfold exercise4. rewrite extend_hhl. cbn [bind].
  rewrite grade_passes
    by (rewrite amplitudes_exercise4; apply allclose_exercise4).
  cbn [bind]. unfold exercise5. rewrite extend_hhl. cbn [bind].
  unfold show_amplitudes at 1. cbn [amplitudes bind].
  rewrite grade_passes
    by (rewrite amplitudes_exercise5; apply allclose_exercise5).
  now rewrite amplitudes_exercise5, all_gates_assoc.
Qed.

Lemma uncomputed_state_amplitudes :
  QC.amp uncomputed_state 8 = RtoC (cos half_angle) /\
  QC.amp uncomputed_state 9 = RtoC (sin half_angle) /\
  forall i, i <> 8%nat -> i <> 9%nat -> QC.amp uncomputed_state i = C0.
Proof.
  repeat split; try reflexivity.
  intros i H8 H9. apply amp_ket_outside.
  intros e [<- | [<- | []]]; simpl; congruence.
Qed.

Lemma rotated_state_amplitudes :
  QC.amp rotated_state 12 = RtoC (cos half_angle) /\
  QC.amp rotated_state 13 = RtoC (sin half_angle) /\
  forall i, i <> 12%nat -> i <> 13%nat -> QC.amp rotated_state i = C0.
Proof.
  repeat split; try reflexivity.
  intros i H12 H13. apply amp_ket_outside.
  intros e [<- | [<- | []]]; simpl; congruence.
Qed.

(** The state the circuit ends in is a unit vector. *)
Lemma uncomputed_state_normalised :
  np.sum (map Cnorm2 uncomputed_state) = 1.
Proof.
  unfold uncomputed_state.
  cbn [QC.ket map seq Nat.pow Nat.mul Nat.add find fst snd Nat.eqb
       np.sum fold_right Cnorm2 RtoC C0].
  unfold Cnorm2, RtoC, C0. cbn [fst snd].
  pose proof (sin2_cos2 half_angle) as Hunit. unfold Rsqr in Hunit. lra.
Qed.

Lemma rotation_state : QC.run rotation_gates (QC.zero_state 4) = rotated_state.
Proof.
  unfold rotation_gates.
  now rewrite !run_app, state_exercise1, state_exercise2, state_exercise3,
    state_exercise4.
Qed.

(** C2 (as stated): the vector asserted after Exercise 1 is not a
    four-element vector starting [0.5, 0, 0.5, 0, ...]. *)
Lemma C2_asserted_vector_is_not_4_elements :
  ~ (length exercise1_expected = 4%nat /\
     firstn 8 exercise1_expected = map RtoC [0.5; 0; 0.5; 0; 0.5; 0; 0.5; 0]).
Proof.
  intros [Hlen _]. discriminate Hlen.
Qed.

(** C2 (amended): Exercise 1 leaves [hhl] with H on qubits 1 and 2 and X on
    qubit 3; its grading cell compares [get_amplitudes(hhl)] with a
    hardcoded vector by [np.allclose] and passes.  That vector has 16
    elements, one per basis state of the four qubits: zero at indices 0 to
    7 and [0.5, 0, 0.5, 0, 0.5, 0, 0.5, 0] at indices 8 to 15.  All five
    hardcoded vectors of the notebook have 16 elements. *)
Theorem C2_exercise1_asserted_vector :
  let c := QC.mkCircuit register_size exercise1_gates in
  run_cells [exercise1] fresh = Ok (mkNamespace (Some c) None) /\
  get_amplitudes c = exercise1_expected /\
  grade exercise1_expected (mkNamespace (Some c) None)
  = Ok (mkNamespace (Some c) (Some exercise1_expected)) /\
  length exercise1_expected = 16%nat /\
  firstn 8 exercise1_expected = repeat C0 8 /\
  skipn 8 exercise1_expected = map RtoC [0.5; 0; 0.5; 0; 0.5; 0; 0.5; 0] /\
  Forall (fun v => length v = 16%nat)
         [exercise1_expected; exercise2_expected; exercise3_expected;
          exercise4_expected; exercise5_expected].
Proof.
  intros c. repeat split.
  - exact amplitudes_exercise1.
  - unfold c.
    rewrite grade_passes by (rewrite amplitudes_exercise1; apply allclose_refl).
    now rewrite amplitudes_exercise1.
  - repeat constructor.
Qed.

(** C3: running the cells top to bottom succeeds (every grading assertion
    passes) and leaves [hhl] holding, on four qubits, the gates of
    Exercises 1 to 5 in the order of the cells.  Its statevector from
    [|0000>] is within [np.allclose]'s tolerance of 0.99518473 at index 8
    and of 0.09801714 at index 9, and is 0 at every other index, so the
    assertion of Exercise 5 holds. *)
Theorem C3_hhl_after_exercise5 :
  let c := QC.mkCircuit 4 (exercise1_gates ++ exercise2_gates ++ exercise3_gates
                           ++ exercise4_gates ++ exercise5_gates) in
  let s := QC.final_state c in
  run_cells cells fresh = Ok (mkNamespace (Some c) (Some s)) /\
  s = QC.run exercise5_gates
        (QC.run exercise4_gates
           (QC.run exercise3_gates
              (QC.run exercise2_gates
                 (QC.run exercise1_gates (QC.zero_state 4))))) /\
  length s = 16%nat /\
  np.isclose (QC.amp s 8) (RtoC 0.99518473) = true /\
  np.isclose (QC.amp s 9) (RtoC 0.09801714) = true /\
  (forall i, i <> 8%nat -> i <> 9%nat -> QC.amp s i = C0) /\
  np.allclose s exercise5_expected = Ok true.
Proof.
  intros c s.
  assert (Hs : s = uncomputed_state).
  { unfold s, c. rewrite <- app_assoc_all. apply final_state_all_gates. }
  rewrite Hs. destruct uncomputed_state_amplitudes as (H8 & H9 & Hrest).
  split; [rewrite notebook_run; reflexivity |].
  split.
  { rewrite state_exercise1, state_exercise2, state_exercise3, state_exercise4.
    symmetry. apply uncompute. }
  split; [reflexivity |].
  repeat split.
  - rewrite H8. apply isclose_cos.
  - rewrite H9. apply isclose_sin.
  - exact Hrest.
  - apply allclose_exercise5.
Qed.

(** C4: the circuit is a constant of the notebook: a register of exactly
    four qubits, every gate call addressing qubits 0 to 3; phase
    estimation and the controlled rotation (Exercises 1 to 4) take 11 gate
    calls, the uncompute step brings the circuit to 19, and these calls
    are what the cells leave in [hhl]. *)
Theorem C4_hhl_is_a_fixed_4_qubit_circuit :
  let c := QC.mkCircuit register_size all_gates in
  QC.n_qubits c = 4%nat /\
  QC.well_formed c = true /\
  Forall (fun g => Forall (fun q => (q < 4)%nat) (QC.qubits_of g)) all_gates /\
  length rotation_gates = 11%nat /\
  length all_gates = 19%nat /\
  (exists a, run_cells cells fresh = Ok (mkNamespace (Some c) a)).
Proof.
  intros c. repeat split.
  - unfold all_gates, rotation_gates, exercise1_gates, exercise2_gates,
      exercise3_gates, exercise4_gates, exercise5_gates. cbn [app QC.qubits_of].
    repeat (constructor; [repeat constructor |]). constructor.
  - eexists. apply notebook_run.
Qed.

(** C9: the uncompute step of Exercise 5 moves the amplitudes found at
    basis indices 12 and 13 to indices 8 and 9 unchanged, whatever they
    are, and leaves nothing elsewhere.  On the state reached after
    Exercise 4, whose only non-zero amplitudes are the ones asserted there
    (close to 0.99518473 and 0.09801714, at indices 12 and 13), the result
    has these same two amplitudes at indices 8 and 9, zero everywhere else,
    hence qubits 1 and 2 in [|0>] with qubits 0 and 3 as before. *)
Theorem C9_uncompute_returns_eigenvalue_register :
  let pre := QC.run rotation_gates (QC.zero_state 4) in
  let post := QC.run exercise5_gates pre in
  (forall a b, QC.run exercise5_gates (QC.ket 4 [(12, a); (13, b)]%nat)
               = QC.ket 4 [(8, a); (9, b)]%nat) /\
  np.isclose (QC.amp pre 12) (RtoC 0.99518473) = true /\
  np.isclose (QC.amp pre 13) (RtoC 0.09801714) = true /\
  (forall i, i <> 12%nat -> i <> 13%nat -> QC.amp pre i = C0) /\
  QC.amp post 8 = QC.amp pre 12 /\
  QC.amp post 9 = QC.amp pre 13 /\
  (forall i, i <> 8%nat -> i <> 9%nat -> QC.amp post i = C0) /\
  (forall i, QC.amp post i <> C0 ->
             QC.bit i 1 = false /\ QC.bit i 2 = false /\
             QC.bit i 3 = true /\ QC.amp post i = QC.amp pre (i + 4)).
Proof.
  intros pre post.
  assert (Hpre : pre = rotated_state) by apply rotation_state.
  assert (Hpost : post = uncomputed_state).
  { unfold post. rewrite Hpre. apply uncompute. }
  rewrite Hpre, Hpost.
  destruct rotated_state_amplitudes as (H12 & H13 & Hrest4).
  destruct uncomputed_state_amplitudes as (H8 & H9 & Hrest5).
  split; [exact uncompute |].
  split; [rewrite H12; apply isclose_cos |].
  split; [rewrite H13; apply isclose_sin |].
  split; [exact Hrest4 |].
  split; [now rewrite H8, H12 |].
  split; [now rewrite H9, H13 |].
  split; [exact Hrest5 |].
  intros i Hi.
  destruct (Nat.eq_dec i 8) as [-> | N8].
  { do 3 (split; [reflexivity |]).
    change (8 + 4)%nat with 12%nat. now rewrite H8, H12. }
  destruct (Nat.eq_dec i 9) as [-> | N9].
  { do 3 (split; [reflexivity |]).
    change (9 + 4)%nat with 13%nat. now rewrite H9, H13. }
  now rewrite Hrest5 in Hi.
Qed.

Lemma bell_final_state : QC.final_state Circuits.circuit = Circuits.bell.
Proof.
  unfold QC.final_state, Circuits.circuit, Circuits.bell.
  cbn [QC.append QC.new_circuit QC.data QC.n_qubits app].
  set (r := RtoC (/ sqrt 2)).
  step (QC.ket 2 [(0, r); (1, r)]%nat).
  step (QC.ket 2 [(0, r); (3, r)]%nat).
  reflexivity.
Qed.

Lemma bell_amplitudes :
  QC.amp Circuits.bell 0 = RtoC (/ sqrt 2) /\
  QC.amp Circuits.bell 3 = RtoC (/ sqrt 2) /\
  forall i, i <> 0%nat -> i <> 3%nat -> QC.amp Circuits.bell i = C0.
Proof.
  repeat split; try reflexivity.
  intros i H0 H3. apply amp_ket_outside.
  intros e [<- | [<- | []]]; simpl; congruence.
Qed.

(** C8: the Bell circuit (H on qubit 0, then CNOT from qubit 0 to qubit 1)
    takes [|00>] to [(|00> + |11>)/sqrt 2]: the outcomes 00 and 11 have
    probability 1/2 each, the outcomes 01 and 10 have probability 0 and
    cannot appear among the counts. *)
Theorem C8_bell_pair :
  let s := QC.final_state Circuits.circuit in
  s = QC.ket 2 [(0, RtoC (/ sqrt 2)); (3, RtoC (/ sqrt 2))]%nat /\
  QC.probability s 0 = 1 / 2 /\
  QC.probability s 3 = 1 / 2 /\
  (forall i, (QC.bitstring 2 i = "01" \/ QC.bitstring 2 i = "10")%string ->
             QC.probability s i = 0 /\ ~ QC.can_appear s i).
Proof.
  intros s. unfold s. rewrite bell_final_state.
  destruct bell_amplitudes as (H0 & H3 & Hrest).
  split; [reflexivity |].
  split; [unfold QC.probability, Cnorm2; rewrite H0; cbn [RtoC fst snd];
          rewrite inv_sqrt2_sqr; lra |].
  split; [unfold QC.probability, Cnorm2; rewrite H3; cbn [RtoC fst snd];
          rewrite inv_sqrt2_sqr; lra |].
  intros i Hi.
  assert (Hp : QC.probability Circuits.bell i = 0).
  { unfold QC.probability. rewrite Hrest.
    - unfold Cnorm2, C0. cbn [fst snd]. ring.
    - intros ->. destruct Hi as [Hi | Hi]; discriminate Hi.
    - intros ->. destruct Hi as [Hi | Hi]; discriminate Hi. }
  split; [exact Hp |]. intros [_ Hne]. now apply Hne.
Qed.

End CircuitFacts.

(** * Facts about the statements of the code cells *)

Module PythonFacts.
Import Runner Python.

Lemma unhandled_ret {A : Type} (a : A) : unhandled (ret a).
Proof. reflexivity. Qed.

Lemma unhandled_fail {A : Type} (e : exn) : unhandled (@fail A e).
Proof. reflexivity. Qed.

Lemma unhandled_and_then {A B : Type} (r : result A) (k : A -> result B) :
  unhandled r ->
  (forall a, out r = Ok a -> unhandled (k a)) ->
  unhandled (and_then r k).
Proof.
  unfold unhandled, and_then. intros Hr Hk.
  destruct (out r) as [a | e] eqn:Hout; cbn [out raised].
  - specialize (Hk a eq_refl). rewrite Hr. cbn [app].
    destruct (out (k a)); exact Hk.
  - exact Hr.
Qed.

Lemma out_and_then {A B : Type} (r : result A) (k : A -> result B) b :
  out (and_then r k) = Ok b ->
  exists a, out r = Ok a /\ out (k a) = Ok b.
Proof.
  unfold and_then. destruct (out r) as [a | e]; cbn [out].
  - intros H. now exists a.
  - discriminate.
Qed.

Section Propagation.
Variable Env : Type.
Variable lib : string -> Env -> outcome Env.
Variable truth : Env -> bool.
Variable iterations : Env -> nat.

Lemma lookup_sound fs name f :
  sound fs -> lookup Env fs name = Some f -> forall e, unhandled (f e).
Proof.
  unfold sound. induction 1 as [| [n g] fs Hg _ IH]; cbn [lookup];
    [discriminate |].
  destruct (String.eqb n name); [intros [= <-]; exact Hg | exact IH].
Qed.

Lemma call_unhandled fs name e :
  sound fs -> unhandled (call Env lib fs name e).
Proof.
  intros Hfs. unfold call.
  destruct (lookup Env fs name) as [f |] eqn:Hf.
  - exact (lookup_sound fs name f Hfs Hf e).
  - destruct (lib name e); reflexivity.
Qed.

Lemma eval_unhandled fs calls : forall e,
  sound fs -> unhandled (eval Env lib fs calls e).
Proof.
  induction calls as [| c calls IH]; intros e Hfs; cbn [eval].
  - apply unhandled_ret.
  - apply unhandled_and_then; [now apply call_unhandled |].
    intros e' _. now apply IH.
Qed.

Lemma eval_in_keeps calls : keeps (fun st => eval_in Env lib st calls).
Proof.
  intros st Hst. unfold eval_in. split.
  - apply unhandled_and_then; [now apply eval_unhandled |].
    intros e _. apply unhandled_ret.
  - intros st' Hout. apply out_and_then in Hout as (e & _ & [= <-]).
    exact Hst.
Qed.

Lemma keeps_and_then (f : state Env -> result (state Env))
      (k : state Env -> state Env -> result (state Env)) :
  keeps f -> (forall st, keeps (k st)) ->
  keeps (fun st => and_then (f st) (k st)).
Proof.
  intros Hf Hk st Hst. destruct (Hf st Hst) as [Hu Hd]. split.
  - apply unhandled_and_then; [exact Hu |].
    intros st' Hout. apply (Hk st st'). now apply Hd.
  - intros st'' Hout. apply out_and_then in Hout as (st' & Hout' & Hout'').
    apply (Hk st st' (Hd st' Hout')). exact Hout''.
Qed.

Lemma keeps_ret : keeps (fun st : state Env => ret st).
Proof.
  intros st Hst. split; [apply unhandled_ret |].
  now intros st' [= <-].
Qed.

Lemma keeps_iterate n body : keeps body -> keeps (iterate Env n body).
Proof.
  intros Hbody. induction n as [| n IH]; cbn [iterate].
  - apply keeps_ret.
  - intros st Hst. destruct (returned st); [now apply keeps_ret |].
    now apply (keeps_and_then body (fun _ => iterate Env n body)).
Qed.

Lemma keeps_block b :
  Forall (fun s => keeps (exec Env lib truth iterations s)) b ->
  keeps (exec_block Env lib truth iterations b).
Proof.
  induction 1 as [| s b Hs _ IH]; cbn [exec_block].
  - apply keeps_ret.
  - intros st Hst. destruct (returned st); [now apply keeps_ret |].
    now apply (keeps_and_then (exec Env lib truth iterations s)
                 (fun _ => exec_block Env lib truth iterations b)).
Qed.

Lemma Forall_handler_free (b : list stmt) :
  forallb handler_free b = true ->
  Forall (fun s => handler_free s = true ->
                   keeps (exec Env lib truth iterations s)) b ->
  Forall (fun s => keeps (exec Env lib truth iterations s)) b.
Proof.
  intros Hfree Hall. rewrite forallb_forall in Hfree.
  rewrite Forall_forall in *. intros s Hs. apply Hall; auto.
Qed.

(** A statement without [try] handles nothing. *)
Lemma exec_keeps (s : stmt) :
  handler_free s = true -> keeps (exec Env lib truth iterations s).
Proof.
  induction s as [m | l | calls | calls | calls body IH
                  | calls body orelse IHb IHo | name body IH | calls
                  | body handler _ _] using stmt_induction;
    cbn [handler_free]; intros Hfree.
  - apply eval_in_keeps.
  - apply eval_in_keeps.
  - apply eval_in_keeps.
  - change (keeps (fun st => and_then (eval_in Env lib st calls)
                      (fun st' => if truth (env st') then ret st'
                                  else fail AssertionError))).
    apply (keeps_and_then (fun st => eval_in Env lib st calls)
             (fun _ st' => if truth (env st') then ret st'
                           else fail AssertionError)).
    + apply eval_in_keeps.
    + intros _ st Hst. destruct (truth (env st)).
      * now apply keeps_ret.
      * split; [apply unhandled_fail | discriminate].
  - pose proof (keeps_block body (Forall_handler_free body Hfree IH)) as Hb.
    change (keeps (fun st => and_then (eval_in Env lib st calls)
                      (fun st' => iterate Env (iterations (env st'))
                                    (exec_block Env lib truth iterations body)
                                    st'))).
    apply (keeps_and_then (fun st => eval_in Env lib st calls)
             (fun _ st' => iterate Env (iterations (env st'))
                             (exec_block Env lib truth iterations body) st')).
    + apply eval_in_keeps.
    + intros _ st Hst. now apply keeps_iterate.
  - apply andb_true_iff in Hfree as [Hfb Hfo].
    pose proof (keeps_block body (Forall_handler_free body Hfb IHb)) as Hb.
    pose proof (keeps_block orelse (Forall_handler_free orelse Hfo IHo))
      as Ho.
    change (keeps (fun st => and_then (eval_in Env lib st calls)
                      (fun st' =>
                         if truth (env st')
                         then exec_block Env lib truth iterations body st'
                         else exec_block Env lib truth iterations orelse
                                         st'))).
    apply (keeps_and_then (fun st => eval_in Env lib st calls)
             (fun _ st' =>
                if truth (env st')
                then exec_block Env lib truth iterations body st'
                else exec_block Env lib truth iterations orelse st')).
    + apply eval_in_keeps.
    + intros _ st Hst. destruct (truth (env st)); [now apply Hb | now apply Ho].
  - pose proof (keeps_block body (Forall_handler_free body Hfree IH)) as Hb.
    intros st Hst.
    change (exec Env lib truth iterations (Def name body) st)
      with (ret (mkState (env st)
                   ((name,
                     fun e => and_then
                                (exec_block Env lib truth iterations body
                                            (mkState e (defs st) false))
                                (fun st' => ret (env st')))
                      :: defs st)
                   (returned st))).
    split; [apply unhandled_ret |].
    intros st' [= <-]. cbn [defs]. constructor; [| exact Hst].
    cbn [snd]. intros e. apply unhandled_and_then.
    + now apply Hb.
    + intros st' _. apply unhandled_ret.
  - change (keeps (fun st => and_then (eval_in Env lib st calls)
                      (fun st' => ret (mkState (env st') (defs st') true)))).
    apply (keeps_and_then (fun st => eval_in Env lib st calls)
             (fun _ st' => ret (mkState (env st') (defs st') true))).
    + apply eval_in_keeps.
    + intros _ st Hst. split; [apply unhandled_ret |].
      now intros st' [= <-].
  - discriminate Hfree.
Qed.

Lemma block_keeps (b : list stmt) :
  forallb handler_free b = true ->
  keeps (exec_block Env lib truth iterations b).
Proof.
  intros Hfree. apply keeps_block. rewrite forallb_forall in Hfree.
  apply Forall_forall. intros s Hs. apply exec_keeps. now apply Hfree.
Qed.

(** A notebook whose cells have no [try] handles nothing. *)
Lemma run_keeps (cells : list cell) :
  forallb (forallb handler_free) cells = true ->
  keeps (run Env lib truth iterations cells).
Proof.
  induction cells as [| c cells IH]; cbn [forallb run]; intros Hfree.
  - apply keeps_ret.
  - apply andb_true_iff in Hfree as [Hc Hcells].
    apply (keeps_and_then
             (fun st => exec_block Env lib truth iterations c
                          (mkState (env st) (defs st) false))
             (fun _ => run Env lib truth iterations cells)).
    + intros st Hst. now apply (block_keeps c Hc).
    + intros _. now apply IH.
Qed.

(** With a handler it is otherwise: the exception a call raises inside a
    [try] is not the outcome of the run. *)
Lemma handler_swallows (e : Env) (x : exn) name :
  lib name e = Raise x ->
  let r := run Env lib truth iterations [[Try [Expr [name]] []]] (start e) in
  raised r = [x] /\ out r = Ok (start e).
Proof.
  intros Hraise. cbv. rewrite Hraise. split; reflexivity.
Qed.

End Propagation.
End PythonFacts.

(** * Facts about the quadratic models and the cells that use them *)

Module ModelFacts.
Import Runner dimod builtins.

Section MaxCut.
Import Clustering.

Lemma model_built w : model w = Ok (ising w).
Proof. reflexivity. Qed.

Lemma spin_cases sigma :
  assignment SPIN n_instances sigma ->
  exists a b c d, sigma = [a; b; c; d] /\
    (a = 1 \/ a = -1)%Z /\ (b = 1 \/ b = -1)%Z /\
    (c = 1 \/ c = -1)%Z /\ (d = 1 \/ d = -1)%Z.
Proof.
  intros [Hlen Hall].
  destruct sigma as [|a [|b [|c [|d [|]]]]]; try discriminate Hlen.
  inversion Hall as [|? ? Ha Hall1]; subst.
  inversion Hall1 as [|? ? Hb Hall2]; subst.
  inversion Hall2 as [|? ? Hc Hall3]; subst.
  inversion Hall3 as [|? ? Hd _]; subst.
  exists a, b, c, d. auto.
Qed.

Lemma energy_is_coupling_energy w sigma :
  energy (ising w) sigma = coupling_energy w sigma.
Proof.
  unfold energy, coupling_energy, ising.
  cbn [linear quadratic offset map np.sum fold_right fst snd
       edges n_instances flat_map range seq Nat.sub Nat.add app].
  ring.
Qed.

Lemma coupling_energy_is_cut w sigma :
  assignment SPIN n_instances sigma ->
  coupling_energy w sigma = total_weight w - 2 * cut_weight w sigma.
Proof.
  intros Hs.
  destruct (spin_cases sigma Hs) as (a & b & c & d & -> & Ha & Hb & Hc & Hd).
  unfold coupling_energy, total_weight, cut_weight, value.
  cbn [map np.sum fold_right fst snd nth
       edges n_instances flat_map range seq Nat.sub Nat.add app].
  destruct Ha as [-> | ->], Hb as [-> | ->], Hc as [-> | ->], Hd as [-> | ->];
    cbn [Z.eqb Pos.eqb]; ring.
Qed.


(** C1: the model handed to the annealer has on-site field 0 on each of
    the 4 variables and coupling [w[i,j]] on each pair [i < j]; on every
    spin assignment its energy is the sum over [i < j] of
    [w[i,j] * sigma_i * sigma_j], which is the total edge weight minus
    twice the weight of the cut; so the assignments of minimum energy are
    exactly the maximum cuts. *)
Theorem C1_ising_energy_is_max_cut :
  forall w : np.matrix,
    np.shape w n_instances n_instances ->
    h w = map (fun i => (i, 0)) (range 0 n_instances) /\
    J w = map (fun e => (e, np.get w (fst e) (snd e))) (edges n_instances) /\
    exists m,
      model w = Ok m /\
      vartype m = SPIN /\
      map fst (linear m) = range 0 n_instances /\
      Forall (fun e => snd e = 0) (linear m) /\
      map fst (quadratic m) = edges n_instances /\
      Forall (fun e => snd e = np.get w (fst (fst e)) (snd (fst e)))
             (quadratic m) /\
      (forall sigma, assignment SPIN n_instances sigma ->
         energy m sigma = coupling_energy w sigma /\
         energy m sigma = total_weight w - 2 * cut_weight w sigma) /\
      (forall sigma, minimum_energy m sigma <-> maximum_cut w sigma).
Proof.
  intros w _. split; [reflexivity |]. split; [reflexivity |].
  exists (ising w).
  assert (Hcut : forall sigma, assignment SPIN n_instances sigma ->
            energy (ising w) sigma = total_weight w - 2 * cut_weight w sigma).
  { intros sigma Hs. rewrite energy_is_coupling_energy.
    now apply coupling_energy_is_cut. }
  split; [apply model_built |].
  split; [reflexivity |]. split; [reflexivity |].
  split; [repeat constructor |]. split; [reflexivity |].
  split; [repeat constructor |].
  split.
  - intros sigma Hs. split; [apply energy_is_coupling_energy | now apply Hcut].
  - intros sigma. unfold minimum_energy, maximum_cut.
    split; intros [Hs Hbest]; (split; [assumption |]); intros tau Ht;
      specialize (Hbest tau Ht);
      rewrite (Hcut sigma Hs), (Hcut tau Ht) in *; lra.
Qed.

(** The two-cluster sample of the notebook's output on a small matrix. *)
Lemma C1_ising_energy_is_max_cut_witness :
  let w := [[0; 1; 2; 2]; [1; 0; 2; 2]; [2; 2; 0; 1]; [2; 2; 1; 0]] in
  np.shape w n_instances n_instances /\
  exists m, model w = Ok m /\ energy m [1; 1; -1; -1]%Z = -6.
Proof.
  intros w.
  assert (Hw : np.shape w n_instances n_instances).
  { split; [reflexivity |]. repeat constructor. }
  split; [exact Hw |].
  destruct (C1_ising_energy_is_max_cut w Hw)
    as (_ & _ & m & Hm & _ & _ & _ & _ & _ & He & _).
  exists m. split; [exact Hm |].
  destruct (He [1; 1; -1; -1]%Z) as [-> _].
  - split; [reflexivity |].
    repeat (apply Forall_cons; [simpl; auto |]). apply Forall_nil.
  - unfold coupling_energy, value, w.
    cbn [map np.sum fold_right fst snd nth np.get
         edges n_instances flat_map range seq Nat.sub Nat.add app].
    lra.
Defined.

End MaxCut.

Section Markov.
Import MarkovNetwork.

Lemma network_built : MarkovNetwork.model = Ok network.
Proof. reflexivity. Qed.

Lemma R_eqb_refl a : R_eqb a a = true.
Proof.
  unfold R_eqb. destruct (Req_dec_T a a); [reflexivity | contradiction].
Qed.

Lemma network_check : exercise1_check network = Ok tt.
Proof.
  unfold exercise1_check, network.
  cbn [vartype linear quadratic map fst snd length Nat.eqb Vartype_eqb
       list_eqb edge_eqb andb assert bind].
  now rewrite !R_eqb_refl.
Qed.

(** The grading cell compares exactly: a bias that [np.allclose] would
    accept as 1 fails it. *)
Lemma exercise1_check_is_exact :
  let eps := 1 / 1000000000 in
  let m := mkBQM [(0%nat, 1 + eps); (1%nat, 1); (2%nat, 1); (3%nat, 1)]
                 [((0%nat, 1%nat), -1); ((1%nat, 2%nat), -1)] 0 BINARY in
  np.isclose (Amplitude.RtoC (1 + eps)) (Amplitude.RtoC 1) = true /\
  exercise1_check m = Raise AssertionError.
Proof.
  intros eps m. split.
  - apply CircuitFacts.isclose_real. unfold eps, np.atol, np.rtol.
    rewrite (Rabs_right 1) by lra. apply Rabs_le. lra.
  - unfold exercise1_check, m.
    cbn [vartype linear quadratic map fst snd length Nat.eqb Vartype_eqb
         list_eqb edge_eqb andb assert bind].
    unfold R_eqb at 1.
    destruct (Req_dec_T (1 + eps) 1) as [Heq | _]; [unfold eps in Heq; lra |].
    reflexivity.
Qed.

Lemma weight_factor T x0 x1 x2 x3 :
  weight network T x0 x1 x2 x3
  = exp (- (IZR x0 - IZR x0 * IZR x1) / T)
    * exp (- (IZR x1 + IZR x2 - IZR x1 * IZR x2) / T)
    * exp (- IZR x3 / T).
Proof.
  unfold weight, energy, network, value.
  cbn [linear quadratic offset map np.sum fold_right fst snd nth].
  rewrite <- !exp_plus. f_equal. unfold Rdiv. ring.
Qed.


Lemma partition_pos T : 0 < partition network T.
Proof.
  unfold partition, over, weight.
  repeat apply Rplus_lt_0_compat; apply exp_pos.
Qed.

Ltac to_weights :=
  unfold P_2, P_12, P_23, P_4, P_123, P, over.

(** C10: the constructor returns a model of BINARY vartype on exactly the
    variables 0, 1, 2, 3, each with linear bias 1, whose couplings are -1
    on (0, 1) and on (1, 2) and nothing else, and the grading cell accepts
    it.  Variable 3 is in no coupling and 0 and 2 are not coupled.  In the
    Boltzmann distribution of the model, at any temperature, [X4] is
    independent of [(X1, X2, X3)], and [X1] and [X3] are conditionally
    independent given [X2]. *)
Theorem C10_markov_network_model :
  exists m,
    MarkovNetwork.model = Ok m /\
    exercise1_check m = Ok tt /\
    vartype m = BINARY /\
    map fst (linear m) = [0; 1; 2; 3]%nat /\
    map snd (linear m) = [1; 1; 1; 1] /\
    map fst (quadratic m) = [(0, 1); (1, 2)]%nat /\
    map snd (quadratic m) = [-1; -1] /\
    (forall u v, coupled m u v <->
       (u, v) = (0, 1)%nat \/ (u, v) = (1, 0)%nat \/
       (u, v) = (1, 2)%nat \/ (u, v) = (2, 1)%nat) /\
    (forall v, ~ coupled m 3 v) /\
    ~ coupled m 0 2 /\
    (forall T x0 x1 x2 x3,
       P m T x0 x1 x2 x3 = P_123 m T x0 x1 x2 * P_4 m T x3) /\
    (forall T x0 x1 x2,
       P_123 m T x0 x1 x2 * P_2 m T x1 = P_12 m T x0 x1 * P_23 m T x1 x2).
Proof.
  exists network.
  assert (Hcoupled : forall u v, coupled network u v <->
            (u, v) = (0, 1)%nat \/ (u, v) = (1, 0)%nat \/
            (u, v) = (1, 2)%nat \/ (u, v) = (2, 1)%nat).
  { intros u v. unfold coupled, network. cbn [quadratic map fst In].
    split.
    - intros [[H | [H | []]] | [H | [H | []]]]; inversion H; subst; auto.
    - intros [H | [H | [H | H]]]; inversion H; subst; auto. }
  split; [apply network_built |]. split; [apply network_check |].
  do 5 (split; [reflexivity |]).
  split; [exact Hcoupled |].
  split; [| split; [| split]].
  - intros v Hc. apply Hcoupled in Hc.
    destruct Hc as [H | [H | [H | H]]]; discriminate H.
  - intros Hc. apply Hcoupled in Hc.
    destruct Hc as [H | [H | [H | H]]]; discriminate H.
  - intros T x0 x1 x2 x3. to_weights.
    pose proof (partition_pos T) as Hz.
    set (z := partition network T) in *.
    field_simplify_eq; [| lra].
    subst z. unfold partition, over. rewrite !weight_factor. ring.
  - intros T x0 x1 x2. to_weights.
    pose proof (partition_pos T) as Hz.
    set (z := partition network T) in *.
    field_simplify_eq; [| lra].
    rewrite !weight_factor. ring.
Qed.

End Markov.

Section Propagation.
Import Clustering.

Lemma run_cells_app {S : Type} (before after : list (S -> outcome S)) ns :
  run_cells (before ++ after) ns = bind (run_cells before ns) (run_cells after).
Proof.
  revert ns. induction before as [|cell before IH]; intros ns; [reflexivity |].
  cbn [app run_cells].
  destruct (cell ns) as [ns' | e]; [apply IH | reflexivity].
Qed.



End Propagation.
End ModelFacts.

(** * Facts about the example inputs *)

Module ExampleFacts.

Lemma length_linspace a b num : length (np.linspace a b num) = num.
Proof.
  unfold np.linspace. now rewrite length_map, length_seq.
Qed.

Lemma input_sizes_values :
  Examples.input_sizes = [4; 4; 2; 4; 2; 1; 2; 2; 4; 3; 100]%nat.
Proof.
  unfold Examples.input_sizes, Evolution.energies.
  rewrite length_linspace. reflexivity.
Qed.

(** C7 (as stated): not every fixed example input has between 4 and 10
    elements; the energy grid [np.linspace(0, 20, 100)] has 100. *)
Lemma C7_energy_grid_has_100_points :
  length Evolution.energies = 100%nat /\
  In (length Evolution.energies) Examples.input_sizes /\
  ~ Forall (fun k => (4 <= k <= 10)%nat) Examples.input_sizes.
Proof.
  assert (Hlen : length Evolution.energies = 100%nat) by apply length_linspace.
  split; [exact Hlen |]. split.
  - unfold Examples.input_sizes. do 10 right. now left.
  - intros Hall. rewrite Forall_forall in Hall.
    specialize (Hall 100%nat). rewrite input_sizes_values in Hall.
    assert (H : (4 <= 100 <= 10)%nat) by (apply Hall; do 10 right; now left).
    lia.
Qed.

(** C7 (amended): the fixed example inputs are small: there are 4 data
    instances, 4 Markov-network variables and a 4-qubit register for the
    matrix inversion, and every fixed input has between 1 and 100
    elements, the other registers having 2 and 1 qubits, the temperature
    list 3 entries and the energy grid 100 points. *)
Theorem C7_example_inputs_are_small :
  Clustering.n_instances = 4%nat /\
  MarkovNetwork.n_variables = 4%nat /\
  MatrixInversion.register_size = 4%nat /\
  QC.n_qubits Circuits.circuit = 2%nat /\
  QC.n_qubits Evolution.circuit = 1%nat /\
  length Evolution.temperatures = 3%nat /\
  length Evolution.energies = 100%nat /\
  Forall (fun k => (1 <= k <= 100)%nat) Examples.input_sizes.
Proof.
  do 6 (split; [reflexivity |]).
  split; [apply length_linspace |].
  rewrite input_sizes_values. repeat constructor.
Qed.

End ExampleFacts.

(** * Facts about the dictionaries and loops of the annealing cell *)

Module DictFacts.
Import dimod.

Section Dict.
Context {K V : Type} (eqb : K -> K -> bool).

(** Assigning to a key the dictionary does not hold appends the entry. *)
Lemma setitem_fresh (d : dict K V) k v :
  Forall (fun e => eqb (fst e) k = false) d ->
  setitem eqb d k v = d ++ [(k, v)].
Proof.
  induction 1 as [| [k' v'] d Hk _ IH]; [reflexivity |].
  cbn [setitem fst] in *. rewrite Hk, IH. reflexivity.
Qed.

Lemma lookup_fresh (d : dict K V) k :
  Forall (fun e => eqb (fst e) k = false) d -> lookup eqb d k = None.
Proof.
  induction 1 as [| [k' v'] d Hk _ IH]; [reflexivity |].
  cbn [lookup fst] in *. now rewrite Hk.
Qed.

End Dict.
End DictFacts.

Module CouplingFacts.
Import Runner dimod builtins Clustering DictFacts.

Lemma inner_loop (g : nat -> R) i len : forall b J,
  Forall (fun e => fst (fst e) = i -> (snd (fst e) < b)%nat) J ->
  fold_left (fun J j => setitem edge_eqb J (i, j) (g j)) (seq b len) J
  = J ++ map (fun j => ((i, j), g j)) (seq b len).
Proof.
  induction len as [| len IH]; intros b J HJ; cbn [seq fold_left map].
  - now rewrite app_nil_r.
  - rewrite setitem_fresh.
    + rewrite IH.
      * now rewrite <- app_assoc.
      * apply Forall_app. split.
        -- eapply Forall_impl; [| exact HJ]. cbn beta. intros e He Hi.
           specialize (He Hi). lia.
        -- constructor; [cbn [fst snd]; lia | constructor].
    + eapply Forall_impl; [| exact HJ]. cbn beta. intros [[a c] v] He.
      unfold edge_eqb. cbn [fst snd] in *.
      destruct (Nat.eqb_spec a i) as [Hai | Hai]; [| reflexivity].
      specialize (He Hai). cbn [andb].
      apply Nat.eqb_neq. lia.
Qed.

Lemma outer_loop w n (F : dict (nat * nat) R * dict nat R -> nat
                         -> dict (nat * nat) R * dict nat R) :
  (forall Jh i,
      F Jh i
      = (fold_left (fun J j => setitem edge_eqb J (i, j) (np.get w i j))
                   (range (i + 1) n) (fst Jh),
         setitem Nat.eqb (snd Jh) i 0)) ->
  forall len a J h,
    Forall (fun e => (fst (fst e) < a)%nat) J ->
    Forall (fun e => (fst e < a)%nat) h ->
    fold_left F (seq a len) (J, h)
    = (J ++ flat_map (fun i => map (fun j => ((i, j), np.get w i j))
                                   (range (i + 1) n))
                     (seq a len),
       h ++ map (fun i => (i, 0)) (seq a len)).
Proof.
  intros HF. induction len as [| len IH]; intros a J h HJ Hh;
    cbn [seq fold_left flat_map map].
  - now rewrite !app_nil_r.
  - rewrite HF. cbn [fst snd]. unfold range at 1.
    rewrite (inner_loop (np.get w a) a).
    + rewrite setitem_fresh.
      * rewrite IH.
        -- now rewrite <- !app_assoc.
        -- apply Forall_app. split.
           ++ eapply Forall_impl; [| exact HJ]. cbn beta. intros e He. lia.
           ++ apply Forall_forall. intros e He.
              apply in_map_iff in He as (j & <- & _). cbn [fst]. lia.
        -- apply Forall_app. split.
           ++ eapply Forall_impl; [| exact Hh]. cbn beta. intros e He. lia.
           ++ constructor; [cbn [fst]; lia | constructor].
      * eapply Forall_impl; [| exact Hh]. cbn beta. intros e He.
        apply Nat.eqb_neq. lia.
    + eapply Forall_impl; [| exact HJ]. cbn beta. intros e He Hi. lia.
Qed.

Lemma map_flat_map {A B C : Type} (f : B -> C) (g : A -> list B) l :
  map f (flat_map g l) = flat_map (fun a => map f (g a)) l.
Proof.
  induction l as [| a l IH]; [reflexivity |].
  cbn [flat_map]. now rewrite map_app, IH.
Qed.

(** The dictionaries the two loops leave, for any number of instances. *)
Lemma couplings_general (n : nat) (w : np.matrix) :
  couplings n w
  = (map (fun e => (e, np.get w (fst e) (snd e))) (edges n),
     map (fun i => (i, 0)) (range 0 n)).
Proof.
  unfold couplings, edges.
  change (range 0 n) with (seq 0 (n - 0)).
  match goal with
  | |- fold_left ?F _ _ = _ =>
      rewrite (outer_loop w n F (fun Jh i => eq_refl) (n - 0) 0 [] [])
        by constructor
  end.
  cbn [app]. f_equal.
  rewrite map_flat_map.
  apply flat_map_ext. intros i. now rewrite map_map.
Qed.


Lemma in_edges n i j :
  In (i, j) (edges n) <-> (i < j)%nat /\ (j < n)%nat.
Proof.
  unfold edges, range. rewrite in_flat_map. split.
  - intros (a & Ha & Hin). apply in_map_iff in Hin as (b & [= <- <-] & Hb).
    apply in_seq in Ha, Hb. lia.
  - intros [Hij Hj]. exists i. split; [apply in_seq; lia |].
    apply in_map, in_seq. lia.
Qed.

(** In an array of [n] rows of [n] entries, every coupling the loops store
    is an entry they could read. *)
Lemma couplings_in_range (n : nat) (w : np.matrix) :
  np.shape w n n ->
  Forall (fun e => exists row,
              nth_error w (fst (fst e)) = Some row /\
              nth_error row (snd (fst e)) = Some (snd e))
         (map (fun e => (e, np.get w (fst e) (snd e))) (edges n)).
Proof.
  intros Hshape. apply Forall_forall. intros e He.
  apply in_map_iff in He as ([i j] & <- & Hin). cbn [fst snd].
  apply in_edges in Hin as [Hij Hj].
  assert (Hi : (i < n)%nat) by lia.
  pose proof (ArrayFacts.shape_row w n n i Hshape Hi) as Hrow.
  destruct Hshape as [Hlen _].
  exists (nth i w []). split.
  - apply nth_error_nth'. lia.
  - unfold np.get. apply nth_error_nth'. lia.
Qed.

(** X1: for any number of instances [n] and any array [w] of [n] rows of
    [n] entries, the loops of the annealing cell leave field 0 on the
    variables [0 .. n-1], in order, and the coupling [w[i, j]] on each
    pair [i < j], in lexicographic order, and nothing else; every index
    they read is inside the array. *)
Theorem couplings_for_any_n :
  forall (n : nat) (w : np.matrix),
    np.shape w n n ->
    fst (couplings n w)
    = map (fun e => (e, np.get w (fst e) (snd e))) (edges n) /\
    snd (couplings n w) = map (fun i => (i, 0)) (range 0 n) /\
    Forall (fun e => exists row,
                nth_error w (fst (fst e)) = Some row /\
                nth_error row (snd (fst e)) = Some (snd e))
           (fst (couplings n w)).
Proof.
  intros n w Hshape. rewrite couplings_general. cbn [fst snd].
  split; [reflexivity |]. split; [reflexivity |].
  now apply couplings_in_range.
Qed.

(** Three instances. *)
Lemma couplings_for_any_n_witness :
  let w := [[0; 1; 2]; [1; 0; 3]; [2; 3; 0]] in
  fst (couplings 3 w)
  = [((0%nat, 1%nat), 1); ((0%nat, 2%nat), 2); ((1%nat, 2%nat), 3)].
Proof.
  intros w.
  destruct (couplings_for_any_n 3 w) as (HJ & _ & _).
  - split; [reflexivity |]. repeat constructor.
  - rewrite HJ. reflexivity.
Defined.

End CouplingFacts.

Module MaxCutFacts.
Import Runner builtins dimod DictFacts CouplingFacts.

Lemma edge_eqb_eq a b : edge_eqb a b = true <-> a = b.
Proof.
  destruct a as [a1 a2], b as [b1 b2]. unfold edge_eqb. cbn [fst snd].
  rewrite andb_true_iff, !Nat.eqb_eq.
  split; [intros [-> ->] | intros [= -> ->]]; auto.
Qed.

Lemma edge_eqb_neq a b : a <> b -> edge_eqb a b = false.
Proof.
  intros Hne. destruct (edge_eqb a b) eqn:He; [| reflexivity].
  now apply edge_eqb_eq in He.
Qed.

(** The fields: every variable is new when it is added. *)
Lemma add_variables len : forall a acc,
  Forall (fun e => (fst e < a)%nat) acc ->
  fold_left (fun l e => add_variable l (fst e) (snd e))
            (map (fun i => (i, 0)) (seq a len)) acc
  = acc ++ map (fun i => (i, 0)) (seq a len).
Proof.
  induction len as [| len IH]; intros a acc Hacc; cbn [seq map fold_left].
  - now rewrite app_nil_r.
  - cbn [fst snd]. unfold add_variable.
    assert (Hfresh : Forall (fun e : nat * R => (fst e =? a)%nat = false) acc).
    { eapply Forall_impl; [| exact Hacc]. cbn beta. intros e He.
      apply Nat.eqb_neq. lia. }
    rewrite (lookup_fresh Nat.eqb acc a Hfresh), setitem_fresh by assumption.
    rewrite IH.
    + now rewrite <- app_assoc.
    + apply Forall_app. split.
      * eapply Forall_impl; [| exact Hacc]. cbn beta. intros e He. lia.
      * constructor; [cbn [fst]; lia | constructor].
Qed.

Lemma lookup_variable n i :
  (i < n)%nat ->
  lookup Nat.eqb (map (fun i => (i, 0)) (seq 0 n)) i = Some 0.
Proof.
  intros Hi.
  assert (Hgen : forall len a, (a <= i < a + len)%nat ->
            lookup Nat.eqb (map (fun i => (i, 0)) (seq a len)) i = Some 0).
  { induction len as [| len IH]; intros a Ha; [lia |].
    cbn [seq map lookup]. destruct (Nat.eqb_spec a i); [reflexivity |].
    apply IH. lia. }
  apply Hgen. lia.
Qed.

(** The couplings: an interaction between known variables that is stored
    in neither orientation is appended. *)
Lemma add_interactions lin : forall es quad,
  NoDup (map fst (quad ++ es)) ->
  Forall (fun e => (fst (fst e) < snd (fst e))%nat) (quad ++ es) ->
  Forall (fun e => lookup Nat.eqb lin (fst (fst e)) <> None /\
                   lookup Nat.eqb lin (snd (fst e)) <> None) es ->
  add_interactions_from (lin, quad) es = Ok (lin, quad ++ es).
Proof.
  induction es as [| [[u v] bias] es IH]; intros quad Hnd Hor Hknown.
  - cbn [add_interactions_from]. now rewrite app_nil_r.
  - cbn [add_interactions_from add_interaction].
    inversion Hknown as [| ? ? [Hu Hv] Hknown']; subst. cbn [fst snd] in Hu, Hv.
    pose proof Hor as Hor'. apply Forall_app in Hor' as [Hquad Hes].
    inversion Hes as [| ? ? Huv _]; subst. cbn [fst snd] in Huv.
    assert (Hneq : (u =? v)%nat = false) by (apply Nat.eqb_neq; lia).
    rewrite Hneq. cbv zeta.
    destruct (lookup Nat.eqb lin u) as [bu |] eqn:Hlu; [| contradiction].
    destruct (lookup Nat.eqb lin v) as [bv |] eqn:Hlv; [| contradiction].
    assert (Hfresh : Forall (fun e => edge_eqb (fst e) (u, v) = false) quad).
    { apply Forall_forall. intros e He. apply edge_eqb_neq. intros Heq.
      rewrite map_app in Hnd. cbn [map fst] in Hnd.
      apply NoDup_remove_2 in Hnd. apply Hnd. apply in_or_app. left.
      rewrite <- Heq. now apply in_map. }
    assert (Hfresh' : Forall (fun e => edge_eqb (fst e) (v, u) = false) quad).
    { apply Forall_forall. intros e He. apply edge_eqb_neq. intros Heq.
      rewrite Forall_forall in Hquad. specialize (Hquad e He).
      rewrite Heq in Hquad. cbn [fst snd] in Hquad. lia. }
    rewrite (lookup_fresh edge_eqb quad (u, v) Hfresh).
    rewrite (lookup_fresh edge_eqb quad (v, u) Hfresh').
    rewrite setitem_fresh by assumption.
    cbn [Runner.bind]. rewrite IH.
    + now rewrite <- app_assoc.
    + now rewrite <- app_assoc.
    + now rewrite <- app_assoc.
    + assumption.
Qed.

Lemma NoDup_rows n len : forall a,
  NoDup (flat_map (fun i => map (pair i) (range (i + 1) n)) (seq a len)).
Proof.
  induction len as [| len IH]; intros a; cbn [seq flat_map]; [constructor |].
  apply NoDup_app.
  - assert (Hinj : forall l : list nat, NoDup l -> NoDup (map (pair a) l)).
    { induction 1 as [| b l Hb _ IHl]; cbn [map]; constructor; [| assumption].
      intros Hin. apply in_map_iff in Hin as (c & [= ->] & Hc). contradiction. }
    apply Hinj, seq_NoDup.
  - apply IH.
  - intros [i j] Hin Hin'.
    apply in_map_iff in Hin as (b & [= <- <-] & _).
    apply in_flat_map in Hin' as (c & Hc & Hin').
    apply in_map_iff in Hin' as (b' & [= <- _] & _).
    apply in_seq in Hc. lia.
Qed.

Lemma NoDup_edges n : NoDup (Clustering.edges n).
Proof. apply NoDup_rows. Qed.

Lemma maxcut_model_built (n : nat) (w : np.matrix) :
  MaxCut.model n w
  = Ok (mkBQM (map (fun i => (i, 0)) (range 0 n))
              (map (fun e => (e, np.get w (fst e) (snd e))) (Clustering.edges n))
              0 SPIN).
Proof.
  unfold MaxCut.model, new_model.
  rewrite couplings_general. cbn [fst snd].
  unfold range at 1 2.
  rewrite (add_variables (n - 0) 0 []) by constructor. cbn [app].
  rewrite (add_interactions _ _ []).
  - reflexivity.
  - cbn [app]. rewrite map_map. cbn [fst]. rewrite map_id. apply NoDup_edges.
  - cbn [app]. apply Forall_forall. intros e He.
    apply in_map_iff in He as ([i j] & <- & Hin). cbn [fst snd].
    now apply in_edges in Hin.
  - apply Forall_forall. intros e He.
    apply in_map_iff in He as ([i j] & <- & Hin). cbn [fst snd].
    apply in_edges in Hin. rewrite Nat.sub_0_r.
    rewrite !lookup_variable by lia. split; discriminate.
Qed.

Lemma zero_fields (sigma : sample) (l : list nat) :
  np.sum (map (fun e : nat * R => snd e * value sigma (fst e))
              (map (fun i => (i, 0)) l)) = 0.
Proof.
  induction l as [| i l IH]; [reflexivity |].
  cbn [map np.sum fold_right fst snd]. unfold np.sum in IH. rewrite IH. ring.
Qed.

Lemma spin_value n (sigma : sample) i :
  assignment SPIN n sigma -> (i < n)%nat ->
  nth i sigma 0%Z = 1%Z \/ nth i sigma 0%Z = (-1)%Z.
Proof.
  intros [Hlen Hall] Hi. rewrite Forall_forall in Hall.
  apply (Hall (nth i sigma 0%Z)). apply nth_In. lia.
Qed.

(** One edge: the product of two spins is 1 inside a side, -1 across. *)
Lemma edge_term (wij : R) (a b : Z) :
  (a = 1 \/ a = -1)%Z -> (b = 1 \/ b = -1)%Z ->
  wij * IZR a * IZR b = wij - 2 * (if (a =? b)%Z then 0 else wij).
Proof.
  intros [-> | ->] [-> | ->]; cbn [Z.eqb Pos.eqb]; ring.
Qed.

Lemma sum_of_terms {A : Type} (f g k : A -> R) (l : list A) :
  (forall e, In e l -> f e = g e - 2 * k e) ->
  np.sum (map f l) = np.sum (map g l) - 2 * np.sum (map k l).
Proof.
  induction l as [| e l IH]; intros Hterm; unfold np.sum in *;
    cbn [map fold_right].
  - ring.
  - rewrite IH by (intros e' He'; apply Hterm; now right).
    rewrite (Hterm e) by now left. ring.
Qed.

(** X2: for any number of instances [n] and any array [w] of [n] rows of
    [n] entries, the constructor accepts the fields and couplings of the
    annealing cell, every coupling of the model is the entry of [w] at its
    pair of indices, and on every spin assignment the energy of the model
    is the sum over [i < j] of [w[i,j] * sigma_i * sigma_j], that is the
    total weight minus twice the weight of the cut. *)
Theorem ising_energy_for_any_n :
  forall (n : nat) (w : np.matrix) (sigma : sample),
    np.shape w n n ->
    assignment SPIN n sigma ->
    exists m,
      MaxCut.model n w = Ok m /\
      map fst (linear m) = range 0 n /\
      map fst (quadratic m) = Clustering.edges n /\
      Forall (fun e => exists row,
                  nth_error w (fst (fst e)) = Some row /\
                  nth_error row (snd (fst e)) = Some (snd e))
             (quadratic m) /\
      energy m sigma = MaxCut.coupling_energy n w sigma /\
      energy m sigma
      = MaxCut.total_weight n w - 2 * MaxCut.cut_weight n w sigma.
Proof.
  intros n w sigma Hshape Hs. eexists. split; [apply maxcut_model_built |].
  cbn [linear quadratic].
  split; [rewrite map_map; cbn [fst]; apply map_id |].
  split; [rewrite map_map; cbn [fst]; apply map_id |].
  split; [now apply couplings_in_range |].
  assert (He : energy
                 (mkBQM (map (fun i => (i, 0)) (range 0 n))
                    (map (fun e => (e, np.get w (fst e) (snd e)))
                       (Clustering.edges n)) 0 SPIN) sigma
               = MaxCut.coupling_energy n w sigma).
  { unfold energy. cbn [linear quadratic offset].
    rewrite zero_fields, map_map. cbn [fst snd].
    unfold MaxCut.coupling_energy. lra. }
  split; [exact He |]. rewrite He.
  unfold MaxCut.coupling_energy, MaxCut.total_weight, MaxCut.cut_weight.
  apply sum_of_terms. intros [i j] Hin. cbn [fst snd].
  apply in_edges in Hin. unfold value.
  apply edge_term; apply (spin_value n); (assumption || lia).
Qed.

(** Three instances, one of them across the cut. *)
Lemma ising_energy_for_any_n_witness :
  let w := [[0; 1; 2]; [1; 0; 3]; [2; 3; 0]] in
  np.shape w 3 3 /\
  assignment SPIN 3 [1; -1; 1]%Z /\
  exists m, MaxCut.model 3 w = Ok m /\ energy m [1; -1; 1]%Z = -2.
Proof.
  intros w.
  assert (Hw : np.shape w 3 3).
  { split; [reflexivity |]. repeat constructor. }
  assert (Hs : assignment SPIN 3 [1; -1; 1]%Z).
  { split; [reflexivity |].
    repeat (apply Forall_cons; [simpl; auto |]). apply Forall_nil. }
  split; [exact Hw |]. split; [exact Hs |].
  destruct (ising_energy_for_any_n 3 w [1; -1; 1]%Z Hw Hs)
    as (m & Hm & _ & _ & _ & _ & He).
  exists m. split; [exact Hm |]. rewrite He.
  unfold MaxCut.total_weight, MaxCut.cut_weight, w.
  cbn [map np.sum fold_right fst snd nth np.get Z.eqb Pos.eqb
       Clustering.edges flat_map range seq Nat.sub Nat.add app].
  lra.
Defined.

End MaxCutFacts.

(** * Facts about the dataset and its distance matrix *)

Module SeparationFacts.
Import Runner dimod builtins Clustering.

Lemma rand_2_3 u :
  random.rand 2 3 u ->
  exists a0 a1 a2 b0 b1 b2,
    u = [[a0; a1; a2]; [b0; b1; b2]] /\
    (0 <= a0 < 1) /\ (0 <= a1 < 1) /\ (0 <= a2 < 1) /\
    (0 <= b0 < 1) /\ (0 <= b1 < 1) /\ (0 <= b2 < 1).
Proof.
  intros [[Hrows Hcols] Hin].
  destruct u as [| r0 [| r1 [|]]]; try discriminate Hrows.
  inversion Hcols as [| ? ? H0 Hcols']; subst.
  inversion Hcols' as [| ? ? H1 _]; subst.
  destruct r0 as [| a0 [| a1 [| a2 [|]]]]; try discriminate H0.
  destruct r1 as [| b0 [| b1 [| b2 [|]]]]; try discriminate H1.
  inversion Hin as [| ? ? Ha Hin']; subst.
  inversion Hin' as [| ? ? Hb _]; subst.
  inversion Ha as [| ? ? Ha0 Ha']; subst.
  inversion Ha' as [| ? ? Ha1 Ha'']; subst.
  inversion Ha'' as [| ? ? Ha2 _]; subst.
  inversion Hb as [| ? ? Hb0 Hb']; subst.
  inversion Hb' as [| ? ? Hb1 Hb'']; subst.
  inversion Hb'' as [| ? ? Hb2 _]; subst.
  exists a0, a1, a2, b0, b1, b2. auto 10.
Qed.

Lemma sqrt_below s b : 0 <= s -> 0 <= b -> s < b * b -> sqrt s < b.
Proof.
  intros Hs Hb Hlt. rewrite <- (sqrt_square b) by assumption.
  apply sqrt_lt_1; nra.
Qed.

Lemma sqrt_above s b : 0 <= b -> b * b < s -> b < sqrt s.
Proof.
  intros Hb Hlt. rewrite <- (sqrt_square b) at 1 by assumption.
  apply sqrt_lt_1; nra.
Qed.

Lemma square_below_1 d : -1 < d < 1 -> 0 <= d * d < 1.
Proof. intros H. nra. Qed.

Lemma sum_squares_below x y z :
  -1 < x < 1 -> -1 < y < 1 -> -1 < z < 1 ->
  sqrt (x / 5 * (x / 5) + (y / 5 * (y / 5) + (z / 5 * (z / 5) + 0))) < 0.35.
Proof.
  intros Hx Hy Hz.
  pose proof (square_below_1 x Hx). pose proof (square_below_1 y Hy).
  pose proof (square_below_1 z Hz).
  apply sqrt_below; lra.
Qed.

Lemma sum_squares_above x y z :
  0.16 < x * x -> 0.4 < sqrt (x * x + (y * y + (z * z + 0))).
Proof.
  intros Hx.
  pose proof (Rle_0_sqr y) as Hy. pose proof (Rle_0_sqr z) as Hz.
  unfold Rsqr in *.
  apply sqrt_above; nra.
Qed.

Import ArrayFacts.

Ltac expose_distance :=
  unfold distance, data, class_1, class_2, np.norm, np.sub;
  cbn [app map combine nth fst snd np.sum fold_right].

Lemma distance_bounds u1 u2 :
  random.rand (n_instances / 2) 3 u1 ->
  random.rand (n_instances / 2) 3 u2 ->
  let m := w (data u1 u2) in
  np.get m 0 1 < 0.35 /\
  np.get m 2 3 < 0.35 /\
  0.4 < np.get m 0 2 /\ 0.4 < np.get m 0 3 /\
  0.4 < np.get m 1 2 /\ 0.4 < np.get m 1 3.
Proof.
  intros H1 H2 m.
  destruct (rand_2_3 u1 H1)
    as (a0 & a1 & a2 & b0 & b1 & b2 & -> & Ha0 & Ha1 & Ha2 & Hb0 & Hb1 & Hb2).
  destruct (rand_2_3 u2 H2)
    as (c0 & c1 & c2 & d0 & d1 & d2 & -> & Hc0 & Hc1 & Hc2 & Hd0 & Hd1 & Hd2).
  unfold m, w.
  rewrite !pairwise_distances_get by (unfold n_instances; lia).
  expose_distance.
  repeat split.
  - replace (a0 / 5 - b0 / 5) with ((a0 - b0) / 5) by field.
    replace (a1 / 5 - b1 / 5) with ((a1 - b1) / 5) by field.
    replace (a2 / 5 - b2 / 5) with ((a2 - b2) / 5) by field.
    apply sum_squares_below; lra.
  - replace (0.6 + c0 / 5 - (0.6 + d0 / 5)) with ((c0 - d0) / 5) by field.
    replace (0.1 + c1 / 5 - (0.1 + d1 / 5)) with ((c1 - d1) / 5) by field.
    replace (0.05 + c2 / 5 - (0.05 + d2 / 5)) with ((c2 - d2) / 5) by field.
    apply sum_squares_below; lra.
  - apply sum_squares_above. nra.
  - apply sum_squares_above. nra.
  - apply sum_squares_above. nra.
  - apply sum_squares_above. nra.
Qed.

(** X3: whatever [np.random.rand] returns, two instances of the same class
    (indices with the same half [i // 2]) are closer than 0.35 in [w],
    and two instances of different classes are farther apart than 0.4. *)
Theorem classes_are_separated :
  forall (u1 u2 : np.matrix) (i j : nat),
    random.rand (n_instances / 2) 3 u1 ->
    random.rand (n_instances / 2) 3 u2 ->
    (i < n_instances)%nat -> (j < n_instances)%nat ->
    let m := w (data u1 u2) in
    ((i / 2 = j / 2)%nat -> np.get m i j < 0.35) /\
    ((i / 2 <> j / 2)%nat -> 0.4 < np.get m i j).
Proof.
  intros u1 u2 i j H1 H2 Hi Hj m.
  destruct (distance_bounds u1 u2 H1 H2)
    as (H01 & H23 & H02 & H03 & H12 & H13).
  fold m in H01, H23, H02, H03, H12, H13.
  assert (Hsym : forall a b, (a < n_instances)%nat -> (b < n_instances)%nat ->
                             np.get m a b = np.get m b a).
  { intros a b Ha Hb. unfold m, w.
    rewrite !pairwise_distances_get by assumption. apply distance_sym. }
  assert (Hself : forall a, (a < n_instances)%nat -> np.get m a a = 0).
  { intros a Ha. unfold m, w.
    rewrite pairwise_distances_get by assumption. apply distance_self. }
  unfold n_instances in Hi, Hj, Hsym, Hself.
  do 4 (destruct i as [| i];
        [do 4 (destruct j as [| j];
               [split; intros Hc; vm_compute in Hc;
                first [ congruence
                      | lra
                      | rewrite Hself by lia; lra
                      | rewrite Hsym by lia; lra ] |]);
         lia |]).
  lia.
Qed.

(** Draws at the two ends of each class's box. *)
Lemma classes_are_separated_witness :
  let u := [[0; 0; 0]; [0.5; 0.5; 0.5]] in
  random.rand (n_instances / 2) 3 u /\
  np.get (w (data u u)) 1 0 < 0.35 /\ 0.4 < np.get (w (data u u)) 3 1.
Proof.
  intros u.
  assert (Hu : random.rand (n_instances / 2) 3 u).
  { split; [split; [reflexivity | repeat constructor] |].
    repeat (apply Forall_cons;
            [repeat (apply Forall_cons; [lra |]); apply Forall_nil |]).
    apply Forall_nil. }
  split; [exact Hu |]. split.
  - apply (classes_are_separated u u 1 0 Hu Hu);
      [unfold n_instances; lia .. | reflexivity].
  - apply (classes_are_separated u u 3 1 Hu Hu);
      [unfold n_instances; lia .. | cbn; lia].
Defined.

Ltac expose_energy :=
  unfold coupling_energy, value;
  cbn [map np.sum fold_right fst snd nth
       edges n_instances flat_map range seq Nat.sub Nat.add app].

(** With the two classes that far apart, the two assignments that split
    them are the only ones of minimum energy. *)
Lemma separated_minimum (m : np.matrix) sigma :
  np.get m 0 1 < 0.35 -> np.get m 2 3 < 0.35 ->
  0.4 < np.get m 0 2 -> 0.4 < np.get m 0 3 ->
  0.4 < np.get m 1 2 -> 0.4 < np.get m 1 3 ->
  minimum_energy (ising m) sigma <->
  sigma = [1; 1; -1; -1]%Z \/ sigma = [-1; -1; 1; 1]%Z.
Proof.
  intros H01 H23 H02 H03 H12 H13.
  assert (Hclass : assignment SPIN n_instances [1; 1; -1; -1]%Z).
  { split; [reflexivity |].
    repeat (apply Forall_cons; [simpl; auto |]). apply Forall_nil. }
  assert (Hclass' : assignment SPIN n_instances [-1; -1; 1; 1]%Z).
  { split; [reflexivity |].
    repeat (apply Forall_cons; [simpl; auto |]). apply Forall_nil. }
  unfold minimum_energy. split.
  - intros [Hs Hbest].
    specialize (Hbest _ Hclass).
    rewrite !ModelFacts.energy_is_coupling_energy in Hbest.
    destruct (ModelFacts.spin_cases sigma Hs)
      as (a & b & c & d & -> & Ha & Hb & Hc & Hd).
    revert Hbest. expose_energy.
    destruct Ha as [-> | ->], Hb as [-> | ->], Hc as [-> | ->],
          Hd as [-> | ->]; intros Hbest; auto; exfalso; lra.
  - intros Hsig.
    split; [destruct Hsig as [-> | ->]; assumption |].
    intros tau Ht. rewrite !ModelFacts.energy_is_coupling_energy.
    destruct (ModelFacts.spin_cases tau Ht)
      as (a & b & c & d & -> & Ha & Hb & Hc & Hd).
    destruct Hsig as [-> | ->]; expose_energy;
      destruct Ha as [-> | ->], Hb as [-> | ->], Hc as [-> | ->],
            Hd as [-> | ->]; lra.
Qed.

(** X4: whatever [np.random.rand] returns, the model handed to the annealer
    has exactly two assignments of minimum energy, the ones that put
    instances 0 and 1 on one side and instances 2 and 3 on the other: the
    samples [{0: 1, 1: 1, 2: -1, 3: -1}] and [{0: -1, 1: -1, 2: 1, 3: 1}]. *)
Theorem annealer_ground_states_are_the_classes :
  forall u1 u2 : np.matrix,
    random.rand (n_instances / 2) 3 u1 ->
    random.rand (n_instances / 2) 3 u2 ->
    exists m,
      model (w (data u1 u2)) = Ok m /\
      forall sigma,
        minimum_energy m sigma <->
        sigma = [1; 1; -1; -1]%Z \/ sigma = [-1; -1; 1; 1]%Z.
Proof.
  intros u1 u2 H1 H2. exists (ising (w (data u1 u2))).
  split; [apply ModelFacts.model_built |].
  intros sigma.
  destruct (distance_bounds u1 u2 H1 H2) as (H01 & H23 & H02 & H03 & H12 & H13).
  now apply separated_minimum.
Qed.

Lemma annealer_ground_states_are_the_classes_witness :
  let u := [[0; 0; 0]; [0.5; 0.5; 0.5]] in
  random.rand (n_instances / 2) 3 u /\
  exists m, model (w (data u u)) = Ok m /\
            minimum_energy m [1; 1; -1; -1]%Z.
Proof.
  intros u.
  assert (Hu : random.rand (n_instances / 2) 3 u).
  { split; [split; [reflexivity | repeat constructor] |].
    repeat (apply Forall_cons;
            [repeat (apply Forall_cons; [lra |]); apply Forall_nil |]).
    apply Forall_nil. }
  split; [exact Hu |].
  destruct (annealer_ground_states_are_the_classes u u Hu Hu)
    as (m & Hm & Hmin).
  exists m. split; [exact Hm |]. apply Hmin. now left.
Defined.

End SeparationFacts.

Module DistanceFacts.
Import builtins Clustering ArrayFacts.

(** X5: the entries of [w] are never negative, and the entry of two
    instances that are the same point is zero, off the diagonal as well
    as on it. *)
Theorem distances_are_nonnegative :
  forall (data : np.matrix) (d i j : nat),
    np.shape data n_instances d ->
    (i < n_instances)%nat -> (j < n_instances)%nat ->
    0 <= np.get (w data) i j /\
    (nth i data [] = nth j data [] ->
     np.get (w data) i j = 0 /\ np.get (w data) j i = 0).
Proof.
  intros data d i j Hshape Hi Hj. unfold w.
  rewrite !pairwise_distances_get by assumption.
  unfold distance, np.norm. split; [apply sqrt_pos |].
  intros ->. rewrite sub_squares_self. split; apply sqrt_0.
Qed.

(** Two draws that repeat a point. *)
Lemma distances_are_nonnegative_witness :
  let ds := data [[0; 0; 0]; [0; 0; 0]] [[0; 0; 0]; [0.5; 0.5; 0.5]] in
  np.shape ds n_instances 3 /\
  np.get (w ds) 0 1 = 0 /\ 0 <= np.get (w ds) 2 3.
Proof.
  intros ds.
  assert (Hs : np.shape ds n_instances 3).
  { split; [reflexivity |]. repeat constructor. }
  split; [exact Hs |]. split.
  - destruct (distances_are_nonnegative ds 3 0 1 Hs) as [_ Hzero];
      [unfold n_instances; lia .. |].
    now destruct Hzero.
  - now destruct (distances_are_nonnegative ds 3 2 3 Hs) as [Hpos _];
      [unfold n_instances; lia .. |].
Defined.

End DistanceFacts.

(** * Facts about the estimate of the partition function *)

Module PartitionFacts.
Import dimod MarkovNetwork PartitionEstimate.

Lemma R_eqb_eq a b : R_eqb a b = true <-> a = b.
Proof.
  unfold R_eqb. destruct (Req_dec_T a b); split; auto; discriminate.
Qed.

Lemma count_nil E : count [] E = [(E, 1%nat)].
Proof. reflexivity. Qed.

Lemma count_cons E' k d E :
  count ((E', k) :: d) E
  = if R_eqb E' E then (E', (k + 1)%nat) :: d
    else (E', k) :: count d E.
Proof.
  unfold count. cbn [lookup setitem].
  destruct (R_eqb E' E); [reflexivity |].
  destruct (lookup R_eqb d E); reflexivity.
Qed.

(** Weight of a table of degen. *)
Lemma keys_count d E key :
  In key (map fst (count d E)) <-> key = E \/ In key (map fst d).
Proof.
  induction d as [| [E' k] d IH].
  - rewrite count_nil. cbn [map fst In]. intuition.
  - rewrite count_cons. destruct (R_eqb E' E) eqn:He.
    + apply R_eqb_eq in He. subst. cbn [map fst In]. intuition.
    + cbn [map fst In]. rewrite IH. intuition.
Qed.

Lemma NoDup_count d E :
  NoDup (map fst d) -> NoDup (map fst (count d E)).
Proof.
  induction d as [| [E' k] d IH]; intros Hnd.
  - rewrite count_nil. cbn [map fst]. repeat constructor. intros [].
  - rewrite count_cons. inversion Hnd as [| ? ? Hnotin Hnd']; subst.
    destruct (R_eqb E' E) eqn:He.
    + cbn [map fst]. now constructor.
    + cbn [map fst]. constructor; [| now apply IH].
      rewrite keys_count. intros [-> | Hin]; [| contradiction].
      assert (R_eqb E E = true) by now apply R_eqb_eq.
      congruence.
Qed.

Lemma NoDup_degen energies : NoDup (map fst (degen energies)).
Proof.
  unfold degen.
  assert (Hgen : forall d, NoDup (map fst d) ->
                           NoDup (map fst (fold_left count energies d))).
  { induction energies as [| E energies IH]; intros d Hd; [exact Hd |].
    cbn [fold_left]. apply IH. now apply NoDup_count. }
  apply Hgen. constructor.
Qed.

Lemma lookup_own (d : dict R nat) :
  NoDup (map fst d) ->
  forall e, In e d -> lookup R_eqb d (fst e) = Some (snd e).
Proof.
  induction d as [| [E' k] d IH]; intros Hnd e Hin; [contradiction |].
  inversion Hnd as [| ? ? Hnotin Hnd']; subst. cbn [lookup].
  destruct Hin as [<- | Hin].
  - cbn [fst snd]. assert (H : R_eqb E' E' = true) by now apply R_eqb_eq.
    now rewrite H.
  - destruct (R_eqb E' (fst e)) eqn:He.
    + apply R_eqb_eq in He. subst. exfalso. apply Hnotin.
      now apply in_map.
    + now apply IH.
Qed.

Lemma probabilities_entries energies :
  probabilities energies
  = map (fun e => INR (snd e) * exp (- fst e / temperature))
        (degen energies).
Proof.
  unfold probabilities. cbv zeta. rewrite map_map.
  apply map_ext_in. intros e He.
  now rewrite (lookup_own _ (NoDup_degen energies) e He).
Qed.

Lemma weight_count d E :
  np.sum (map (fun e => INR (snd e) * exp (- fst e / temperature))
              (count d E))
  = np.sum (map (fun e => INR (snd e) * exp (- fst e / temperature)) d)
    + exp (- E / temperature).
Proof.
  induction d as [| [E' k] d IH].
  - rewrite count_nil. cbn [map np.sum fold_right fst snd INR]. ring.
  - rewrite count_cons. destruct (R_eqb E' E) eqn:He.
    + apply R_eqb_eq in He. subst.
      cbn [map np.sum fold_right fst snd]. rewrite plus_INR. cbn [INR]. ring.
    + cbn [map np.sum fold_right fst snd]. unfold np.sum in IH. rewrite IH.
      ring.
Qed.

Lemma Z_is_a_plain_sum energies :
  Z energies = np.sum (map (fun E => exp (- E / temperature)) energies).
Proof.
  unfold Z. rewrite probabilities_entries. unfold degen.
  assert (Hgen : forall d,
    np.sum (map (fun e => INR (snd e) * exp (- fst e / temperature))
                (fold_left count energies d))
    = np.sum (map (fun e => INR (snd e) * exp (- fst e / temperature)) d)
      + np.sum (map (fun E => exp (- E / temperature)) energies)).
  { induction energies as [| E energies IH]; intros d.
    - unfold np.sum. cbn [fold_left map fold_right]. lra.
    - cbn [fold_left map]. rewrite IH, weight_count.
      unfold np.sum. cbn [fold_right]. lra. }
  rewrite Hgen. unfold np.sum. cbn [map fold_right]. lra.
Qed.

(** X6: the table [degen] of Exercise 4 makes [Z] the sum of
    [exp(-E/temperature)] over the solutions it was fed, each solution
    counted once, whatever their energies and order. *)
Theorem partition_estimate_sums_the_samples :
  forall energies : list R,
    NoDup (map fst (degen energies)) /\
    (forall E, In E (map fst (degen energies)) <-> In E energies) /\
    Z energies = np.sum (map (fun E => exp (- E / temperature)) energies).
Proof.
  intros energies. split; [apply NoDup_degen |].
  split; [| apply Z_is_a_plain_sum].
  intros E. unfold degen.
  assert (Hgen : forall d,
    In E (map fst (fold_left count energies d))
    <-> In E (map fst d) \/ In E energies).
  { induction energies as [| E0 energies IH]; intros d.
    - cbn [fold_left In]. intuition.
    - cbn [fold_left In]. rewrite IH, keys_count. intuition. }
  rewrite Hgen. cbn [map In]. intuition.
Qed.

Section Sums.
Context {A : Type} (f : A -> R).
Hypothesis f_nonneg : forall a, 0 <= f a.

Lemma sum_app (l1 l2 : list A) :
  np.sum (map f (l1 ++ l2)) = np.sum (map f l1) + np.sum (map f l2).
Proof.
  induction l1 as [| a l1 IH]; unfold np.sum in *; cbn [app map fold_right].
  - lra.
  - rewrite IH. lra.
Qed.

(** A sum over distinct elements of a list is at most the sum over the
    list. *)
Lemma sum_sublist (l : list A) : forall l',
  NoDup l -> incl l l' -> np.sum (map f l) <= np.sum (map f l').
Proof.
  induction l as [| a l IH]; intros l' Hnd Hincl.
  - unfold np.sum. cbn [map fold_right].
    induction l' as [| b l' IH']; cbn [map fold_right]; [lra |].
    specialize (f_nonneg b).
    assert (0 <= fold_right Rplus 0 (map f l')).
    { apply IH'. intros x []. }
    lra.
  - inversion Hnd as [| ? ? Hnotin Hnd']; subst.
    destruct (in_split a l') as (l1 & l2 & ->); [apply Hincl; now left |].
    rewrite sum_app. cbn [map].
    assert (Hrest : np.sum (map f l) <= np.sum (map f (l1 ++ l2))).
    { apply IH; [assumption |]. intros x Hx.
      assert (Hx' : In x (l1 ++ a :: l2)) by (apply Hincl; now right).
      apply in_app_or in Hx'. apply in_or_app.
      destruct Hx' as [Hx' | [-> | Hx']]; auto. contradiction. }
    rewrite sum_app in Hrest. unfold np.sum in *. cbn [fold_right]. lra.
Qed.

End Sums.

Lemma binary_configuration s :
  assignment BINARY n_variables s -> In s configurations.
Proof.
  intros [Hlen Hall].
  destruct s as [| a [| b [| c [| d [|]]]]]; try discriminate Hlen.
  inversion Hall as [| ? ? Ha Hall1]; subst.
  inversion Hall1 as [| ? ? Hb Hall2]; subst.
  inversion Hall2 as [| ? ? Hc Hall3]; subst.
  inversion Hall3 as [| ? ? Hd _]; subst.
  cbn [admissible] in *.
  destruct Ha as [-> | ->], Hb as [-> | ->], Hc as [-> | ->], Hd as [-> | ->];
    cbn; auto 20.
Qed.

Lemma NoDup_configurations : NoDup configurations.
Proof.
  cbn. repeat (constructor; [cbn; intuition discriminate |]). constructor.
Qed.

Lemma partition_over_configurations m :
  partition m temperature
  = np.sum (map (fun s => exp (- energy m s / temperature)) configurations).
Proof.
  unfold partition, over, weight, configurations, np.sum.
  cbn [flat_map map app fold_right]. ring.
Qed.

Lemma estimate_sum m samples :
  estimate m samples
  = np.sum (map (fun s => exp (- energy m s / temperature)) samples).
Proof.
  unfold estimate. rewrite Z_is_a_plain_sum, map_map. reflexivity.
Qed.

(** X7: fed the distinct samples of a response, Exercise 4 never
    overestimates: [Z] is at most the partition function of the model at
    [temperature], and it is the partition function as soon as all sixteen
    configurations were sampled. *)
Theorem partition_estimate_is_a_lower_bound :
  forall (m : BinaryQuadraticModel) (samples : list sample),
    NoDup samples ->
    Forall (assignment BINARY n_variables) samples ->
    0 <= estimate m samples <= partition m temperature /\
    (length samples = 16%nat -> estimate m samples = partition m temperature).
Proof.
  intros m samples Hnd Hall.
  assert (Hincl : incl samples configurations).
  { intros s Hs. rewrite Forall_forall in Hall.
    now apply binary_configuration, Hall. }
  assert (Hpos : forall s : sample, 0 <= exp (- energy m s / temperature))
    by (intros s; left; apply exp_pos).
  rewrite estimate_sum, partition_over_configurations.
  split; [split |].
  - apply (sum_sublist _ Hpos [] samples); [constructor | intros x []].
  - now apply sum_sublist.
  - intros Hlen. apply Rle_antisym; [now apply sum_sublist |].
    apply sum_sublist; [assumption | apply NoDup_configurations |].
    apply NoDup_length_incl; [assumption | rewrite Hlen; cbn; lia | assumption].
Qed.

(** Two distinct samples of the network of Exercise 1. *)
Lemma partition_estimate_is_a_lower_bound_witness :
  let samples := [[0; 0; 0; 0]; [1; 1; 0; 0]]%Z in
  NoDup samples /\
  estimate network samples <= partition network temperature.
Proof.
  intros samples.
  assert (Hnd : NoDup samples).
  { constructor; [| constructor; [intros [] | constructor]].
    intros [H | []]. discriminate H. }
  split; [exact Hnd |].
  apply (partition_estimate_is_a_lower_bound network samples Hnd).
  repeat (apply Forall_cons;
          [split; [reflexivity |];
           repeat (apply Forall_cons; [simpl; auto |]); apply Forall_nil |]).
  apply Forall_nil.
Defined.

End PartitionFacts.

(** * Facts about the graph of the Markov network *)

Module GraphFacts.
Import Runner dimod networkx MarkovNetwork.

Lemma mem_In n l : mem n l = true <-> In n l.
Proof.
  unfold mem. rewrite existsb_exists. split.
  - intros (x & Hx & Heq). apply Nat.eqb_eq in Heq. now subst.
  - intros Hin. exists n. split; [assumption | apply Nat.eqb_refl].
Qed.

Section Adjacency.
Context {V : Type}.

Lemma lookup_setitem_eq (d : dict nat V) k v :
  lookup Nat.eqb (setitem Nat.eqb d k v) k = Some v.
Proof.
  induction d as [| [k' v'] d IH]; cbn [setitem lookup].
  - now rewrite Nat.eqb_refl.
  - destruct (Nat.eqb k' k) eqn:He; cbn [lookup]; now rewrite He.
Qed.

Lemma lookup_setitem_neq (d : dict nat V) k k' v :
  k <> k' -> lookup Nat.eqb (setitem Nat.eqb d k v) k' = lookup Nat.eqb d k'.
Proof.
  intros Hne. induction d as [| [k0 v0] d IH]; cbn [setitem lookup].
  - apply Nat.eqb_neq in Hne. now rewrite Hne.
  - destruct (Nat.eqb_spec k0 k) as [-> | Hk]; cbn [lookup].
    + apply Nat.eqb_neq in Hne. now rewrite Hne.
    + now rewrite IH.
Qed.

Lemma lookup_None (d : dict nat V) k :
  lookup Nat.eqb d k = None <-> ~ In k (map fst d).
Proof.
  induction d as [| [k' v'] d IH]; cbn [lookup map fst In]; [tauto |].
  destruct (Nat.eqb_spec k' k) as [-> | Hk].
  - split; [discriminate | intros H; exfalso; auto].
  - rewrite IH. tauto.
Qed.

Lemma keys_setitem (d : dict nat V) k v :
  map fst (setitem Nat.eqb d k v)
  = if mem k (map fst d) then map fst d else map fst d ++ [k].
Proof.
  induction d as [| [k' v'] d IH]; [reflexivity |].
  cbn [setitem map fst]. unfold mem in *. cbn [existsb].
  rewrite (Nat.eqb_sym k k').
  destruct (Nat.eqb k' k); [reflexivity |].
  cbn [map fst orb]. rewrite IH.
  now destruct (existsb (Nat.eqb k) (map fst d)).
Qed.

End Adjacency.

Lemma nodes_add_node G n :
  nodes (add_node G n) = if mem n (nodes G) then nodes G else nodes G ++ [n].
Proof.
  unfold add_node, nodes.
  destruct (lookup Nat.eqb G n) as [l |] eqn:Hl.
  - assert (Hin : In n (map fst G)).
    { destruct (in_dec Nat.eq_dec n (map fst G)) as [Hin | Hout];
        [assumption |].
      apply lookup_None in Hout. congruence. }
    apply mem_In in Hin. now rewrite Hin.
  - apply keys_setitem.
Qed.

Lemma neighbors_add_node G n u : neighbors (add_node G n) u = neighbors G u.
Proof.
  unfold add_node, neighbors.
  destruct (lookup Nat.eqb G n) as [l |] eqn:Hl; [reflexivity |].
  destruct (Nat.eq_dec n u) as [-> | Hne].
  - now rewrite lookup_setitem_eq, Hl.
  - now rewrite lookup_setitem_neq.
Qed.

Lemma nodes_link G u v : In u (nodes G) -> nodes (link G u v) = nodes G.
Proof.
  intros Hin. unfold link, nodes in *.
  destruct (mem v (neighbors G u)); [reflexivity |].
  rewrite keys_setitem. apply mem_In in Hin. now rewrite Hin.
Qed.

Lemma neighbors_link G a b u v :
  In v (neighbors (link G a b) u)
  <-> In v (neighbors G u) \/ (u = a /\ v = b).
Proof.
  unfold link. destruct (mem b (neighbors G a)) eqn:Hmem.
  - apply mem_In in Hmem. split; [auto |].
    intros [Hin | [-> ->]]; assumption.
  - unfold neighbors at 1.
    destruct (Nat.eq_dec a u) as [-> | Hne].
    + rewrite lookup_setitem_eq, in_app_iff. cbn [In].
      split; [intros [H | [<- | []]]; auto | intros [H | [_ ->]]; auto].
    + rewrite lookup_setitem_neq by assumption.
      fold (neighbors G u). split; [auto |].
      intros [H | [-> _]]; [assumption | contradiction].
Qed.

Lemma neighbors_add_edge G e u v :
  In v (neighbors (add_edge G e) u)
  <-> In v (neighbors G u) \/ e = (u, v) \/ e = (v, u).
Proof.
  destruct e as [a b]. unfold add_edge. cbn [fst snd].
  rewrite !neighbors_link, !neighbors_add_node.
  split.
  - intros [[H | [-> ->]] | [-> ->]]; auto.
  - intros [H | [[= -> ->] | [= -> ->]]]; auto.
Qed.

Lemma neighbors_add_edges es : forall G u v,
  In v (neighbors (add_edges_from G es) u)
  <-> In v (neighbors G u) \/ In (u, v) es \/ In (v, u) es.
Proof.
  unfold add_edges_from.
  induction es as [| e es IH]; intros G u v; cbn [fold_left In].
  - tauto.
  - rewrite IH, neighbors_add_edge. tauto.
Qed.

Lemma neighbors_add_nodes ns : forall G u,
  neighbors (add_nodes_from G ns) u = neighbors G u.
Proof.
  unfold add_nodes_from.
  induction ns as [| n ns IH]; intros G u; cbn [fold_left]; [reflexivity |].
  now rewrite IH, neighbors_add_node.
Qed.

Lemma nodes_add_nodes ns : forall G,
  NoDup (nodes G ++ ns) -> nodes (add_nodes_from G ns) = nodes G ++ ns.
Proof.
  unfold add_nodes_from.
  induction ns as [| n ns IH]; intros G Hnd; cbn [fold_left].
  - now rewrite app_nil_r.
  - assert (Hout : mem n (nodes G) = false).
    { destruct (mem n (nodes G)) eqn:Hm; [| reflexivity].
      apply mem_In in Hm. apply NoDup_remove_2 in Hnd.
      exfalso. apply Hnd. apply in_or_app. now left. }
    rewrite IH; rewrite nodes_add_node, Hout.
    + now rewrite <- app_assoc.
    + now rewrite <- app_assoc.
Qed.

Lemma nodes_add_edge G e :
  In (fst e) (nodes G) -> In (snd e) (nodes G) ->
  nodes (add_edge G e) = nodes G.
Proof.
  intros Hu Hv. unfold add_edge.
  assert (Hn : nodes (add_node (add_node G (fst e)) (snd e)) = nodes G).
  { rewrite nodes_add_node.
    assert (H1 : nodes (add_node G (fst e)) = nodes G).
    { rewrite nodes_add_node. apply mem_In in Hu. now rewrite Hu. }
    rewrite H1. apply mem_In in Hv. now rewrite Hv. }
  rewrite nodes_link.
  - rewrite nodes_link; [exact Hn | now rewrite Hn].
  - rewrite nodes_link; now rewrite Hn.
Qed.

Lemma nodes_add_edges es : forall G,
  Forall (fun e => In (fst e) (nodes G) /\ In (snd e) (nodes G)) es ->
  nodes (add_edges_from G es) = nodes G.
Proof.
  unfold add_edges_from.
  induction es as [| e es IH]; intros G Hes; cbn [fold_left]; [reflexivity |].
  inversion Hes as [| ? ? [Hu Hv] Hrest]; subst.
  rewrite IH; rewrite nodes_add_edge by assumption; [reflexivity |].
  exact Hrest.
Qed.

(** X22: the graph of Exercise 2 has the structure of the model, for every
    model whose interactions are between its variables: its nodes are the
    variables, in their order, and two nodes are joined exactly when the
    model couples them. *)
Theorem graph_has_the_structure_of_the_model :
  forall m : BinaryQuadraticModel,
    NoDup (map fst (linear m)) ->
    Forall (fun e => In (fst e) (map fst (linear m)) /\
                     In (snd e) (map fst (linear m)))
           (map fst (quadratic m)) ->
    nodes (MarkovGraph.G m) = map fst (linear m) /\
    forall u v, has_edge (MarkovGraph.G m) u v = true <-> coupled m u v.
Proof.
  intros m Hnd Hends. unfold MarkovGraph.G.
  assert (Hnodes : nodes (add_nodes_from empty (map fst (linear m)))
                   = map fst (linear m)).
  { rewrite nodes_add_nodes; [reflexivity | exact Hnd]. }
  split.
  - rewrite nodes_add_edges; [exact Hnodes | now rewrite Hnodes].
  - intros u v. unfold has_edge, coupled.
    rewrite mem_In, neighbors_add_edges, neighbors_add_nodes.
    unfold neighbors, empty. cbn [lookup In]. tauto.
Qed.

(** The network of Exercise 1. *)
Lemma graph_has_the_structure_of_the_model_witness :
  nodes (MarkovGraph.G network) = [0; 1; 2; 3]%nat /\
  has_edge (MarkovGraph.G network) 2 1 = true.
Proof.
  assert (Hnd : NoDup (map fst (linear network))).
  { cbn. repeat (constructor; [cbn; lia |]). constructor. }
  destruct (graph_has_the_structure_of_the_model network Hnd) as [Hn He].
  - cbn. repeat (constructor; [cbn; lia |]). constructor.
  - split; [exact Hn |]. apply He. right. cbn. auto.
Defined.

(** X23: on the model of Exercise 1 the graph has the nodes 0 to 3 and the
    edges (0, 1) and (1, 2), each listed once from its lower end, node 3
    is isolated, and the grading cell of Exercise 2 passes.  The edges
    handed to the embedding of Exercise 3 mention three nodes. *)
Theorem exercise2_graph :
  exists m,
    MarkovNetwork.model = Ok m /\
    nodes (MarkovGraph.G m) = [0; 1; 2; 3]%nat /\
    edges (MarkovGraph.G m) = [(0, 1); (1, 2)]%nat /\
    neighbors (MarkovGraph.G m) 3 = [] /\
    MarkovGraph.exercise2_check (MarkovGraph.G m) = Ok tt /\
    nodup Nat.eq_dec
          (flat_map (fun e => [fst e; snd e]) (edges (MarkovGraph.G m)))
    = [0; 1; 2]%nat.
Proof.
  exists network. split; [apply ModelFacts.network_built |].
  repeat split.
Qed.

End GraphFacts.

(** * Facts about the gates, on every state of the register *)

Module GateFacts.
Import Amplitude.

Lemma flip_flip i k : QC.flip (QC.flip i k) k = i.
Proof.
  unfold QC.flip. now rewrite Nat.lxor_assoc, Nat.lxor_nilpotent, Nat.lxor_0_r.
Qed.

Lemma flip_below n i k :
  (i < 2 ^ n)%nat -> (k < n)%nat -> (QC.flip i k < 2 ^ n)%nat.
Proof.
  intros Hi Hk. unfold QC.flip.
  destruct (Nat.eq_dec (Nat.lxor i (2 ^ k)) 0) as [-> | Hne].
  - apply Nat.neq_0_lt_0, Nat.pow_nonzero. lia.
  - apply Nat.log2_lt_pow2; [lia |].
    eapply Nat.le_lt_trans; [apply Nat.log2_lxor |].
    apply Nat.max_lub_lt.
    + destruct (Nat.eq_dec i 0) as [-> | Hi0].
      * rewrite Nat.log2_nonpos by lia. lia.
      * apply Nat.log2_lt_pow2; lia.
    + rewrite Nat.log2_pow2 by lia. lia.
Qed.

Lemma length_tabulate f s : length (QC.tabulate f s) = length s.
Proof. unfold QC.tabulate. now rewrite length_map, length_seq. Qed.

Lemma amp_tabulate f s i :
  (i < length s)%nat -> QC.amp (QC.tabulate f s) i = f i.
Proof.
  intros Hi. unfold QC.amp, QC.tabulate.
  rewrite (nth_indep _ C0 (f 0%nat)) by (now rewrite length_map, length_seq).
  now rewrite map_nth, seq_nth.
Qed.

Lemma tabulate_amp s : QC.tabulate (QC.amp s) s = s.
Proof.
  apply nth_ext with (d := C0) (d' := C0).
  - apply length_tabulate.
  - intros i Hi. rewrite length_tabulate in Hi.
    now apply (amp_tabulate (QC.amp s) s i).
Qed.

Lemma tabulate_ext f g s :
  (forall i, (i < length s)%nat -> f i = g i) ->
  QC.tabulate f s = QC.tabulate g s.
Proof.
  intros Hfg. unfold QC.tabulate. apply map_ext_in.
  intros i Hi. apply in_seq in Hi. apply Hfg. lia.
Qed.

Lemma mix_X k s i : QC.mix QC.X_matrix k s i = QC.amp s (QC.flip i k).
Proof.
  unfold QC.mix, QC.X_matrix.
  destruct (QC.amp s (QC.flip i k)) as [u v], (QC.amp s i) as [u' v'].
  destruct (QC.bit i k); unfold Cplus, Cmult, C0, C1; cbn [fst snd];
    f_equal; ring.
Qed.

(** X8: applying [x] twice to the same qubit gives back the state, for
    every register size, qubit of the register and state. *)
Theorem x_twice_is_identity :
  forall (n q : nat) (s : QC.statevector),
    length s = (2 ^ n)%nat -> (q < n)%nat ->
    QC.run [QC.x q; QC.x q] s = s.
Proof.
  intros n q s Hlen Hq. unfold QC.run. cbn [fold_left QC.apply_gate].
  unfold QC.apply_1q.
  rewrite (tabulate_ext _ (fun i => QC.amp s i)).
  - unfold QC.tabulate at 1. rewrite length_tabulate. apply tabulate_amp.
  - intros i Hi. rewrite length_tabulate in Hi.
    rewrite mix_X, amp_tabulate.
    + now rewrite mix_X, flip_flip.
    + rewrite Hlen in *. now apply flip_below.
Qed.

(** The circuit of the notebook: one qubit, [x] applied twice. *)
Lemma x_twice_is_identity_witness :
  QC.final_state Evolution.circuit = QC.zero_state 1.
Proof.
  apply (x_twice_is_identity 1 0 (QC.zero_state 1)); [reflexivity | lia].
Defined.

End GateFacts.

(** * Facts about the circuit of the matrix-inversion notebook *)

Module HHLFacts.
Import Amplitude CircuitFacts MatrixInversion Register.

(** A state of the four-qubit register, entry by entry. *)
Ltac entries s Hlen :=
  do 16 (destruct s as [| [? ?] s]; [discriminate Hlen |]);
  destruct s; [clear Hlen | discriminate Hlen].

Ltac by_entries :=
  let s := fresh "s" in
  let Hlen := fresh "Hlen" in
  intros s Hlen; entries s Hlen; gate_eq.

Lemma h1_h1 : forall s, length s = 16%nat ->
  QC.apply_gate (QC.h 1) (QC.apply_gate (QC.h 1) s) = s.
Proof. by_entries. Qed.

Lemma h2_h2 : forall s, length s = 16%nat ->
  QC.apply_gate (QC.h 2) (QC.apply_gate (QC.h 2) s) = s.
Proof. by_entries. Qed.

Lemma swap_swap : forall s, length s = 16%nat ->
  QC.apply_gate (QC.swap 1 2) (QC.apply_gate (QC.swap 1 2) s) = s.
Proof. by_entries. Qed.

Lemma cz_cz : forall s, length s = 16%nat ->
  QC.apply_gate (QC.cz 2 3) (QC.apply_gate (QC.cz 2 3) s) = s.
Proof. by_entries. Qed.

Lemma h1_h2 : forall s, length s = 16%nat ->
  QC.apply_gate (QC.h 1) (QC.apply_gate (QC.h 2) s)
  = QC.apply_gate (QC.h 2) (QC.apply_gate (QC.h 1) s).
Proof. by_entries. Qed.

Lemma x3_h1 : forall s, length s = 16%nat ->
  QC.apply_gate (QC.h 1) (QC.apply_gate (QC.x 3) s)
  = QC.apply_gate (QC.x 3) (QC.apply_gate (QC.h 1) s).
Proof. by_entries. Qed.

Lemma x3_h2 : forall s, length s = 16%nat ->
  QC.apply_gate (QC.h 2) (QC.apply_gate (QC.x 3) s)
  = QC.apply_gate (QC.x 3) (QC.apply_gate (QC.h 2) s).
Proof. by_entries. Qed.

Lemma cos_minus_half_pi : cos (- PI / 2) = 0.
Proof.
  replace (- PI / 2) with (- (PI / 2)) by field.
  rewrite cos_neg. apply cos_PI2.
Qed.

Lemma sin_minus_half_pi : sin (- PI / 2) = -1.
Proof.
  replace (- PI / 2) with (- (PI / 2)) by field.
  rewrite sin_neg, sin_PI2. reflexivity.
Qed.

Lemma cu1_cu1 : forall s, length s = 16%nat ->
  QC.apply_gate (QC.cu1 (PI / 2) 1 2) (QC.apply_gate (QC.cu1 (- PI / 2) 1 2) s)
  = s.
Proof.
  intros s Hlen. entries s Hlen. eval_state.
  rewrite cos_minus_half_pi, sin_minus_half_pi, cos_PI2, sin_PI2.
  split_state; ring.
Qed.

Ltac sized := rewrite ?apply_gate_length; assumption.

(** X9: without the two controlled rotations, the circuit of Exercises 1
    to 5 acts on every state of the register as [x] on qubit 3 alone: the
    gates of Exercise 5 undo, one by one, the Hadamards of Exercise 1, the
    gates of Exercises 2 and 3 and the swap of Exercise 4. *)
Theorem uncompute_inverts_phase_estimation :
  forall s : QC.statevector,
    length s = 16%nat ->
    QC.run (exercise1_gates ++ exercise2_gates ++ exercise3_gates
            ++ firstn 1 exercise4_gates ++ exercise5_gates) s
    = QC.apply_gate (QC.x 3) s.
Proof.
  intros s Hlen.
  unfold exercise1_gates, exercise2_gates, exercise3_gates, exercise4_gates,
    exercise5_gates.
  cbn [app firstn]. unfold QC.run. cbn [fold_left].
  rewrite swap_swap by sized.
  rewrite h1_h1 by sized.
  rewrite cu1_cu1 by sized.
  rewrite h2_h2 by sized.
  rewrite swap_swap by sized.
  rewrite cz_cz by sized.
  rewrite x3_h1 by sized.
  rewrite x3_h2 by sized.
  rewrite h1_h2 by sized.
  rewrite h1_h1 by sized.
  rewrite h2_h2 by sized.
  reflexivity.
Qed.

Lemma uncompute_inverts_phase_estimation_witness :
  QC.run (exercise1_gates ++ exercise2_gates ++ exercise3_gates
          ++ firstn 1 exercise4_gates ++ exercise5_gates) (QC.zero_state 4)
  = QC.ket 4 [(8%nat, C1)].
Proof.
  rewrite (uncompute_inverts_phase_estimation (QC.zero_state 4));
    [| reflexivity].
  gate_eq.
Defined.

(** X10: the circuit of Exercises 1 to 5 on any superposition of the
    basis states 0 and 8 (qubit 3 clear or set, the other qubits clear):
    the two amplitudes change places, and the one that ends on qubit 3 is
    rotated onto the ancilla by the angle that passes the grading cell of
    Exercise 5. *)
Theorem hhl_on_superposition (a b : C) :
  QC.run all_gates (QC.ket 4 [(0, a); (8, b)]%nat)
  = QC.ket 4 [(0, b); (8, Cscale (cos half_angle) a);
              (9, Cscale (sin half_angle) a)]%nat.
Proof.
  destruct a as [a1 a2], b as [b1 b2].
  unfold all_gates, rotation_gates, exercise1_gates, exercise2_gates,
    exercise3_gates, exercise4_gates, exercise5_gates. cbn [app].
  set (r := / sqrt 2). set (c := cos half_angle). set (s := sin half_angle).
  set (a := (a1, a2)). set (b := (b1, b2)).
  set (ra := Cscale r a). set (ra' := Cscale (- r) a).
  set (ha := Cscale (/ 2) a). set (ha' := Cscale (- / 2) a).
  set (rb := Cscale r b). set (hb := Cscale (/ 2) b).
  set (ca := Cscale c a). set (sa := Cscale s a).
  set (rca := Cscale (r * c) a). set (rsa := Cscale (r * s) a).
  set (rca' := Cscale (- (r * c)) a). set (rsa' := Cscale (- (r * s)) a).
  set (hca := Cscale (c / 2) a). set (hsa := Cscale (s / 2) a).
  set (hca' := Cscale (- (c / 2)) a). set (hsa' := Cscale (- (s / 2)) a).
  (* Exercise 1: h(1), h(2), x(3) *)
  step (QC.ket 4 [(0, ra); (2, ra); (8, rb); (10, rb)]%nat).
  step (QC.ket 4 [(0, ha); (2, ha); (4, ha); (6, ha);
                  (8, hb); (10, hb); (12, hb); (14, hb)]%nat).
  step (QC.ket 4 [(0, hb); (2, hb); (4, hb); (6, hb);
                  (8, ha); (10, ha); (12, ha); (14, ha)]%nat).
  (* Exercise 2: cz(2, 3) *)
  step (QC.ket 4 [(0, hb); (2, hb); (4, hb); (6, hb);
                  (8, ha); (10, ha); (12, ha'); (14, ha')]%nat).
  (* Exercise 3: swap(1, 2), h(2), cu1(-pi/2, 1, 2), h(1) *)
  step (QC.ket 4 [(0, hb); (2, hb); (4, hb); (6, hb);
                  (8, ha); (10, ha'); (12, ha); (14, ha')]%nat).
  step (QC.ket 4 [(0, rb); (2, rb); (8, ra); (10, ra')]%nat).
  step (QC.ket 4 [(0, rb); (2, rb); (8, ra); (10, ra')]%nat).
  step (QC.ket 4 [(0, b); (10, a)]%nat).
  (* Exercise 4: swap(1, 2) and the two controlled rotations *)
  step (QC.ket 4 [(0, b); (12, a)]%nat).
  step (QC.ket 4 [(0, b); (12, a)]%nat).
  step (QC.ket 4 [(0, b); (12, ca); (13, sa)]%nat).
  (* Exercise 5 *)
  step (QC.ket 4 [(0, b); (10, ca); (11, sa)]%nat).
  step (QC.ket 4 [(0, rb); (2, rb);
                  (8, rca); (9, rsa); (10, rca'); (11, rsa')]%nat).
  step (QC.ket 4 [(0, rb); (2, rb);
                  (8, rca); (9, rsa); (10, rca'); (11, rsa')]%nat).
  step (QC.ket 4 [(0, hb); (2, hb); (4, hb); (6, hb);
                  (8, hca); (9, hsa); (10, hca'); (11, hsa');
                  (12, hca); (13, hsa); (14, hca'); (15, hsa')]%nat).
  step (QC.ket 4 [(0, hb); (2, hb); (4, hb); (6, hb);
                  (8, hca); (9, hsa); (10, hca); (11, hsa);
                  (12, hca'); (13, hsa'); (14, hca'); (15, hsa')]%nat).
  step (QC.ket 4 [(0, hb); (2, hb); (4, hb); (6, hb);
                  (8, hca); (9, hsa); (10, hca); (11, hsa);
                  (12, hca); (13, hsa); (14, hca); (15, hsa)]%nat).
  step (QC.ket 4 [(0, rb); (4, rb);
                  (8, rca); (9, rsa); (12, rca); (13, rsa)]%nat).
  step (QC.ket 4 [(0, b); (8, ca); (9, sa)]%nat).
  reflexivity.
Qed.

Ltac norm_eq :=
  let s := fresh "s" in
  let Hlen := fresh "Hlen" in
  intros s Hlen; entries s Hlen; unfold total; eval_state;
  let q := fresh "q" in
  let Hq := fresh "Hq" in
  let Hq2 := fresh "Hq" in
  generalize inv_sqrt2_sqr; generalize (/ sqrt 2); intros q Hq;
  assert (Hq2 : q ^ 2 = / 2) by (rewrite <- Hq; ring);
  ring_simplify; rewrite ?Hq2; field.

Ltac norm_trig t :=
  let s := fresh "s" in
  let Hlen := fresh "Hlen" in
  intros s Hlen; entries s Hlen; unfold total; eval_state;
  rewrite ?Rplus_0_l, ?cos_0, ?sin_0;
  let Hu := fresh "Hu" in
  let sn := fresh "sn" in
  let cs := fresh "cs" in
  let Hc := fresh "Hc" in
  pose proof (sin2_cos2 t) as Hu; unfold Rsqr in Hu;
  generalize dependent (cos t); generalize dependent (sin t);
  intros sn cs Hu;
  assert (Hc : cs ^ 2 = 1 - sn ^ 2) by (rewrite <- Hu; ring);
  ring_simplify; rewrite ?Hc; ring.

Lemma total_h1 : forall s, length s = 16%nat ->
  total (QC.apply_gate (QC.h 1) s) = total s.
Proof. norm_eq. Qed.

Lemma total_h2 : forall s, length s = 16%nat ->
  total (QC.apply_gate (QC.h 2) s) = total s.
Proof. norm_eq. Qed.

Lemma total_x3 : forall s, length s = 16%nat ->
  total (QC.apply_gate (QC.x 3) s) = total s.
Proof. norm_eq. Qed.

Lemma total_cz : forall s, length s = 16%nat ->
  total (QC.apply_gate (QC.cz 2 3) s) = total s.
Proof. norm_eq. Qed.

Lemma total_swap : forall s, length s = 16%nat ->
  total (QC.apply_gate (QC.swap 1 2) s) = total s.
Proof. norm_eq. Qed.

Lemma total_cu1 lam : forall s, length s = 16%nat ->
  total (QC.apply_gate (QC.cu1 lam 1 2) s) = total s.
Proof. norm_trig lam. Qed.

Lemma total_cu3_1 theta : forall s, length s = 16%nat ->
  total (QC.apply_gate (QC.cu3 theta 0 0 1 0) s) = total s.
Proof. norm_trig (theta / 2). Qed.

Lemma total_cu3_2 theta : forall s, length s = 16%nat ->
  total (QC.apply_gate (QC.cu3 theta 0 0 2 0) s) = total s.
Proof. norm_trig (theta / 2). Qed.

Lemma total_run gs : forall s,
  length s = 16%nat ->
  Forall (fun g => forall s', length s' = 16%nat ->
                   total (QC.apply_gate g s') = total s') gs ->
  total (QC.run gs s) = total s.
Proof.
  induction gs as [| g gs IH]; intros s Hlen Hgs; [reflexivity |].
  inversion Hgs as [| ? ? Hg Hrest]; subst.
  rewrite run_cons, IH; [now apply Hg | | exact Hrest].
  now rewrite apply_gate_length.
Qed.

(** X11: the gates of [hhl] keep the total probability: on every state of
    the four-qubit register, the squared moduli of the amplitudes after
    the circuit sum to what they summed to before it. *)
Theorem hhl_preserves_total_probability s :
  length s = 16%nat ->
  total (QC.run all_gates s) = total s.
Proof.
  intros Hlen. apply total_run; [exact Hlen |].
  unfold all_gates, rotation_gates, exercise1_gates, exercise2_gates,
    exercise3_gates, exercise4_gates, exercise5_gates. cbn [app].
  repeat (constructor;
          [first [ exact total_h1 | exact total_h2 | exact total_x3
                 | exact total_cz | exact total_swap | apply total_cu1
                 | apply total_cu3_1 | apply total_cu3_2 ] |]).
  constructor.
Qed.

Lemma hhl_preserves_total_probability_witness :
  total (QC.run all_gates (QC.zero_state 4)) = 1.
Proof.
  rewrite (hhl_preserves_total_probability (QC.zero_state 4));
    [| reflexivity].
  unfold total. eval_state. lra.
Defined.

Lemma probability_uncomputed :
  QC.probability uncomputed_state 8 = cos half_angle * cos half_angle /\
  QC.probability uncomputed_state 9 = sin half_angle * sin half_angle /\
  forall i, i <> 8%nat -> i <> 9%nat -> QC.probability uncomputed_state i = 0.
Proof.
  destruct uncomputed_state_amplitudes as (H8 & H9 & Hrest).
  unfold QC.probability. rewrite H8, H9.
  repeat split; try (unfold Cnorm2, RtoC; cbn [fst snd]; ring).
  intros i Hi8 Hi9. rewrite Hrest by assumption.
  unfold Cnorm2, C0. cbn [fst snd]. ring.
Qed.

(** X21: when [hhl] is measured after Exercise 5, the counts can only have
    the keys 1000 and 1001: qubit 3 always reads 1, qubits 1 and 2 always
    read 0, and the ancilla (qubit 0) reads 1 with a probability below one
    per cent.  No other key, such as 0010, can be counted. *)
Theorem hhl_counts_show_1000_or_1001 :
  let s := QC.final_state (QC.mkCircuit register_size all_gates) in
  (forall i, QC.can_appear s i <->
             (QC.bitstring 4 i = "1000" \/ QC.bitstring 4 i = "1001")%string
             /\ (i < 16)%nat) /\
  QC.probability s 8 + QC.probability s 9 = 1 /\
  0.99 < QC.probability s 8 /\
  0 < QC.probability s 9 < 0.01.
Proof.
  intros s.
  assert (Hs : s = uncomputed_state) by apply final_state_all_gates.
  rewrite Hs. destruct probability_uncomputed as (H8 & H9 & Hrest).
  pose proof cos_half_angle_bounds as Hcos.
  pose proof sin_half_angle_bounds as Hsin.
  assert (Hlen : length uncomputed_state = 16%nat).
  { unfold uncomputed_state, QC.ket. now rewrite length_map, length_seq. }
  split; [| rewrite H8, H9; repeat split].
  - intros i. unfold QC.can_appear. rewrite Hlen. split.
    + intros [Hi Hp]. split; [| exact Hi].
      destruct (Nat.eq_dec i 8) as [-> | Hi8]; [now left |].
      destruct (Nat.eq_dec i 9) as [-> | Hi9]; [now right |].
      exfalso. apply Hp. now apply Hrest.
    + intros [Hkey Hi]. split; [exact Hi |].
      assert (Hi89 : i = 8%nat \/ i = 9%nat).
      { do 16 (destruct i as [| i];
               [first [ left; reflexivity | right; reflexivity
                      | destruct Hkey as [Hkey | Hkey]; discriminate Hkey ] |]).
        lia. }
      destruct Hi89 as [-> | ->]; [rewrite H8 | rewrite H9]; nra.
  - pose proof (sin2_cos2 half_angle) as Hunit. unfold Rsqr in Hunit. lra.
  - nra.
  - nra.
  - nra.
Qed.

End HHLFacts.

(** * Facts about the grading cells *)

Module GradingFacts.
Import Amplitude Runner CircuitFacts MatrixInversion.

Lemma isclose_real_false a b :
  np.atol + np.rtol * Rabs b < Rabs (a - b) ->
  np.isclose (RtoC a) (RtoC b) = false.
Proof.
  intros Hab. unfold np.isclose.
  replace (Cminus (RtoC a) (RtoC b)) with (RtoC (a - b))
    by (unfold Cminus, RtoC; simpl; f_equal; ring).
  rewrite !Cabs_real.
  destruct (Rle_dec _ _) as [Hle | _]; [lra | reflexivity].
Qed.

Lemma allclose_false (a : list C) : forall b i,
  length a = length b ->
  np.isclose (nth i a C0) (nth i b C0) = false ->
  (i < length a)%nat ->
  np.allclose a b = Ok false.
Proof.
  intros b i Hlen Hfar Hi. unfold np.allclose.
  rewrite Hlen, Nat.eqb_refl. f_equal.
  revert b i Hlen Hfar Hi.
  induction a as [| u a IH]; intros [| v b] i Hlen Hfar Hi;
    try discriminate Hlen; [cbn in Hi; lia |].
  cbn [combine forallb fst snd]. destruct i as [| i].
  - cbn [nth] in Hfar. now rewrite Hfar.
  - rewrite (IH b i); [apply andb_false_r | now injection Hlen | exact Hfar |].
    cbn [length] in Hi. lia.
Qed.

Lemma grade_rejects c expected a i :
  length (get_amplitudes c) = length expected ->
  np.isclose (nth i (get_amplitudes c) C0) (nth i expected C0) = false ->
  (i < length (get_amplitudes c))%nat ->
  grade expected (mkNamespace (Some c) a) = Raise AssertionError.
Proof.
  intros Hlen Hfar Hi. unfold grade. cbn [hhl].
  now rewrite (allclose_false _ _ i Hlen Hfar Hi).
Qed.

Lemma half_is_not_minus_half :
  np.isclose (RtoC 0.5) (RtoC (-0.5)) = false.
Proof.
  apply isclose_real_false. unfold np.atol, np.rtol.
  replace (0.5 - -0.5) with 1 by lra.
  rewrite Rabs_R1, Rabs_left by lra. lra.
Qed.

Lemma far_from_zero x :
  0.05 <= x -> np.isclose (RtoC x) (RtoC 0) = false.
Proof.
  intros Hx. apply isclose_real_false. unfold np.atol, np.rtol.
  rewrite Rabs_R0, Rminus_0_r, Rabs_right by lra. lra.
Qed.

(** X12: the grading cells depend on the order of the cells: run before
    Exercise 1 a grading cell finds no [hhl] and raises [NameError], and
    each of the grading cells of Exercises 2 to 5 raises [AssertionError]
    on the circuit left by the exercise before it, so leaving out the
    cell of an exercise stops the run at its grading cell. *)
Theorem skipped_exercises_are_caught :
  (forall expected, grade expected fresh = Raise NameError) /\
  run_cells [exercise1; grade exercise1_expected;
             grade exercise2_expected] fresh = Raise AssertionError /\
  run_cells [exercise1; grade exercise1_expected;
             exercise2; grade exercise2_expected;
             grade exercise3_expected] fresh = Raise AssertionError /\
  run_cells [exercise1; grade exercise1_expected;
             exercise2; grade exercise2_expected;
             exercise3; grade exercise3_expected;
             grade exercise4_expected] fresh = Raise AssertionError /\
  run_cells [exercise1; grade exercise1_expected;
             exercise2; grade exercise2_expected;
             exercise3; grade exercise3_expected;
             exercise4; grade exercise4_expected;
             grade exercise5_expected] fresh = Raise AssertionError.
Proof.
  split; [reflexivity |].
  assert (H1 : forall rest,
    run_cells (exercise1 :: grade exercise1_expected :: rest) fresh
    = run_cells rest
        (mkNamespace (Some (QC.mkCircuit register_size exercise1_gates))
                     (Some exercise1_expected))).
  { intros rest. unfold fresh. cbn [run_cells bind exercise1].
    rewrite append_all. cbn [QC.new_circuit QC.n_qubits QC.data app].
    change [QC.h 1; QC.h 2; QC.x 3] with exercise1_gates.
    rewrite grade_passes by (rewrite amplitudes_exercise1; apply allclose_refl).
    cbn [bind]. now rewrite amplitudes_exercise1. }
  assert (H2 : forall rest a,
    run_cells (exercise2 :: grade exercise2_expected :: rest)
      (mkNamespace (Some (QC.mkCircuit register_size exercise1_gates)) a)
    = run_cells rest
        (mkNamespace (Some (QC.mkCircuit register_size
                              (exercise1_gates ++ exercise2_gates)))
                     (Some exercise2_expected))).
  { intros rest a. cbn [run_cells]. unfold exercise2. rewrite extend_hhl.
    cbn [bind].
    rewrite grade_passes by (rewrite amplitudes_exercise2; apply allclose_refl).
    cbn [bind]. now rewrite amplitudes_exercise2. }
  assert (H3 : forall rest a,
    run_cells (exercise3 :: grade exercise3_expected :: rest)
      (mkNamespace (Some (QC.mkCircuit register_size
                            (exercise1_gates ++ exercise2_gates))) a)
    = run_cells rest
        (mkNamespace (Some (QC.mkCircuit register_size
                              ((exercise1_gates ++ exercise2_gates)
                                 ++ exercise3_gates)))
                     (Some exercise3_expected))).
  { intros rest a. cbn [run_cells]. unfold exercise3. rewrite extend_hhl.
    cbn [bind].
    rewrite grade_passes by (rewrite amplitudes_exercise3; apply allclose_refl).
    cbn [bind]. now rewrite amplitudes_exercise3. }
  assert (H4 : forall rest a,
    run_cells (exercise4 :: grade exercise4_expected :: rest)
      (mkNamespace (Some (QC.mkCircuit register_size
                            ((exercise1_gates ++ exercise2_gates)
                               ++ exercise3_gates))) a)
    = run_cells rest
        (mkNamespace (Some (QC.mkCircuit register_size
                              (((exercise1_gates ++ exercise2_gates)
                                  ++ exercise3_gates) ++ exercise4_gates)))
                     (Some rotated_state))).
  { intros rest a. cbn [run_cells]. unfold exercise4. rewrite extend_hhl.
    cbn [bind].
    rewrite grade_passes
      by (rewrite amplitudes_exercise4; apply allclose_exercise4).
    cbn [bind]. now rewrite amplitudes_exercise4. }
  repeat split.
  - rewrite H1. cbn [run_cells].
    rewrite (grade_rejects _ _ _ 12); [reflexivity | ..];
      rewrite amplitudes_exercise1; [reflexivity | | cbn; lia].
    apply half_is_not_minus_half.
  - rewrite H1, H2. cbn [run_cells].
    rewrite (grade_rejects _ _ _ 8); [reflexivity | ..];
      rewrite amplitudes_exercise2; [reflexivity | | cbn; lia].
    apply far_from_zero. lra.
  - rewrite H1, H2, H3. cbn [run_cells].
    rewrite (grade_rejects _ _ _ 10); [reflexivity | ..];
      rewrite amplitudes_exercise3; [reflexivity | | cbn; lia].
    apply far_from_zero. lra.
  - rewrite H1, H2, H3, H4. cbn [run_cells].
    rewrite (grade_rejects _ _ _ 12); [reflexivity | ..];
      rewrite amplitudes_exercise4; [reflexivity | | cbn; lia].
    apply far_from_zero. pose proof cos_half_angle_bounds. lra.
Qed.

End GradingFacts.

(** * Facts about the open-system cells *)

Module OpenSystemFacts.
Import Amplitude Runner OpenSystem.

Ltac eval_array :=
  cbv -[Rplus Rmult Rminus Ropp Rinv Rdiv sqrt IZR cos sin PI pow].

Ltac split_array :=
  repeat match goal with
         | |- cons _ _ = cons _ _ => f_equal
         | |- pair _ _ = pair _ _ => f_equal
         | |- Ok _ = Ok _ => f_equal
         end.

Lemma four_entries (v : list C) :
  length v = 4%nat ->
  exists a1 a2 b1 b2 c1 c2 d1 d2,
    v = [(a1, a2); (b1, b2); (c1, c2); (d1, d2)].
Proof.
  intros Hlen.
  destruct v as [| [a1 a2] [| [b1 b2] [| [c1 c2] [| [d1 d2] [|]]]]];
    try discriminate Hlen.
  now exists a1, a2, b1, b2, c1, c2, d1, d2.
Qed.

(** On a column of four amplitudes the shapes agree and the sum is entry
    by entry. *)
Lemma mixed_state_two_qubits (v : list C) (visibility : R) :
  length v = 4%nat ->
  mixed_state (cnp.column v) visibility
  = Ok (cnp.add
          (cnp.scale visibility
             (cnp.matmul (cnp.column v) (cnp.conj (cnp.T (cnp.column v)))))
          (cnp.scale (1 - visibility) (cnp.scale (/ 2 ^ 2) (cnp.eye 4)))).
Proof.
  intros Hlen.
  destruct (four_entries v Hlen)
    as (a1 & a2 & b1 & b2 & c1 & c2 & d1 & d2 & ->).
  eval_array. reflexivity.
Qed.

(** X13: on a normalised two-qubit state (a column of 4 amplitudes whose
    squared moduli sum to 1) and with a visibility between 0 and 1,
    [mixed_state] returns a matrix of trace 1. *)
Theorem mixed_state_trace :
  forall (v : list C) (visibility : R),
    length v = 4%nat ->
    np.sum (map Cnorm2 v) = 1 ->
    0 <= visibility <= 1 ->
    exists m,
      mixed_state (cnp.column v) visibility = Ok m /\
      cnp.trace m = C1.
Proof.
  intros v visibility Hlen Hunit _.
  eexists. split; [now apply mixed_state_two_qubits |].
  destruct (four_entries v Hlen)
    as (a1 & a2 & b1 & b2 & c1 & c2 & d1 & d2 & ->).
  assert (Hsum : a1 * a1 + a2 * a2 + (b1 * b1 + b2 * b2 +
                 (c1 * c1 + c2 * c2 + (d1 * d1 + d2 * d2 + 0))) = 1)
    by exact Hunit.
  assert (Htrace : forall t,
            t = a1 * a1 + a2 * a2 + (b1 * b1 + b2 * b2 +
                (c1 * c1 + c2 * c2 + (d1 * d1 + d2 * d2 + 0))) ->
            cnp.trace (cnp.add
              (cnp.scale visibility
                 (cnp.matmul
                    (cnp.column [(a1, a2); (b1, b2); (c1, c2); (d1, d2)])
                    (cnp.conj (cnp.T (cnp.column
                       [(a1, a2); (b1, b2); (c1, c2); (d1, d2)])))))
              (cnp.scale (1 - visibility) (cnp.scale (/ 2 ^ 2) (cnp.eye 4))))
            = RtoC (visibility * t + (1 - visibility))).
  { intros t ->. eval_array. split_array; field. }
  rewrite (Htrace 1) by (now rewrite Hsum).
  unfold RtoC, C1. f_equal. ring.
Qed.

Lemma mixed_state_trace_witness :
  exists m,
    mixed_state (cnp.column [C1; C0; C0; C0]) (/ 2) = Ok m /\
    cnp.trace m = C1.
Proof.
  apply (mixed_state_trace [C1; C0; C0; C0] (/ 2) eq_refl).
  - unfold np.sum, Cnorm2, C1, C0. cbn [map fold_right fst snd]. lra.
  - lra.
Defined.

(** X14: the matrix [mixed_state] returns on a two-qubit state is
    Hermitian. *)
Theorem mixed_state_hermitian :
  forall (v : list C) (visibility : R),
    length v = 4%nat ->
    exists m,
      mixed_state (cnp.column v) visibility = Ok m /\
      forall i j, cnp.get m i j = cnp.Cconj (cnp.get m j i).
Proof.
  intros v visibility Hlen.
  destruct (four_entries v Hlen)
    as (a1 & a2 & b1 & b2 & c1 & c2 & d1 & d2 & ->).
  eexists. split; [apply mixed_state_two_qubits; reflexivity |].
  intros i j.
  do 4 (destruct i as [| i]; [do 4 (destruct j as [| j];
        [eval_array; split_array; ring |]);
        destruct j; eval_array; split_array; ring |]).
  do 4 (destruct j as [| j]; [destruct i; eval_array; split_array; ring |]).
  destruct i, j; eval_array; split_array; ring.
Qed.

Lemma mixed_state_hermitian_witness :
  exists m,
    mixed_state (cnp.column [C1; C0; C0; C1]) (/ 2) = Ok m /\
    cnp.get m 0 3 = cnp.Cconj (cnp.get m 3 0).
Proof.
  destruct (mixed_state_hermitian [C1; C0; C0; C1] (/ 2) eq_refl)
    as (m & Hm & Hherm).
  exists m. split; [exact Hm | apply Hherm].
Defined.

(** X15: with a visibility between 0 and 1 the matrix is positive
    semidefinite: its quadratic form on any vector is a non-negative real. *)
Theorem mixed_state_positive :
  forall (v x : list C) (visibility : R),
    length v = 4%nat -> length x = 4%nat ->
    0 <= visibility <= 1 ->
    exists m,
      mixed_state (cnp.column v) visibility = Ok m /\
      snd (expectation m x) = 0 /\
      0 <= fst (expectation m x).
Proof.
  intros v x visibility Hv Hx Hvis.
  destruct (four_entries v Hv) as (a1 & a2 & b1 & b2 & c1 & c2 & d1 & d2 & ->).
  destruct (four_entries x Hx) as (p1 & p2 & q1 & q2 & r1 & r2 & s1 & s2 & ->).
  eexists. split; [apply mixed_state_two_qubits; reflexivity |].
  split.
  - eval_array. field.
  - set (re := a1 * p1 + a2 * p2 + b1 * q1 + b2 * q2
               + c1 * r1 + c2 * r2 + d1 * s1 + d2 * s2).
    set (im := a1 * p2 - a2 * p1 + b1 * q2 - b2 * q1
               + c1 * r2 - c2 * r1 + d1 * s2 - d2 * s1).
    set (n2 := p1 * p1 + p2 * p2 + q1 * q1 + q2 * q2
               + r1 * r1 + r2 * r2 + s1 * s1 + s2 * s2).
    assert (Hform : fst (expectation
              (cnp.add
                 (cnp.scale visibility
                    (cnp.matmul (cnp.column [(a1, a2); (b1, b2); (c1, c2); (d1, d2)])
                       (cnp.conj (cnp.T (cnp.column
                          [(a1, a2); (b1, b2); (c1, c2); (d1, d2)])))))
                 (cnp.scale (1 - visibility) (cnp.scale (/ 2 ^ 2) (cnp.eye 4))))
              [(p1, p2); (q1, q2); (r1, r2); (s1, s2)])
            = visibility * (re * re + im * im) + (1 - visibility) / 4 * n2).
    { unfold re, im, n2. eval_array. field. }
    change (0 <= fst (expectation
              (cnp.add
                 (cnp.scale visibility
                    (cnp.matmul (cnp.column [(a1, a2); (b1, b2); (c1, c2); (d1, d2)])
                       (cnp.conj (cnp.T (cnp.column
                          [(a1, a2); (b1, b2); (c1, c2); (d1, d2)])))))
                 (cnp.scale (1 - visibility) (cnp.scale (/ 2 ^ 2) (cnp.eye 4))))
              [(p1, p2); (q1, q2); (r1, r2); (s1, s2)])).
    rewrite Hform.
    assert (0 <= re * re + im * im) by nra.
    assert (0 <= n2) by (unfold n2; nra).
    apply Rplus_le_le_0_compat; apply Rmult_le_pos; lra.
Qed.

Lemma mixed_state_positive_witness :
  exists m,
    mixed_state (cnp.column [C1; C0; C0; C1]) (/ 2) = Ok m /\
    0 <= fst (expectation m [C1; C0; C0; Copp C1]).
Proof.
  destruct (mixed_state_positive [C1; C0; C0; C1] [C1; C0; C0; Copp C1]
              (/ 2) eq_refl eq_refl)
    as (m & Hm & _ & Hpos); [lra |].
  exists m. split; [exact Hm | exact Hpos].
Defined.

Lemma shape_density (v : list C) (visibility : R) :
  cnp.shape (cnp.scale visibility
               (cnp.matmul (cnp.column v)
                           (cnp.conj (cnp.T (cnp.column v)))))
  = (length v, length v).
Proof.
  destruct v as [| a v]; [reflexivity |].
  unfold cnp.shape, cnp.scale, cnp.matmul, cnp.conj, cnp.T, cnp.column.
  cbn [map length seq].
  repeat (rewrite ?length_map, ?length_seq). reflexivity.
Qed.

Lemma shape_mixed (visibility : R) :
  cnp.shape (cnp.scale (1 - visibility) (cnp.scale (/ 2 ^ 2) (cnp.eye 4)))
  = (4%nat, 4%nat).
Proof. reflexivity. Qed.

Lemma broadcast_axis_4 n :
  cnp.broadcast_axis n 4
  = if (n =? 4)%nat then Some 4%nat
    else if (n =? 1)%nat then Some 4%nat else None.
Proof.
  unfold cnp.broadcast_axis.
  destruct (Nat.eqb_spec n 4) as [-> | H4]; [reflexivity |].
  destruct (n =? 1)%nat; reflexivity.
Qed.

(** X16: [mixed_state] takes two-qubit states.  The sum with
    [np.eye(4)/2**2] raises [ValueError] exactly when the column it is
    given has neither 4 entries nor 1; a column of one entry is broadcast,
    so that whenever the function returns, it returns a 4x4 array. *)
Theorem mixed_state_wrong_size :
  forall (v : list C) (visibility : R),
    (mixed_state (cnp.column v) visibility = Raise ValueError <->
     length v <> 4%nat /\ length v <> 1%nat) /\
    (forall m, mixed_state (cnp.column v) visibility = Ok m ->
               cnp.shape m = (4%nat, 4%nat) /\
               (length v = 4%nat \/ length v = 1%nat)).
Proof.
  intros v visibility. unfold mixed_state. cbv zeta. unfold cnp.plus.
  rewrite shape_density, shape_mixed. cbn [fst snd].
  rewrite broadcast_axis_4.
  destruct (Nat.eqb_spec (length v) 4) as [H4 | H4].
  - split.
    + split; [discriminate | intros [Hne _]; contradiction].
    + intros m [= <-]. split; [reflexivity | now left].
  - destruct (Nat.eqb_spec (length v) 1) as [H1 | H1].
    + split.
      * split; [discriminate | intros [_ Hne]; contradiction].
      * intros m [= <-]. split; [reflexivity | now right].
    + split.
      * split; [intros _; now split | reflexivity].
      * discriminate.
Qed.

(** The state of one qubit is not accepted. *)
Lemma mixed_state_wrong_size_witness :
  mixed_state (cnp.of_real Evolution.zero_ket) 1 = Raise ValueError.
Proof.
  apply (mixed_state_wrong_size [C1; C0] 1). cbn [length]. lia.
Defined.

Lemma inv_sqrt2 : 1 / sqrt 2 * (1 / sqrt 2) = / 2.
Proof.
  unfold Rdiv. rewrite !Rmult_1_l. apply CircuitFacts.inv_sqrt2_sqr.
Qed.

(** X17: for the Bell state [phi] the result has [(1 + v)/4] in the corners
    of the diagonal, [(1 - v)/4] on the rest of the diagonal and [v/2] in
    the two far corners, for every visibility [v]; these are the matrices
    the notebook prints for 1.0, 0.8, 0.6 and 0.2. *)
Theorem mixed_state_of_bell_state :
  forall visibility : R,
    mixed_state (cnp.of_real Evolution.phi) visibility
    = Ok (cnp.of_real
            [[(1 + visibility) / 4; 0; 0; visibility / 2];
             [0; (1 - visibility) / 4; 0; 0];
             [0; 0; (1 - visibility) / 4; 0];
             [visibility / 2; 0; 0; (1 + visibility) / 4]]).
Proof.
  intros visibility. eval_array.
  generalize inv_sqrt2. generalize (1 / sqrt 2). intros q Hq.
  assert (Hq2 : q ^ 2 = / 2) by (rewrite <- Hq; ring).
  split_array; first [ring | ring_simplify; rewrite ?Hq2; field].
Qed.

(** X18: the matrix [X] is unitary, [X @ X.T.conj()] and [X.T.conj() @ X]
    being the identity, and it preserves the norm of every ket, as it does
    for [zero_ket]. *)
Theorem X_is_unitary :
  let X := cnp.of_real Evolution.X in
  cnp.matmul X (cnp.conj (cnp.T X)) = cnp.eye 2 /\
  cnp.matmul (cnp.conj (cnp.T X)) X = cnp.eye 2 /\
  cnp.norm (cnp.of_real Evolution.zero_ket) = 1 /\
  forall a b : C,
    cnp.norm (cnp.matmul X (cnp.column [a; b])) = cnp.norm (cnp.column [a; b]).
Proof.
  intros X. unfold X. repeat split.
  - eval_array. split_array; ring.
  - eval_array. split_array; ring.
  - eval_array. replace (1 * 1 + 0 * 0 + (0 * 0 + 0 * 0 + 0)) with 1 by ring.
    apply sqrt_1.
  - intros [a1 a2] [b1 b2]. eval_array. f_equal. ring.
Qed.

End OpenSystemFacts.

(** * Facts about the Boltzmann curves *)

Module BoltzmannFacts.
Import Evolution.

Lemma sum_map_div (l : list R) z :
  np.sum (map (fun v => v / z) l) = np.sum l / z.
Proof.
  induction l as [| a l IH]; cbn [map np.sum fold_right].
  - unfold Rdiv. ring.
  - unfold np.sum in IH. rewrite IH. unfold Rdiv. ring.
Qed.

Lemma sum_positive (l : list R) :
  l <> [] -> Forall (fun v => 0 < v) l -> 0 < np.sum l.
Proof.
  intros Hne Hall. induction Hall as [| a l Ha Hall IH]; [contradiction |].
  cbn [np.sum fold_right]. destruct l as [| b l].
  - cbn [fold_right]. lra.
  - assert (0 < np.sum (b :: l)) by (apply IH; discriminate).
    unfold np.sum in *. lra.
Qed.

Lemma weights_positive T :
  Forall (fun v => 0 < v) (map (fun E => exp (- E / T)) energies).
Proof.
  apply Forall_forall. intros v Hv.
  apply in_map_iff in Hv as (E & <- & _). apply exp_pos.
Qed.

Lemma partition_sum_positive T :
  0 < np.sum (map (fun E => exp (- E / T)) energies).
Proof.
  apply sum_positive; [| apply weights_positive].
  unfold energies, np.linspace. discriminate.
Qed.

Lemma nth_energies i :
  (i < 100)%nat -> nth i energies 0 = INR i * (20 / 99).
Proof.
  intros Hi. unfold energies, np.linspace.
  set (f := fun i0 : nat => _).
  rewrite (nth_indep _ 0 (f 0%nat)) by (now rewrite length_map, length_seq).
  rewrite map_nth, seq_nth by assumption. unfold f.
  replace (INR (100 - 1)) with 99.
  - cbn [Nat.add]. field.
  - change (100 - 1)%nat with 99%nat. rewrite INR_IZR_INZ. reflexivity.
Qed.

Lemma nth_probabilities T i :
  (i < 100)%nat ->
  nth i (probabilities T) 0
  = exp (- nth i energies 0 / T)
    / np.sum (map (fun E => exp (- E / T)) energies).
Proof.
  intros Hi. unfold probabilities. cbv zeta.
  set (z := np.sum _).
  assert (Hlen : length energies = 100%nat)
    by (unfold energies, np.linspace; now rewrite length_map, length_seq).
  rewrite (nth_indep _ 0 ((fun v => v / z) (exp (- 0 / T))))
    by (rewrite !length_map; lia).
  rewrite (map_nth (fun v => v / z)).
  rewrite (map_nth (fun E => exp (- E / T))). reflexivity.
Qed.

Lemma energies_range E : In E energies -> 0 <= E <= 20.
Proof.
  intros Hin. apply (In_nth _ _ 0) in Hin as (i & Hi & <-).
  assert (Hlen : length energies = 100%nat)
    by (unfold energies, np.linspace; now rewrite length_map, length_seq).
  rewrite Hlen in Hi. rewrite nth_energies by assumption.
  assert (H0 : 0 <= INR i) by apply pos_INR.
  assert (H99 : INR i <= 99).
  { replace 99 with (INR 99) by (rewrite INR_IZR_INZ; reflexivity).
    apply le_INR. lia. }
  lra.
Qed.

Lemma sum_at_most_length (l : list R) :
  Forall (fun v => v <= 1) l -> np.sum l <= INR (length l).
Proof.
  induction 1 as [| v l Hv _ IH]; [cbn; lra |].
  cbn [length]. rewrite S_INR. unfold np.sum in *. cbn [fold_right]. lra.
Qed.

Lemma entry_at_most_sum (l : list R) v :
  Forall (fun u => 0 < u) l -> In v l -> v <= np.sum l.
Proof.
  induction 1 as [| u l Hu Hall IH]; [intros [] |].
  unfold np.sum in *. cbn [fold_right]. intros [<- | Hin].
  - assert (0 <= fold_right Rplus 0 l).
    { clear IH. induction Hall as [| w l Hw _ IHl]; cbn [fold_right]; lra. }
    lra.
  - specialize (IH Hin). lra.
Qed.

Lemma exp_monotone x y : x <= y -> exp x <= exp y.
Proof.
  intros [Hlt | ->]; [left; now apply exp_increasing | right; reflexivity].
Qed.

(** The weights [np.exp(-energies/T)] at a temperature of the plotted
    range stay away from 0. *)
Lemma weights_range T :
  0.5 <= T ->
  Forall (fun v => exp (- 40) <= v <= 1)
         (map (fun E => exp (- E / T)) energies).
Proof.
  intros HT. apply Forall_forall. intros v Hv.
  apply in_map_iff in Hv as (E & <- & HE). apply energies_range in HE.
  assert (Hq : 0 <= E / T <= 40).
  { split.
    - apply Rmult_le_pos; [lra |]. left. apply Rinv_0_lt_compat. lra.
    - apply Rmult_le_reg_r with T; [lra |].
      unfold Rdiv. rewrite Rmult_assoc, Rinv_l by lra. lra. }
  replace (- E / T) with (- (E / T)) by (field; lra).
  split.
  - apply exp_monotone. lra.
  - rewrite <- exp_0. apply exp_monotone. lra.
Qed.

(** X19: at every temperature of the plotted range, from 0.5 to 2000, the
    curve is a probability distribution over the 100 energy levels: its
    entries sum to 1 and each of them lies between [exp(-40)/100] and 1,
    so none of them is zero. *)
Theorem boltzmann_is_a_distribution :
  forall T : R,
    0.5 <= T <= 2000 ->
    length (probabilities T) = 100%nat /\
    Forall (fun p => exp (- 40) / 100 <= p <= 1) (probabilities T) /\
    np.sum (probabilities T) = 1.
Proof.
  intros T [HT _]. pose proof (partition_sum_positive T) as Hz.
  pose proof (weights_range T HT) as Hrange.
  assert (Hlen : length energies = 100%nat)
    by (unfold energies, np.linspace; now rewrite length_map, length_seq).
  assert (Hz100 : np.sum (map (fun E => exp (- E / T)) energies) <= 100).
  { replace 100 with (INR (length (map (fun E => exp (- E / T)) energies))).
    - apply sum_at_most_length. eapply Forall_impl; [| exact Hrange].
      cbn beta. intros v Hv. lra.
    - rewrite length_map, Hlen, INR_IZR_INZ. reflexivity. }
  unfold probabilities. cbv zeta. split; [| split].
  - now rewrite !length_map.
  - apply Forall_forall. intros p Hp.
    apply in_map_iff in Hp as (v & <- & Hv).
    pose proof (entry_at_most_sum _ v (weights_positive T) Hv) as Hle.
    rewrite Forall_forall in Hrange. specialize (Hrange v Hv).
    set (z := np.sum _) in *.
    pose proof (exp_pos (- 40)) as He.
    split.
    + apply Rmult_le_reg_r with z; [exact Hz |].
      unfold Rdiv at 2. rewrite Rmult_assoc, Rinv_l by lra.
      apply Rmult_le_reg_r with 100; [lra |].
      replace (exp (- 40) / 100 * z * 100) with (exp (- 40) * z) by field.
      nra.
    + apply Rmult_le_reg_r with z; [exact Hz |].
      unfold Rdiv. rewrite Rmult_assoc, Rinv_l by lra. lra.
  - rewrite sum_map_div. field. lra.
Qed.

(** The first temperature of the plot. *)
Lemma boltzmann_is_a_distribution_witness :
  np.sum (probabilities (nth 0 temperatures 0)) = 1.
Proof.
  apply (boltzmann_is_a_distribution (nth 0 temperatures 0)).
  cbn [nth temperatures]. lra.
Defined.

(** X20: at every temperature of the plotted range, from 0.5 to 2000, the
    probability strictly decreases with the energy level, and the ratio
    between two levels is the Boltzmann factor of their energy
    difference. *)
Theorem boltzmann_decreases_with_energy :
  forall (T : R) (i j : nat),
    0.5 <= T <= 2000 -> (i < j)%nat -> (j < 100)%nat ->
    nth j (probabilities T) 0 < nth i (probabilities T) 0 /\
    nth i (probabilities T) 0
    = exp ((nth j energies 0 - nth i energies 0) / T)
      * nth j (probabilities T) 0.
Proof.
  intros T i j [HT05 _] Hij Hj.
  assert (HT : 0 < T) by lra.
  pose proof (partition_sum_positive T) as Hz.
  rewrite !nth_probabilities by lia.
  set (z := np.sum _) in *.
  assert (HE : nth i energies 0 < nth j energies 0).
  { rewrite !nth_energies by lia. apply lt_INR in Hij. lra. }
  split.
  - apply Rmult_lt_compat_r; [now apply Rinv_0_lt_compat |].
    apply exp_increasing. unfold Rdiv.
    apply Rmult_lt_compat_r; [now apply Rinv_0_lt_compat | lra].
  - unfold Rdiv. rewrite <- Rmult_assoc, <- exp_plus. f_equal. f_equal.
    field. lra.
Qed.

(** The last temperature of the plot, at the two ends of the grid. *)
Lemma boltzmann_decreases_with_energy_witness :
  nth 99 (probabilities 2000) 0 < nth 0 (probabilities 2000) 0.
Proof.
  apply (boltzmann_decreases_with_energy 2000 0 99); [lra | lia | lia].
Defined.

End BoltzmannFacts.
